(** * jotmd: note rendering and the journal-file protocol

    A shallow embedding of [jotmd.py] and the properties of its note
    renderer ([render_note_lines]), its tag classifier ([is_ticket]) and
    its journal-file operations ([ensure_year_file], [ensure_date_header],
    [append_lines_under_today], [cmd_add]).

    Python [str] values are sequences of Unicode code points; they are
    modelled as lists of [N].  The file system is a finite map from paths
    to nodes, and the file operations run in an error monad. *)

From Stdlib Require Import NArith List Ascii String Lia DecimalN.
From Stdlib Require Import Sorting.Sorted Sorting.Permutation.
From stdpp Require Import gmap list sorting.

Local Open Scope N_scope.

(** ** Strings *)

Definition str := list N.

Definition ord (a : ascii) : N := N_of_ascii a.

Fixpoint lit (s : string) : str :=
  match s with
  | EmptyString => []
  | String a s' => ord a :: lit s'
  end.

Definition LF : N := 10.
Definition CR : N := 13.
Definition SP : N := 32.
Definition HASH : N := 35.
Definition STAR : N := 42.
Definition HYPHEN : N := 45.
Definition SLASH : N := 47.
Definition COLON : N := 58.

(** Inclusive code point ranges. *)
Definition in_ranges (tbl : list (N * N)) (c : N) : bool :=
  existsb (fun r => (fst r <=? c) && (c <=? snd r)) tbl.

(** The characters for which [str.isspace] holds; [str.strip],
    [str.rstrip] and the pattern class [\s] all use this set. *)
Definition unicode_space : list (N * N) :=
  [(9, 13); (28, 32); (133, 133); (160, 160); (5760, 5760); (8192, 8202);
   (8232, 8233); (8239, 8239); (8287, 8287); (12288, 12288)].

(** General category Nd (Unicode 14.0), the class [\d] of a [str]
    pattern. *)
Definition unicode_Nd : list (N * N) :=
  [(48, 57); (1632, 1641); (1776, 1785); (1984, 1993); (2406, 2415);
   (2534, 2543); (2662, 2671); (2790, 2799); (2918, 2927); (3046, 3055);
   (3174, 3183); (3302, 3311); (3430, 3439); (3558, 3567); (3664, 3673);
   (3792, 3801); (3872, 3881); (4160, 4169); (4240, 4249); (6112, 6121);
   (6160, 6169); (6470, 6479); (6608, 6617); (6784, 6793); (6800, 6809);
   (6992, 7001); (7088, 7097); (7232, 7241); (7248, 7257); (42528, 42537);
   (43216, 43225); (43264, 43273); (43472, 43481); (43504, 43513);
   (43600, 43609); (44016, 44025); (65296, 65305); (66720, 66729);
   (68912, 68921); (69734, 69743); (69872, 69881); (69942, 69951);
   (70096, 70105); (70384, 70393); (70736, 70745); (70864, 70873);
   (71248, 71257); (71360, 71369); (71472, 71481); (71904, 71913);
   (72016, 72025); (72784, 72793); (73040, 73049); (73120, 73129);
   (92768, 92777); (92864, 92873); (93008, 93017); (120782, 120831);
   (123200, 123209); (123632, 123641); (125264, 125273); (130032, 130041)].

Definition isspace (c : N) : bool := in_ranges unicode_space c.
Definition isdecimal (c : N) : bool := in_ranges unicode_Nd c.
(** The class [[A-Z]]. *)
Definition is_AZ (c : N) : bool := (65 <=? c) && (c <=? 90).

(** [str.lstrip()], [str.rstrip()], [str.strip()] without argument. *)
Fixpoint lstrip (s : str) : str :=
  match s with
  | [] => []
  | c :: s' => if isspace c then lstrip s' else s
  end.

Definition rstrip (s : str) : str := rev (lstrip (rev s)).

Definition strip (s : str) : str := rstrip (lstrip s).

(** Truthiness of a string: [bool(s)]. *)
Definition nonempty (s : str) : bool :=
  match s with [] => false | _ :: _ => true end.

(** [s.endswith("\n")]. *)
Definition ends_with_LF (s : str) : bool :=
  match rev s with c :: _ => c =? LF | [] => false end.

(** ** Patterns

    The two patterns of the program are sequences of literal characters,
    character classes repeated [n] or more times ([cls{n,}]: [\s+] is
    [\s{1,}], [\s*] is [\s{0,}]), and the anchors [^] and [$] under
    [re.MULTILINE]. *)

Inductive item :=
| Chr (c : N)
| Rep (cls : N -> bool) (n : nat)
| Bol
| Eol.

Definition pattern := list item.

(** [^] under MULTILINE: at the start of the text or right after a line
    feed.  [prev] is the character before the current position. *)
Definition at_bol (prev : option N) : bool :=
  match prev with None => true | Some c => c =? LF end.

(** [$] under MULTILINE: at the end of the text or right before a line
    feed. *)
Definition at_eol (s : str) : bool :=
  match s with [] => true | c :: _ => c =? LF end.

(** [cls{n,}] followed by the continuation [k]: every split of the run is
    tried, as the backtracking matcher does. *)
Fixpoint rep (cls : N -> bool) (k : option N -> str -> bool)
    (n : nat) (prev : option N) (s : str) {struct s} : bool :=
  match n with
  | O =>
      k prev s ||
      match s with
      | c :: s' => cls c && rep cls k O (Some c) s'
      | [] => false
      end
  | S n' =>
      match s with
      | c :: s' => cls c && rep cls k n' (Some c) s'
      | [] => false
      end
  end.

(** Match [p] at the current position; [full] asks for the match to end at
    the end of the text ([re.fullmatch]). *)
Fixpoint match_here (full : bool) (p : pattern) (prev : option N) (s : str)
    {struct p} : bool :=
  match p with
  | [] => if full then negb (nonempty s) else true
  | Chr c :: p' =>
      match s with
      | x :: s' => (x =? c) && match_here full p' (Some x) s'
      | [] => false
      end
  | Rep cls n :: p' => rep cls (match_here full p') n prev s
  | Bol :: p' => at_bol prev && match_here full p' prev s
  | Eol :: p' => at_eol s && match_here full p' prev s
  end.

Definition re_fullmatch (p : pattern) (s : str) : bool :=
  match_here true p None s.

(** [re.search]: the first position, from left to right, where the pattern
    matches; the position after the last character is tried too. *)
Fixpoint search_from (p : pattern) (prev : option N) (s : str) : bool :=
  match_here false p prev s ||
  match s with
  | c :: s' => search_from p (Some c) s'
  | [] => false
  end.

Definition re_search (p : pattern) (s : str) : bool := search_from p None s.

(** ** Tag classification *)

(** [[A-Z]{2,}-\d+] *)
Definition ticket_re : pattern :=
  [Rep is_AZ 2; Chr HYPHEN; Rep isdecimal 1].

Definition is_ticket (tag : str) : bool := re_fullmatch ticket_re tag.

(** The shape of a ticket-like tag in the words of the specification: two
    or more uppercase letters, a hyphen, one or more digits, and nothing
    else. *)
Definition ticket_shape (tag : str) : Prop :=
  exists letters digits : str,
    tag = letters ++ [HYPHEN] ++ digits /\
    (2 <= length letters)%nat /\
    Forall (fun c => is_AZ c = true) letters /\
    (1 <= length digits)%nat /\
    Forall (fun c => isdecimal c = true) digits.

(** ** The note renderer *)

(** Comparison of two strings with [<]: by code point, a proper prefix
    first. *)
Fixpoint str_ltb (a b : str) : bool :=
  match a, b with
  | _, [] => false
  | [], _ :: _ => true
  | x :: a', y :: b' => (x <? y) || ((x =? y) && str_ltb a' b')
  end.

(** [a <= b] on strings, as [not (b < a)]. *)
Definition str_le (a b : str) : Prop := str_ltb b a = false.

(** [sorted(l)] for a list of strings.  The built-in sort is stable and
    compares with [<]; on strings, equal elements are identical, so the
    result is the one ascending arrangement of [l].  It is computed here
    by stable insertion. *)
Fixpoint insert_sorted (x : str) (l : list str) : list str :=
  match l with
  | [] => [x]
  | y :: l' => if str_ltb y x then y :: insert_sorted x l' else x :: l
  end.

Fixpoint sorted (l : list str) : list str :=
  match l with
  | [] => []
  | x :: l' => insert_sorted x (sorted l')
  end.

Record RenderedLines := { lines : list str }.

(** [[t.strip() for t in tags if t and t.strip()]] *)
Definition clean_tags (tags : list str) : list str :=
  map strip (List.filter (fun t => nonempty t && nonempty (strip t)) tags).

(** [f"* {t}: {message}".rstrip()] *)
Definition person_line (message t : str) : str :=
  rstrip (lit "* " ++ t ++ lit ": " ++ message).

(** [f"* {t}"] and [f"    * {message}".rstrip()] *)
Definition ticket_lines (message t : str) : list str :=
  [lit "* " ++ t; rstrip (lit "    * " ++ message)].

Definition render_note_lines (message : str) (tags : list str)
  : RenderedLines :=
  let tags := clean_tags tags in
  match tags with
  | [] => {| lines := [rstrip (lit "* " ++ message)] |}
  | _ :: _ =>
      let person_like :=
        sorted (List.filter (fun t => negb (is_ticket t)) tags) in
      let tickets := sorted (List.filter is_ticket tags) in
      {| lines :=
           flat_map (fun t => [person_line message t]) person_like ++
           flat_map (fun t => ticket_lines message t) tickets |}
  end.

(** ** Dates *)

(** The fields of a [datetime] that the program reads. *)
Record datetime := { year : N; month : N; day : N }.

Definition digit (n : N) : N := 48 + n mod 10.

Definition pad2 (n : N) : str := [digit (n / 10); digit n].

Definition pad4 (n : N) : str :=
  [digit (n / 1000); digit (n / 100); digit (n / 10); digit n].

Fixpoint uint_str (d : Decimal.uint) : str :=
  match d with
  | Decimal.Nil => []
  | Decimal.D0 d' => 48 :: uint_str d'
  | Decimal.D1 d' => 49 :: uint_str d'
  | Decimal.D2 d' => 50 :: uint_str d'
  | Decimal.D3 d' => 51 :: uint_str d'
  | Decimal.D4 d' => 52 :: uint_str d'
  | Decimal.D5 d' => 53 :: uint_str d'
  | Decimal.D6 d' => 54 :: uint_str d'
  | Decimal.D7 d' => 55 :: uint_str d'
  | Decimal.D8 d' => 56 :: uint_str d'
  | Decimal.D9 d' => 57 :: uint_str d'
  end.

(** [f"{n}"] for a non-negative integer: decimal, no padding. *)
Definition str_of_N (n : N) : str := uint_str (N.to_uint n).

(** [dt.strftime("%m/%d/%Y")]: month and day in two digits; [%Y] is the
    year in decimal as the C library writes it, without padding, so that a
    year below 1000 has fewer than four digits.  From year 1000 on this is
    the four-digit year. *)
Definition strftime_mdY (dt : datetime) : str :=
  pad2 (month dt) ++ [SLASH] ++ pad2 (day dt) ++ [SLASH] ++
  str_of_N (year dt).

(** A date is valid when its fields are in the range of [datetime]. *)
Definition valid_datetime (dt : datetime) : Prop :=
  1 <= year dt <= 9999 /\ 1 <= month dt <= 12 /\ 1 <= day dt <= 31.

(** ** The file system *)

(** A path is the list of its components, innermost first: the parent of
    [name :: p] is [p], and [[]] is the root. *)
Abbreviation path := (list str).

(** A regular file holds its content as text.  Bytes that are not valid
    UTF-8 stand in it as lone surrogates (the code points U+D800 to
    U+DFFF), the way Python's [surrogateescape] carries them, as in a
    command-line argument; the strict codec of [encoding="utf-8"] neither
    reads nor writes them. *)
Inductive node :=
| Dir
| File (raw : str).

Inductive exception :=
| FileNotFoundError
| FileExistsError
| NotADirectoryError
| IsADirectoryError
| UnicodeDecodeError
| UnicodeEncodeError.

Inductive result (A : Type) :=
| Ok (a : A)
| Raise (e : exception).
Arguments Ok {A} a.
Arguments Raise {A} e.

(** Errors propagate: the first exception raised ends the operation. *)
Global Instance result_bind : MBind result := fun A B f r =>
  match r with
  | Ok a => f a
  | Raise e => Raise e
  end.

Abbreviation fsys := (gmap path node).

(** The root always exists and is a directory. *)
Definition node_at (fs : fsys) (p : path) : option node :=
  match p with
  | [] => Some Dir
  | _ :: _ => fs !! p
  end.

(** [Path.exists()] *)
Definition path_exists (fs : fsys) (p : path) : bool :=
  match node_at fs p with Some _ => true | None => false end.

(** [Path.is_dir()] *)
Definition is_dir (fs : fsys) (p : path) : bool :=
  match node_at fs p with Some Dir => true | _ => false end.

(** Every node sits in a directory. *)
Definition wf_fs (fs : fsys) : Prop :=
  forall name parent, is_Some (fs !! (name :: parent)) ->
    node_at fs parent = Some Dir.

(** [os.mkdir(p)] *)
Definition os_mkdir (p : path) (fs : fsys) : result fsys :=
  match p with
  | [] => Raise FileExistsError
  | _ :: parent =>
      match fs !! p with
      | Some _ => Raise FileExistsError
      | None =>
          match node_at fs parent with
          | None => Raise FileNotFoundError
          | Some (File _) => Raise NotADirectoryError
          | Some Dir => Ok (<[p := Dir]> fs)
          end
      end
  end.

(** [Path.mkdir(parents=True, exist_ok=True)]: try [os.mkdir]; when the
    parent is missing, make the parents and try again; any other error is
    swallowed when the path is a directory already. *)
Fixpoint mkdir_parents (p : path) (fs : fsys) : result fsys :=
  match os_mkdir p fs with
  | Ok fs' => Ok fs'
  | Raise FileNotFoundError =>
      match p with
      | [] => Raise FileNotFoundError
      | _ :: parent =>
          fs1 ← mkdir_parents parent fs;
          match os_mkdir p fs1 with
          | Ok fs2 => Ok fs2
          | Raise FileNotFoundError => Raise FileNotFoundError
          | Raise e => if is_dir fs1 p then Ok fs1 else Raise e
          end
      end
  | Raise e => if is_dir fs p then Ok fs else Raise e
  end.

(** [Path.touch()]: an existing node is left as it is, a missing one is
    created as an empty file. *)
Definition touch (p : path) (fs : fsys) : result fsys :=
  match p with
  | [] => Ok fs
  | _ :: parent =>
      match fs !! p with
      | Some _ => Ok fs
      | None =>
          match node_at fs parent with
          | None => Raise FileNotFoundError
          | Some (File _) => Raise NotADirectoryError
          | Some Dir => Ok (<[p := File []]> fs)
          end
      end
  end.

(** Reading in text mode translates the line endings CR LF and CR to LF.
    A CR is read as LF at once; [pending_cr] tells that the previous
    character was a CR, so that an LF right after it is dropped. *)
Fixpoint newline_decode (pending_cr : bool) (raw : str) : str :=
  match raw with
  | [] => []
  | c :: rest =>
      if c =? CR then LF :: newline_decode true rest
      else if (c =? LF) && pending_cr then newline_decode false rest
      else c :: newline_decode false rest
  end.

Definition universal_newlines (raw : str) : str := newline_decode false raw.

Definition is_surrogate (c : N) : bool := (55296 <=? c) && (c <=? 57343).

(** The text can be written as, and read back from, strict UTF-8: it holds
    no lone surrogate. *)
Definition utf8_ok (s : str) : bool :=
  forallb (fun c => negb (is_surrogate c)) s.

(** [Path.read_text(encoding="utf-8")]: the whole file is decoded, which
    fails on content that is not valid UTF-8, then the line endings are
    translated. *)
Definition read_text (p : path) (fs : fsys) : result str :=
  match node_at fs p with
  | None => Raise FileNotFoundError
  | Some Dir => Raise IsADirectoryError
  | Some (File raw) =>
      if utf8_ok raw then Ok (universal_newlines raw)
      else Raise UnicodeDecodeError
  end.

(** [Path.open("a")]: the file is created when it is missing. *)
Definition open_append (p : path) (fs : fsys) : result fsys :=
  match p with
  | [] => Raise IsADirectoryError
  | _ :: parent =>
      match fs !! p with
      | Some (File _) => Ok fs
      | Some Dir => Raise IsADirectoryError
      | None =>
          match node_at fs parent with
          | None => Raise FileNotFoundError
          | Some (File _) => Raise NotADirectoryError
          | Some Dir => Ok (<[p := File []]> fs)
          end
      end
  end.

(** The file at [p] grows by [w]. *)
Definition append_text (p : path) (w : str) (fs : fsys) : fsys :=
  match fs !! p with
  | Some (File raw) => <[p := File (raw ++ w)]> fs
  | _ => fs
  end.

(** [f.write(w)] on a file opened for appending at [p] with
    [encoding="utf-8"]: the text is encoded when it is written, which
    fails on a lone surrogate and then writes nothing of [w]; line feeds
    are written as they are. *)
Definition write (p : path) (w : str) (fs : fsys) : result fsys :=
  if utf8_ok w then Ok (append_text p w fs) else Raise UnicodeEncodeError.

(** [for line in lines: f.write(line + "\n")]: the loop ends at the first
    line that cannot be written. *)
Fixpoint write_lines (p : path) (lines : list str) (fs : fsys)
  : result fsys :=
  match lines with
  | [] => Ok fs
  | line :: rest =>
      fs1 ← write p (line ++ [LF]) fs;
      write_lines p rest fs1
  end.

(** ** File operations of the program *)

(** [rf"^#\s+{date_header}\s*$"] under [re.MULTILINE]; the characters of
    [date_header] are digits and slashes, which a pattern reads
    literally. *)
Definition header_re (date_header : str) : pattern :=
  [Bol; Chr HASH; Rep isspace 1] ++ map Chr date_header ++
  [Rep isspace 0; Eol].

Definition ensure_year_file (notes_dir : path) (dt : datetime) (fs : fsys)
  : result (path * fsys) :=
  fs1 ← mkdir_parents notes_dir fs;
  let path := (str_of_N (year dt) ++ lit ".md") :: notes_dir in
  fs2 ← (if negb (path_exists fs1 path) then touch path fs1 else Ok fs1);
  Ok (path, fs2).

Definition ensure_date_header (path : path) (dt : datetime) (fs : fsys)
  : result fsys :=
  let date_header := strftime_mdY dt in
  content ← (if path_exists fs path then read_text path fs else Ok []);
  if re_search (header_re date_header) content then Ok fs
  else
    fs1 ← open_append path fs;
    fs2 ← (if nonempty content && negb (ends_with_LF content)
           then write path [LF] fs1 else Ok fs1);
    fs3 ← (if nonempty content then write path [LF] fs2 else Ok fs2);
    write path (lit "# " ++ date_header ++ [LF; LF]) fs3.

Definition append_lines_under_today (path : path) (dt : datetime)
    (lines : list str) (fs : fsys) : result fsys :=
  fs1 ← open_append path fs;
  write_lines path lines fs1.

(** [cmd_add], after the command line has been read: [dt] is the parsed
    date, [notes_dir] the resolved directory, [message] and [tags] the
    raw arguments.  The result is the file system once the lines have been
    appended; the confirmation line that is printed last is left out. *)
Definition cmd_add (notes_dir : path) (dt : datetime) (message : str)
    (tags : list str) (fs : fsys) : result fsys :=
  '(year_file, fs1) ← ensure_year_file notes_dir dt fs;
  fs2 ← ensure_date_header year_file dt fs1;
  let rendered := render_note_lines (strip message) tags in
  append_lines_under_today year_file dt (lines rendered) fs2.

(** ** Notions used to state the properties *)

(** The character before the current position once [w] has been read. *)
Definition last_of (prev : option N) (w : str) : option N :=
  fold_left (fun _ c => Some c) w prev.

Definition str_eq_dec (a b : str) : {a = b} + {a <> b} := decide (a = b).

Definition is_person (t : str) : bool := negb (is_ticket t).

(** Trimming and discarding in the words of the specification: every tag
    is trimmed, then the empty results are dropped. *)
Definition trim_and_discard (tags : list str) : list str :=
  List.filter nonempty (map strip tags).

(** The lines as the specification writes them, nothing stripped. *)
Definition literal_person_line (message t : str) : str :=
  lit "* " ++ t ++ lit ": " ++ message.

Definition literal_ticket_lines (message t : str) : list str :=
  [lit "* " ++ t; lit "    * " ++ message].

(** The output is one [line1] per person-like tag in ascending order, then
    the lines [lines2] of each ticket-like tag in ascending order. *)
Definition renders_in_groups (line1 : str -> str) (lines2 : str -> list str)
    (message : str) (tags : list str) : Prop :=
  exists persons tickets : list str,
    Permutation persons (List.filter is_person (clean_tags tags)) /\
    StronglySorted str_le persons /\
    Permutation tickets (List.filter is_ticket (clean_tags tags)) /\
    StronglySorted str_le tickets /\
    lines (render_note_lines message tags) =
      map line1 persons ++ flat_map lines2 tickets.

(** Rendering with the lines exactly as the specification writes them, for
    every message. *)
Definition renders_lines_as_written : Prop :=
  forall (message : str) (tags : list str),
    clean_tags tags <> [] ->
    renders_in_groups (literal_person_line message)
      (literal_ticket_lines message) message tags.

(** [block] stands [k] times in a row in [ls], and the first line of
    [block] occurs nowhere else in [ls]. *)
Definition occurs_in_a_row (block : list str) (k : nat) (ls : list str)
  : Prop :=
  exists before after : list str,
    ls = before ++ concat (repeat block k) ++ after /\
    ~ In (hd [] block) before /\ ~ In (hd [] block) after.

(** *** Journal files *)

(** The lines of a text: the parts between line feeds; a line feed at the
    end closes the last line. *)
Fixpoint split_lines (s : str) : list str :=
  match s with
  | [] => []
  | c :: s' =>
      if c =? LF then [] :: split_lines s'
      else
        match split_lines s' with
        | [] => [[c]]
        | l :: ls => (c :: l) :: ls
        end
  end.

(** The lines [ls], each closed by one line feed. *)
Definition unlines (ls : list str) : str :=
  concat (map (fun l => l ++ [LF]) ls).

(** The header line of a date: ["# "] and the date as [strftime_mdY]
    writes it, ["# MM/DD/YYYY"] from the year 1000 on. *)
Definition header_line (dt : datetime) : str := lit "# " ++ strftime_mdY dt.

(** How many lines of [content] are the header line of [dt]. *)
Definition header_count (dt : datetime) (content : str) : nat :=
  count_occ str_eq_dec (split_lines content) (header_line dt).

(** A header for the date text [d] in the tolerant form the program looks
    for: a [#] that begins a line, one or more whitespace characters, the
    date, and then only whitespace up to the end of a line. *)
Definition header_match (d : str) (content : str) : Prop :=
  exists pre ws1 ws2 post : str,
    content = pre ++ [HASH] ++ ws1 ++ d ++ ws2 ++ post /\
    (pre = [] \/ exists pre', pre = pre' ++ [LF]) /\
    ws1 <> [] /\
    Forall (fun c => isspace c = true) ws1 /\
    Forall (fun c => isspace c = true) ws2 /\
    (post = [] \/ exists post', post = LF :: post').

(** What [ensure_date_header] appends when it finds no header: a line feed
    to close an open last line, a blank line after earlier content, the
    header line and a blank line. *)
Definition header_block (content : str) (dt : datetime) : str :=
  (if nonempty content && negb (ends_with_LF content) then [LF] else []) ++
  (if nonempty content then [LF] else []) ++
  header_line dt ++ [LF] ++ [LF].

(** The raw content of the file at [p]; nothing when there is no file. *)
Definition raw_at (fs : fsys) (p : path) : str :=
  match node_at fs p with
  | Some (File raw) => raw
  | _ => []
  end.

(** The file at [p] holds [raw], or there is no file at [p] yet, its
    directory exists and [raw] is empty. *)
Definition file_or_absent (fs : fsys) (p : path) (raw : str) : Prop :=
  node_at fs p = Some (File raw) \/
  (raw = [] /\ exists name parent,
     p = name :: parent /\ fs !! p = None /\ node_at fs parent = Some Dir).

(** [p] is the notes directory or one of its ancestors. *)
Definition above (p notes_dir : path) : Prop :=
  exists below : path, notes_dir = below ++ p.

(** No regular file stands where the notes directory or one of its
    ancestors should be. *)
Definition no_file_above (fs : fsys) (notes_dir : path) : Prop :=
  forall p raw, above p notes_dir -> node_at fs p <> Some (File raw).

(** [fs1] is [fs] with the directories of [p] made: [p] and everything
    above it are directories, nothing that existed has changed, and the
    only new nodes are directories on the way to [p]. *)
Definition dirs_ensured (p : path) (fs fs1 : fsys) : Prop :=
  (forall q, above q p -> is_dir fs1 q = true) /\
  (forall q : path,
     fs1 !! q = fs !! q \/
     (fs !! q = None /\ fs1 !! q = Some Dir /\ above q p /\ q <> [])) /\
  wf_fs fs1.

(** The path of the year file of [dt]. *)
Definition year_path (notes_dir : path) (dt : datetime) : path :=
  (str_of_N (year dt) ++ lit ".md") :: notes_dir.

(** The name of the year file has four digits before [".md"], for every
    valid date. *)
Definition year_file_has_four_digits : Prop :=
  forall (notes_dir : path) (dt : datetime) (fs fs' : fsys) (p : path),
    valid_datetime dt ->
    ensure_year_file notes_dir dt fs = Ok (p, fs') ->
    exists y : str,
      p = (y ++ lit ".md") :: notes_dir /\ length y = 4%nat /\
      Forall (fun c => 48 <= c <= 57) y.

(** Appending writes every line after the content of the file, whatever
    the lines are. *)
Definition appends_every_line : Prop :=
  forall (fs : fsys) (p : path) (dt : datetime) (ls : list str) (raw : str),
    file_or_absent fs p raw ->
    exists fs' : fsys,
      append_lines_under_today p dt ls fs = Ok fs' /\
      raw_at fs' p = raw ++ unlines ls.

(** [ensure_date_header] leaves the file as it is exactly when one of its
    lines is the header line of the date. *)
Definition noop_iff_exact_line : Prop :=
  forall (fs fs' : fsys) (p : path) (dt : datetime) (raw : str),
    node_at fs p = Some (File raw) ->
    ensure_date_header p dt fs = Ok fs' ->
    (fs' = fs <-> In (header_line dt) (split_lines (universal_newlines raw))).

(** A text without line breaks. *)
Definition plain (s : str) : Prop := ~ In LF s /\ ~ In CR s.

Definition plain_note (message : str) (tags : list str) : Prop :=
  plain message /\ Forall plain tags.

Definition any_note (message : str) (tags : list str) : Prop := True.

(** The file systems the program reaches from one in which the notes
    directory holds nothing, by adding notes that satisfy [ok]. *)
Inductive reachable (ok : str -> list str -> Prop) (notes_dir : path)
  : fsys -> Prop :=
| reach_fresh (fs0 : fsys) :
    (forall name, fs0 !! (name :: notes_dir) = None) ->
    reachable ok notes_dir fs0
| reach_add (fs fs' : fsys) (dt : datetime) (message : str)
    (tags : list str) :
    reachable ok notes_dir fs ->
    ok message tags ->
    cmd_add notes_dir dt message tags fs = Ok fs' ->
    reachable ok notes_dir fs'.

(** Every journal file that is reached has at most one header line per
    date. *)
Definition one_header_per_date (ok : str -> list str -> Prop) : Prop :=
  forall (notes_dir : path) (fs : fsys) (name raw : str) (dt : datetime),
    reachable ok notes_dir fs ->
    fs !! (name :: notes_dir) = Some (File raw) ->
    (header_count dt raw <= 1)%nat.

(** Whether a CR is pending after [a] has been read. *)
Definition pending_after (pending_cr : bool) (a : str) : bool :=
  fold_left (fun _ c => c =? CR) a pending_cr.

(** A text whose last line is closed: it is empty or ends with a line
    feed. *)
Definition closed (s : str) : Prop := s = [] \/ exists a, s = a ++ [LF].

(** What [cmd_add] makes of a year file that held [raw]: the header block
    when no header of the date is found, then the rendered lines. *)
Definition journal_after (raw : str) (dt : datetime) (message : str)
    (tags : list str) : str :=
  raw ++
  (if re_search (header_re (strftime_mdY dt)) (universal_newlines raw)
   then [] else header_block (universal_newlines raw) dt) ++
  unlines (lines (render_note_lines (strip message) tags)).

(** A journal as the program keeps it when the notes have no line breaks:
    no CR, a closed last line, and no line that begins with [#] twice. *)
Definition tidy (raw : str) : Prop :=
  ~ In CR raw /\ closed raw /\
  forall l : str, hd_error l = Some HASH ->
    (count_occ str_eq_dec (split_lines raw) l <= 1)%nat.

(** A journal in which every line that begins with [#] is the header line
    of some date, with no CR and a closed last line. *)
Definition journal_shaped (raw : str) : Prop :=
  ~ In CR raw /\ closed raw /\
  forall l : str, In l (split_lines raw) -> hd_error l = Some HASH ->
    exists dt, l = header_line dt.

(** *** A small journal used in the examples *)

Definition example_date : datetime := {| year := 2025; month := 8; day := 14 |}.

Definition example_notes_dir : path := [lit "notes"].

Definition example_year_file : path := [lit "2025.md"; lit "notes"].

(** A file system with the notes directory and its year file. *)
Definition example_fs (raw : str) : fsys :=
  <[example_year_file := File raw]> (<[example_notes_dir := Dir]> ∅).

(** * Properties *)

(** ** Pattern matching *)

Lemma last_of_app prev w1 w2 :
  last_of prev (w1 ++ w2) = last_of (last_of prev w1) w2.
Proof. unfold last_of. apply fold_left_app. Qed.

Lemma last_of_snoc prev w c : last_of prev (w ++ [c]) = Some c.
Proof. rewrite last_of_app. reflexivity. Qed.

(** [cls{n,}] reads a run [w] of at least [n] characters of the class and
    goes on with the rest. *)
Lemma rep_spec cls k s : forall n prev,
  rep cls k n prev s = true <->
  exists w rest, s = w ++ rest /\ Forall (fun c => cls c = true) w /\
    (n <= length w)%nat /\ k (last_of prev w) rest = true.
Proof.
  induction s as [|c s IH]; intros n prev.
  - destruct n as [|n]; simpl.
    + rewrite orb_false_r. split.
      * intros Hk. exists [], []. repeat split; auto.
      * intros (w & rest & Hs & _ & _ & Hk).
        symmetry in Hs. apply app_eq_nil in Hs as [-> ->]. exact Hk.
    + split; [discriminate|].
      intros (w & rest & Hs & _ & Hn & _).
      symmetry in Hs. apply app_eq_nil in Hs as [-> ->]. simpl in Hn. lia.
  - destruct n as [|n]; simpl.
    + rewrite orb_true_iff, andb_true_iff, IH. split.
      * intros [Hk | (Hc & w & rest & -> & Hw & _ & Hk)].
        -- exists [], (c :: s). repeat split; auto.
        -- exists (c :: w), rest. repeat split; auto. simpl; lia.
      * intros (w & rest & Hs & Hw & _ & Hk).
        destruct w as [|x w]; simpl in Hs.
        -- left. subst rest. exact Hk.
        -- right. injection Hs as -> ->. inversion Hw; subst.
           split; [assumption|]. exists w, rest. repeat split; auto. lia.
    + rewrite andb_true_iff, IH. split.
      * intros (Hc & w & rest & -> & Hw & Hn & Hk).
        exists (c :: w), rest. repeat split; auto. simpl; lia.
      * intros (w & rest & Hs & Hw & Hn & Hk).
        destruct w as [|x w]; simpl in Hs, Hn; [lia|].
        injection Hs as -> ->. inversion Hw; subst.
        split; [assumption|]. exists w, rest. repeat split; auto. lia.
Qed.

(** A run of literal characters reads exactly those characters. *)
Lemma match_lits full d p : forall prev s,
  match_here full (map Chr d ++ p) prev s = true <->
  exists rest, s = d ++ rest /\ match_here full p (last_of prev d) rest = true.
Proof.
  induction d as [|c d IH]; intros prev s; simpl.
  - split; [intros H; exists s; auto | intros (rest & -> & H); exact H].
  - destruct s as [|x s].
    + split; [discriminate | intros (rest & Hs & _); discriminate].
    + rewrite andb_true_iff, IH, N.eqb_eq. split.
      * intros (-> & rest & -> & H). exists rest. auto.
      * intros (rest & Hs & H). injection Hs as -> ->. eauto.
Qed.

(** [re.search] finds a match exactly when the pattern matches at some
    position of the text. *)
Lemma search_from_spec p s : forall prev,
  search_from p prev s = true <->
  exists pre rest, s = pre ++ rest /\
    match_here false p (last_of prev pre) rest = true.
Proof.
  induction s as [|c s IH]; intros prev; simpl.
  - rewrite orb_false_r. split.
    + intros H. exists [], []. auto.
    + intros (pre & rest & Hs & H).
      symmetry in Hs. apply app_eq_nil in Hs as [-> ->]. exact H.
  - rewrite orb_true_iff, IH. split.
    + intros [H | (pre & rest & -> & H)].
      * exists [], (c :: s). auto.
      * exists (c :: pre), rest. auto.
    + intros (pre & rest & Hs & H). destruct pre as [|x pre]; simpl in Hs.
      * left. subst rest. exact H.
      * right. injection Hs as -> ->. eauto.
Qed.

(** ** Tag classification *)

Lemma is_ticket_shape (tag : str) : is_ticket tag = true <-> ticket_shape tag.
Proof.
  unfold is_ticket, re_fullmatch, ticket_re, ticket_shape. simpl.
  rewrite rep_spec. split.
  - intros (w & rest & -> & Hw & Hn & Hk).
    destruct rest as [|x rest]; [discriminate|].
    apply andb_true_iff in Hk as [Hx Hk]. apply N.eqb_eq in Hx as ->.
    apply rep_spec in Hk as (w2 & rest2 & -> & Hw2 & Hn2 & Hk).
    destruct rest2; [|discriminate].
    exists w, w2. rewrite app_nil_r. auto.
  - intros (w & w2 & -> & Hn & Hw & Hn2 & Hw2).
    exists w, (HYPHEN :: w2). repeat split; auto.
    simpl. apply rep_spec.
    exists w2, []. rewrite app_nil_r. auto.
Qed.

(** C4: the classification of a tag is a total function of its text, and a
    tag is ticket-like exactly when the whole of it has the shape: two or
    more letters of A-Z, a hyphen, one or more digits; otherwise it is
    person/topic-like. *)
Theorem C4_is_ticket_iff_shape (tag : str) :
  (is_ticket tag = true <-> ticket_shape tag) /\
  (is_ticket tag = false <-> ~ ticket_shape tag) /\
  (is_ticket tag = true \/ is_ticket tag = false) /\
  ~ (is_ticket tag = true /\ is_ticket tag = false).
Proof.
  pose proof (is_ticket_shape tag) as H.
  repeat split.
  - apply H.
  - apply H.
  - intros Hf Hs. apply H in Hs. congruence.
  - intros Hn. destruct (is_ticket tag) eqn:E; [|reflexivity].
    exfalso. apply Hn, H. reflexivity.
  - destruct (is_ticket tag); auto.
  - intros [H1 H2]. congruence.
Qed.

(** ** Stripping whitespace *)

Lemma lstrip_app_nonspace x c y :
  isspace c = false -> lstrip (x ++ c :: y) = lstrip x ++ c :: y.
Proof.
  intros Hc. induction x as [|s x IH]; simpl.
  - rewrite Hc. reflexivity.
  - destruct (isspace s); auto.
Qed.

Lemma lstrip_spaces s :
  Forall (fun c => isspace c = true) s -> lstrip s = [].
Proof. induction 1 as [|c s Hc _ IH]; simpl; [|rewrite Hc]; auto. Qed.

Lemma lstrip_decomp s :
  exists ws, s = ws ++ lstrip s /\ Forall (fun c => isspace c = true) ws.
Proof.
  induction s as [|c s (ws & Hs & Hws)]; simpl.
  - exists []. auto.
  - destruct (isspace c) eqn:Hc.
    + exists (c :: ws). split; [simpl; congruence | auto].
    + exists []. auto.
Qed.

Lemma lstrip_head s c r : lstrip s = c :: r -> isspace c = false.
Proof.
  induction s as [|x s IH]; simpl; [discriminate|].
  destruct (isspace x) eqn:Hx; [exact IH|]. congruence.
Qed.

Lemma lstrip_idem s : lstrip (lstrip s) = lstrip s.
Proof.
  destruct (lstrip s) as [|c r] eqn:E; [reflexivity|].
  simpl. rewrite (lstrip_head _ _ _ E). reflexivity.
Qed.

(** A character that is not whitespace stops the stripping. *)
Lemma rstrip_app_nonspace a c b :
  isspace c = false -> rstrip (a ++ c :: b) = a ++ c :: rstrip b.
Proof.
  intros Hc. unfold rstrip. rewrite rev_app_distr. simpl.
  rewrite <- app_assoc. simpl. rewrite lstrip_app_nonspace by assumption.
  rewrite rev_app_distr. simpl. rewrite rev_involutive, <- app_assoc.
  reflexivity.
Qed.

Lemma rstrip_cons_nonspace c b :
  isspace c = false -> rstrip (c :: b) = c :: rstrip b.
Proof. apply (rstrip_app_nonspace []). Qed.

Lemma rstrip_nil : rstrip [] = [].
Proof. reflexivity. Qed.

Lemma rstrip_idem s : rstrip (rstrip s) = rstrip s.
Proof. unfold rstrip. rewrite rev_involutive, lstrip_idem. reflexivity. Qed.

(** What [rstrip] removes is a run of whitespace at the end. *)
Lemma rstrip_decomp s :
  exists ws, s = rstrip s ++ ws /\ Forall (fun c => isspace c = true) ws.
Proof.
  destruct (lstrip_decomp (rev s)) as (ws & Hs & Hws).
  exists (rev ws). split.
  - unfold rstrip. rewrite <- rev_app_distr, <- Hs, rev_involutive.
    reflexivity.
  - apply Forall_rev. exact Hws.
Qed.

(** What [rstrip] leaves does not end in whitespace. *)
Lemma rstrip_last s r c : rstrip s = r ++ [c] -> isspace c = false.
Proof.
  unfold rstrip. intros H. apply (f_equal (@rev N)) in H.
  rewrite rev_involutive, rev_app_distr in H. simpl in H.
  exact (lstrip_head _ _ _ H).
Qed.

(** A string that is not empty and does not end in whitespace is left as
    it is, whatever comes before it. *)
Lemma rstrip_app_fixed a m :
  m <> [] -> rstrip m = m -> rstrip (a ++ m) = a ++ m.
Proof.
  intros Hne Hm. destruct (exists_last Hne) as (m' & c & ->).
  pose proof (rstrip_last _ _ _ Hm) as Hc.
  rewrite app_assoc. rewrite (rstrip_app_nonspace (a ++ m') c []) by exact Hc.
  reflexivity.
Qed.

Lemma strip_idem t : strip (strip t) = strip t.
Proof.
  unfold strip. destruct (lstrip t) as [|c r] eqn:E; [reflexivity|].
  pose proof (lstrip_head _ _ _ E) as Hc.
  rewrite (rstrip_cons_nonspace c r Hc). simpl. rewrite Hc.
  rewrite (rstrip_cons_nonspace c _ Hc), rstrip_idem. reflexivity.
Qed.

(** ** Ordering and sorting of strings *)

Lemma str_ltb_trans a : forall b c,
  str_ltb a b = true -> str_ltb b c = true -> str_ltb a c = true.
Proof.
  induction a as [|x a IH]; intros [|y b] [|z c]; simpl; try discriminate;
    auto.
  rewrite !orb_true_iff, !andb_true_iff, !N.ltb_lt, !N.eqb_eq.
  intros [H1 | [H1 H1']] [H2 | [H2 H2']].
  - left; lia.
  - left; lia.
  - left; lia.
  - right. split; [lia | eauto].
Qed.

Lemma str_ltb_irrefl a : str_ltb a a = false.
Proof.
  induction a as [|x a IH]; simpl; [reflexivity|].
  rewrite N.ltb_irrefl, IH, andb_false_r. reflexivity.
Qed.

Lemma str_ltb_asym a b : str_ltb a b = true -> str_ltb b a = false.
Proof.
  intros H. destruct (str_ltb b a) eqn:E; [|reflexivity].
  pose proof (str_ltb_trans _ _ _ H E) as Haa.
  rewrite str_ltb_irrefl in Haa. discriminate.
Qed.

Lemma str_ltb_antisym a : forall b,
  str_ltb a b = false -> str_ltb b a = false -> a = b.
Proof.
  induction a as [|x a IH]; intros [|y b]; simpl; try discriminate; auto.
  rewrite !orb_false_iff, !andb_false_iff, !N.ltb_ge, !N.eqb_neq.
  intros [H1 H1'] [H2 H2']. assert (x = y) as -> by lia.
  f_equal. apply IH.
  - destruct H1'; [congruence | assumption].
  - destruct H2'; [congruence | assumption].
Qed.

Global Instance str_le_antisym : AntiSymm (=) str_le.
Proof. intros a b Hab Hba. apply str_ltb_antisym; assumption. Qed.

Global Instance str_le_trans : Transitive str_le.
Proof.
  unfold str_le. intros a b c Hab Hbc.
  destruct (str_ltb c a) eqn:Hca; [|reflexivity].
  destruct (str_ltb a b) eqn:Hlt.
  - rewrite (str_ltb_trans _ _ _ Hca Hlt) in Hbc. discriminate.
  - assert (a = b) as -> by (apply str_ltb_antisym; assumption).
    congruence.
Qed.

Lemma insert_sorted_perm x l : Permutation (insert_sorted x l) (x :: l).
Proof.
  induction l as [|y l IH]; simpl; [reflexivity|].
  destruct (str_ltb y x); [|reflexivity].
  rewrite IH. apply perm_swap.
Qed.

Lemma sorted_perm l : Permutation (sorted l) l.
Proof.
  induction l as [|x l IH]; simpl; [reflexivity|].
  rewrite insert_sorted_perm, IH. reflexivity.
Qed.

Lemma insert_sorted_StronglySorted x l :
  StronglySorted str_le l -> StronglySorted str_le (insert_sorted x l).
Proof.
  induction 1 as [|y l Hl IH Hy]; simpl.
  - repeat constructor.
  - destruct (str_ltb y x) eqn:E.
    + constructor; [exact IH|].
      rewrite insert_sorted_perm. constructor; [|exact Hy].
      unfold str_le. apply str_ltb_asym. exact E.
    + constructor; [constructor; assumption|].
      constructor; [exact E|].
      eapply Forall_impl; [exact Hy|].
      intros z Hz. simpl in Hz. exact (str_le_trans x y z E Hz).
Qed.

Lemma sorted_StronglySorted l : StronglySorted str_le (sorted l).
Proof.
  induction l as [|x l IH]; simpl; [constructor|].
  apply insert_sorted_StronglySorted, IH.
Qed.

(** Sorting forgets the order of its input. *)
Lemma sorted_perm_eq l1 l2 : Permutation l1 l2 -> sorted l1 = sorted l2.
Proof.
  intros H. apply (StronglySorted_unique str_le).
  - apply sorted_StronglySorted.
  - apply sorted_StronglySorted.
  - rewrite !sorted_perm. exact H.
Qed.

(** ** The note renderer *)

Lemma flat_map_single {A B} (f : A -> B) (l : list A) :
  flat_map (fun x => [f x]) l = map f l.
Proof. induction l as [|x l IH]; simpl; congruence. Qed.

Lemma filter_perm {A} (f : A -> bool) (l1 l2 : list A) :
  Permutation l1 l2 -> Permutation (List.filter f l1) (List.filter f l2).
Proof.
  induction 1 as [|x l1 l2 _ IH|x y l|l1 l2 l3 _ IH1 _ IH2]; simpl.
  - constructor.
  - destruct (f x); [constructor|]; exact IH.
  - destruct (f x), (f y); try reflexivity. apply perm_swap.
  - etransitivity; eassumption.
Qed.

Lemma clean_tags_perm tags1 tags2 :
  Permutation tags1 tags2 -> Permutation (clean_tags tags1) (clean_tags tags2).
Proof.
  intros H. unfold clean_tags. apply Permutation_map, filter_perm, H.
Qed.

Lemma strip_nil : strip [] = [].
Proof. reflexivity. Qed.

Lemma clean_tags_trim tags : clean_tags tags = trim_and_discard tags.
Proof.
  unfold clean_tags, trim_and_discard.
  induction tags as [|t tags IH]; simpl; [reflexivity|].
  destruct t as [|c t]; simpl nonempty at 1.
  - rewrite strip_nil. simpl. exact IH.
  - rewrite andb_true_l. destruct (nonempty (strip (c :: t))); simpl;
      congruence.
Qed.

Lemma trim_and_discard_idem tags :
  trim_and_discard (trim_and_discard tags) = trim_and_discard tags.
Proof.
  unfold trim_and_discard.
  induction tags as [|t tags IH]; simpl; [reflexivity|].
  destruct (nonempty (strip t)) eqn:E; simpl; [|exact IH].
  rewrite strip_idem, E, IH. reflexivity.
Qed.

(** The lines for a tag list of which something remains after trimming. *)
Lemma render_lines_tagged m tags :
  clean_tags tags <> [] ->
  lines (render_note_lines m tags) =
    map (person_line m) (sorted (List.filter is_person (clean_tags tags))) ++
    flat_map (ticket_lines m) (sorted (List.filter is_ticket (clean_tags tags))).
Proof.
  intros Hne. unfold render_note_lines.
  destruct (clean_tags tags) as [|t ts] eqn:E; [congruence|].
  cbn [lines]. rewrite flat_map_single. reflexivity.
Qed.

Lemma render_lines_untagged m tags :
  clean_tags tags = [] ->
  lines (render_note_lines m tags) = [rstrip (lit "* " ++ m)].
Proof. intros E. unfold render_note_lines. rewrite E. reflexivity. Qed.

Lemma person_line_shape m t :
  person_line m t = lit "* " ++ t ++ COLON :: rstrip (SP :: m).
Proof.
  unfold person_line. rewrite app_assoc.
  change (lit ": " ++ m) with (COLON :: SP :: m).
  rewrite rstrip_app_nonspace by reflexivity.
  rewrite <- app_assoc. reflexivity.
Qed.

Lemma sub_bullet_shape m :
  rstrip (lit "    * " ++ m) = lit "    *" ++ rstrip (SP :: m).
Proof.
  change (lit "    * " ++ m) with (lit "    " ++ STAR :: SP :: m).
  rewrite rstrip_app_nonspace by reflexivity. reflexivity.
Qed.

Lemma person_line_literal m t :
  m <> [] -> rstrip m = m -> person_line m t = literal_person_line m t.
Proof.
  intros Hne Hm. unfold person_line, literal_person_line.
  rewrite !app_assoc. apply rstrip_app_fixed; assumption.
Qed.

Lemma ticket_lines_literal m t :
  m <> [] -> rstrip m = m -> ticket_lines m t = literal_ticket_lines m t.
Proof.
  intros Hne Hm. unfold ticket_lines, literal_ticket_lines.
  rewrite rstrip_app_fixed by assumption. reflexivity.
Qed.

Lemma renders_in_groups_code m tags :
  clean_tags tags <> [] ->
  renders_in_groups (person_line m) (ticket_lines m) m tags.
Proof.
  intros Hne.
  exists (sorted (List.filter is_person (clean_tags tags))),
         (sorted (List.filter is_ticket (clean_tags tags))).
  repeat split.
  - apply sorted_perm.
  - apply sorted_StronglySorted.
  - apply sorted_perm.
  - apply sorted_StronglySorted.
  - apply render_lines_tagged, Hne.
Qed.

(** C1, amended: when a tag remains after trimming, the output is first one
    line ["* <TAG>: <message>"] per person-like tag in ascending order, then
    for each ticket-like tag in ascending order the two lines ["* <TICKET>"]
    and ["    * <message>"], where each line that carries the message has
    its trailing whitespace stripped; for a message that is not empty and
    does not end in whitespace nothing is stripped and the lines are
    exactly these.  The example of the specification holds. *)
Theorem C1_render_groups_sorted (m : str) (tags : list str) :
  clean_tags tags <> [] ->
  renders_in_groups
    (fun t => rstrip (lit "* " ++ t ++ lit ": " ++ m))
    (fun t => [lit "* " ++ t; rstrip (lit "    * " ++ m)]) m tags /\
  (m <> [] -> rstrip m = m ->
   renders_in_groups (literal_person_line m) (literal_ticket_lines m)
     m tags) /\
  lines (render_note_lines (lit "sync") [lit "Chris"; lit "DT-99"; lit "alice"])
  = [lit "* Chris: sync"; lit "* alice: sync"; lit "* DT-99"; lit "    * sync"].
Proof.
  intros Hne. split; [|split].
  - apply (renders_in_groups_code m tags Hne).
  - intros Hm1 Hm2.
    destruct (renders_in_groups_code m tags Hne)
      as (ps & ts & H1 & H2 & H3 & H4 & H5).
    exists ps, ts. repeat split; try assumption.
    rewrite H5. f_equal.
    + apply map_ext. intros t. apply person_line_literal; assumption.
    + apply flat_map_ext. intros t. apply ticket_lines_literal; assumption.
  - reflexivity.
Qed.

Lemma C1_render_groups_sorted_witness :
  clean_tags [lit "Chris"; lit "DT-99"; lit "alice"] <> [] /\
  renders_in_groups (literal_person_line (lit "sync"))
    (literal_ticket_lines (lit "sync")) (lit "sync")
    [lit "Chris"; lit "DT-99"; lit "alice"].
Proof.
  split; [discriminate|].
  apply (C1_render_groups_sorted (lit "sync")
           [lit "Chris"; lit "DT-99"; lit "alice"]).
  - discriminate.
  - discriminate.
  - reflexivity.
Defined.

(** C1 as stated fails: the message ["sync "] with the tag ["Chris"] gives
    the line ["* Chris: sync"], without the space that ends the message. *)
Lemma C1_lines_as_written_fail : ~ renders_lines_as_written.
Proof.
  intros H. specialize (H (lit "sync ") [lit "Chris"]).
  destruct H as (ps & ts & Hps & _ & Hts & _ & Hl); [discriminate|].
  change (List.filter is_person (clean_tags [lit "Chris"]))
    with [lit "Chris"] in Hps.
  change (List.filter is_ticket (clean_tags [lit "Chris"]))
    with (@nil str) in Hts.
  apply Permutation_sym, Permutation_length_1_inv in Hps.
  apply Permutation_sym, Permutation_nil in Hts. subst ps ts.
  vm_compute in Hl. discriminate.
Qed.

(** C3: the output does not depend on the order of the tags: two tag lists
    that are permutations of each other render to the same lines, for
    every message (the empty list included). *)
Theorem C3_render_permutation_invariant (m : str) (tags1 tags2 : list str) :
  Permutation tags1 tags2 ->
  render_note_lines m tags1 = render_note_lines m tags2.
Proof.
  intros H. apply clean_tags_perm in H. unfold render_note_lines.
  destruct (clean_tags tags1) as [|t1 ts1] eqn:E1.
  - apply Permutation_nil in H. rewrite H. reflexivity.
  - destruct (clean_tags tags2) as [|t2 ts2] eqn:E2.
    + symmetry in H. apply Permutation_nil in H. discriminate.
    + rewrite (sorted_perm_eq _ _ (filter_perm is_ticket _ _ H)).
      rewrite (sorted_perm_eq _ _
                 (filter_perm (fun t => negb (is_ticket t)) _ _ H)).
      reflexivity.
Qed.

Lemma C3_render_permutation_invariant_witness :
  Permutation [lit "alice"; lit "DT-99"; lit "Chris"]
              [lit "Chris"; lit "alice"; lit "DT-99"] /\
  render_note_lines (lit "sync") [lit "alice"; lit "DT-99"; lit "Chris"] =
  render_note_lines (lit "sync") [lit "Chris"; lit "alice"; lit "DT-99"].
Proof.
  assert (Permutation [lit "alice"; lit "DT-99"; lit "Chris"]
            [lit "Chris"; lit "alice"; lit "DT-99"]) as HP.
  { apply (Permutation_cons_app [lit "Chris"] [lit "DT-99"] (lit "alice")).
    apply perm_swap. }
  split; [exact HP|].
  apply (C3_render_permutation_invariant (lit "sync") _ _ HP).
Defined.

(** C9: the tags are trimmed and the empty ones dropped before anything
    else, and the output depends on the tags only through the trimmed
    list; when nothing remains the output is the single line
    ["* <message>"] with its trailing whitespace stripped, which is what
    [render(m, [])] returns for every [m].  Stripping removes a run of
    whitespace at the end and leaves a line that does not end in
    whitespace; a message that is not empty and does not end in
    whitespace gives exactly ["* m"]. *)
Theorem C9_render_without_tags (m : str) (tags : list str) :
  clean_tags tags = trim_and_discard tags /\
  render_note_lines m tags = render_note_lines m (trim_and_discard tags) /\
  (trim_and_discard tags = [] ->
   lines (render_note_lines m tags) = [rstrip (lit "* " ++ m)]) /\
  lines (render_note_lines m []) = [rstrip (lit "* " ++ m)] /\
  (exists ws, lit "* " ++ m = rstrip (lit "* " ++ m) ++ ws /\
     Forall (fun c => isspace c = true) ws) /\
  (forall r c, rstrip (lit "* " ++ m) = r ++ [c] -> isspace c = false) /\
  (m <> [] -> rstrip m = m -> lines (render_note_lines m []) = [lit "* " ++ m]).
Proof.
  split; [apply clean_tags_trim|].
  split.
  { unfold render_note_lines.
    rewrite (clean_tags_trim (trim_and_discard tags)), trim_and_discard_idem,
      clean_tags_trim. reflexivity. }
  split.
  { intros E. apply render_lines_untagged. rewrite clean_tags_trim. exact E. }
  split; [reflexivity|].
  split; [apply rstrip_decomp|].
  split; [apply rstrip_last|].
  intros Hne Hm. cbn [render_note_lines clean_tags map List.filter lines].
  rewrite rstrip_app_fixed by assumption. reflexivity.
Qed.

Lemma C9_render_without_tags_witness :
  trim_and_discard [lit "  "; []; [9; 10]] = [] /\
  lines (render_note_lines (lit "buy milk  ") [lit "  "; []; [9; 10]])
  = [lit "* buy milk"].
Proof.
  split; [reflexivity|].
  exact (proj1 (proj2 (proj2
           (C9_render_without_tags (lit "buy milk  ") [lit "  "; []; [9; 10]])))
           eq_refl).
Defined.

(** *** Repeated tags *)

Lemma count_occ_filter (f : str -> bool) l t :
  f t = true ->
  count_occ str_eq_dec (List.filter f l) t = count_occ str_eq_dec l t.
Proof.
  intros Hf. induction l as [|x l IH]; simpl; [reflexivity|].
  destruct (f x) eqn:Hx; simpl; destruct (str_eq_dec x t); subst;
    congruence.
Qed.

(** In a sorted list the copies of one element stand together. *)
Lemma sorted_group t l :
  StronglySorted str_le l ->
  exists l1 l2, l = l1 ++ repeat t (count_occ str_eq_dec l t) ++ l2 /\
    ~ In t l1 /\ ~ In t l2.
Proof.
  induction 1 as [|x l Hl (l1 & l2 & Hl12 & Hn1 & Hn2) Hx].
  - exists [], []. simpl. auto.
  - simpl. destruct (str_eq_dec x t) as [->|Hne].
    + destruct (count_occ str_eq_dec l t) as [|k] eqn:Ek.
      * exists [], (l1 ++ l2). simpl in *. subst l. repeat split; auto.
        intros Hin. apply in_app_or in Hin. tauto.
      * destruct l1 as [|y l1].
        -- exists [], l2. simpl in *. subst l. auto.
        -- exfalso. apply Hn1. left.
           rewrite Hl12 in Hx, Hl. inversion Hx as [|? ? Hty _]; subst.
           inversion Hl as [|? ? _ Hy]; subst.
           apply str_le_antisym; [|exact Hty].
           rewrite List.Forall_forall in Hy. apply Hy.
           apply in_or_app. right. simpl. auto.
    + exists (x :: l1), l2. rewrite Hl12 at 1. repeat split; auto.
      intros [Heq | Hin]; [congruence | tauto].
Qed.

Lemma flat_map_repeat {A B} (g : A -> list B) (t : A) (k : nat) :
  flat_map g (repeat t k) = concat (repeat (g t) k).
Proof. induction k as [|k IH]; simpl; congruence. Qed.

Lemma concat_repeat_single {A} (x : A) (k : nat) :
  concat (repeat [x] k) = repeat x k.
Proof. induction k as [|k IH]; simpl; congruence. Qed.

(** No character of a ticket-like tag is a colon. *)
Lemma ticket_no_colon t : is_ticket t = true -> ~ In COLON t.
Proof.
  intros Ht Hin. apply is_ticket_shape in Ht
    as (ls & ds & -> & _ & Hls & _ & Hds).
  rewrite List.Forall_forall in Hls, Hds.
  apply in_app_or in Hin as [Hin | [Hin | Hin]].
  - apply Hls in Hin. discriminate.
  - discriminate.
  - apply Hds in Hin. vm_compute in Hin. discriminate.
Qed.

Lemma person_line_inj m t1 t2 : person_line m t1 = person_line m t2 -> t1 = t2.
Proof.
  rewrite !person_line_shape. intros H.
  apply app_inv_head in H.
  change (t1 ++ [COLON] ++ rstrip (SP :: m) = t2 ++ [COLON] ++ rstrip (SP :: m))
    in H.
  rewrite !app_assoc in H. apply app_inv_tail in H.
  apply app_inv_tail in H. exact H.
Qed.

Lemma person_line_not_header m p t :
  is_ticket t = true -> person_line m p <> lit "* " ++ t.
Proof.
  intros Ht H. rewrite person_line_shape in H. apply app_inv_head in H.
  apply (ticket_no_colon t Ht). rewrite <- H.
  apply in_or_app. right. left. reflexivity.
Qed.

Lemma person_line_not_sub_bullet m p :
  person_line m p <> rstrip (lit "    * " ++ m).
Proof. rewrite person_line_shape, sub_bullet_shape. discriminate. Qed.

Lemma header_not_sub_bullet m t : lit "* " ++ t <> rstrip (lit "    * " ++ m).
Proof. rewrite sub_bullet_shape. discriminate. Qed.

Lemma person_line_in_map m t l :
  In (person_line m t) (map (person_line m) l) -> In t l.
Proof.
  intros H. apply in_map_iff in H as (t' & Heq & Hin).
  apply person_line_inj in Heq. congruence.
Qed.

Lemma person_line_not_in_tickets m t q :
  Forall (fun t' => is_ticket t' = true) q ->
  ~ In (person_line m t) (flat_map (ticket_lines m) q).
Proof.
  intros Hq Hin. apply in_flat_map in Hin as (t' & Hin' & [H | [H | []]]).
  - rewrite List.Forall_forall in Hq.
    exact (person_line_not_header m t t' (Hq _ Hin') (eq_sym H)).
  - exact (person_line_not_sub_bullet m t (eq_sym H)).
Qed.

Lemma header_in_tickets m t q :
  In (lit "* " ++ t) (flat_map (ticket_lines m) q) -> In t q.
Proof.
  intros Hin. apply in_flat_map in Hin as (t' & Hin' & [H | [H | []]]).
  - apply (app_inv_head (lit "* ")) in H. subst t'. exact Hin'.
  - exfalso. exact (header_not_sub_bullet m t (eq_sym H)).
Qed.

Lemma header_not_in_persons m t l :
  is_ticket t = true -> ~ In (lit "* " ++ t) (map (person_line m) l).
Proof.
  intros Ht Hin. apply in_map_iff in Hin as (p & Heq & _).
  exact (person_line_not_header m p t Ht Heq).
Qed.

Lemma filter_all {A} (f : A -> bool) (l : list A) :
  Forall (fun x => f x = true) (List.filter f l).
Proof.
  apply List.Forall_forall. intros x Hin. apply filter_In in Hin. tauto.
Qed.

(** C10: tags are not deduplicated.  A tag that occurs [k] times in the
    trimmed tag list has its rendered lines [k] times in the output, in a
    row: [k] copies of its line ["* <TAG>: <message>"] when it is
    person-like, [k] copies of its pair of lines ["* <TICKET>"],
    ["    * <message>"] when it is ticket-like (the lines that carry the
    message with trailing whitespace stripped, as the renderer emits
    them); the line that names the tag occurs nowhere else. *)
Theorem C10_duplicate_tags_repeat (m : str) (tags : list str) (t : str) :
  In t (clean_tags tags) ->
  (is_ticket t = false ->
   occurs_in_a_row [rstrip (lit "* " ++ t ++ lit ": " ++ m)]
     (count_occ str_eq_dec (clean_tags tags) t)
     (lines (render_note_lines m tags))) /\
  (is_ticket t = true ->
   occurs_in_a_row [lit "* " ++ t; rstrip (lit "    * " ++ m)]
     (count_occ str_eq_dec (clean_tags tags) t)
     (lines (render_note_lines m tags))).
Proof.
  intros Hin.
  assert (clean_tags tags <> []) as Hne by (intros E; rewrite E in Hin; exact Hin).
  rewrite (render_lines_tagged m tags Hne).
  set (cl := clean_tags tags) in *.
  set (ps := sorted (List.filter is_person cl)).
  set (ts := sorted (List.filter is_ticket cl)).
  assert (Forall (fun t' => is_ticket t' = true) ts) as Hts.
  { unfold ts. rewrite sorted_perm. apply filter_all. }
  split; intros Ht.
  - destruct (sorted_group t ps (sorted_StronglySorted _))
      as (l1 & l2 & Hps & Hn1 & Hn2).
    assert (count_occ str_eq_dec ps t = count_occ str_eq_dec cl t) as Hk.
    { unfold ps.
      rewrite <- (count_occ_filter is_person cl t)
        by (unfold is_person; rewrite Ht; reflexivity).
      apply Permutation_count_occ, sorted_perm. }
    rewrite Hk in Hps.
    exists (map (person_line m) l1),
           (map (person_line m) l2 ++ flat_map (ticket_lines m) ts).
    split; [|split].
    + rewrite Hps, !map_app, map_repeat, concat_repeat_single, <- !app_assoc.
      reflexivity.
    + intros H. apply Hn1. exact (person_line_in_map m t l1 H).
    + intros H. apply in_app_or in H as [H | H].
      * apply Hn2. exact (person_line_in_map m t l2 H).
      * exact (person_line_not_in_tickets m t ts Hts H).
  - destruct (sorted_group t ts (sorted_StronglySorted _))
      as (l1 & l2 & Hq & Hn1 & Hn2).
    assert (count_occ str_eq_dec ts t = count_occ str_eq_dec cl t) as Hk.
    { unfold ts. rewrite <- (count_occ_filter is_ticket cl t) by exact Ht.
      apply Permutation_count_occ, sorted_perm. }
    rewrite Hk in Hq.
    exists (map (person_line m) ps ++ flat_map (ticket_lines m) l1),
           (flat_map (ticket_lines m) l2).
    split; [|split].
    + rewrite Hq, !flat_map_app, flat_map_repeat, <- !app_assoc.
      reflexivity.
    + intros H. apply in_app_or in H as [H | H].
      * exact (header_not_in_persons m t ps Ht H).
      * apply Hn1. exact (header_in_tickets m t l1 H).
    + intros H. apply Hn2. exact (header_in_tickets m t l2 H).
Qed.

Lemma C10_duplicate_tags_repeat_witness :
  In (lit "DT-1") (clean_tags [lit "DT-1"; lit "bob"; lit " DT-1 "; lit "bob"]) /\
  occurs_in_a_row [lit "* DT-1"; lit "    * sync"] 2
    (lines (render_note_lines (lit "sync")
              [lit "DT-1"; lit "bob"; lit " DT-1 "; lit "bob"])).
Proof.
  split; [left; reflexivity|].
  apply (C10_duplicate_tags_repeat (lit "sync")
           [lit "DT-1"; lit "bob"; lit " DT-1 "; lit "bob"] (lit "DT-1")).
  - left; reflexivity.
  - reflexivity.
Defined.

(** ** Lines of a text *)

Lemma split_lines_nil s : split_lines s = [] -> s = [].
Proof.
  destruct s as [|c s]; [reflexivity|]. simpl.
  destruct (c =? LF); [discriminate|].
  destruct (split_lines s); discriminate.
Qed.

Lemma unlines_cons l ls : unlines (l :: ls) = l ++ LF :: unlines ls.
Proof. unfold unlines. simpl. rewrite <- app_assoc. reflexivity. Qed.

Lemma unlines_app ls1 ls2 : unlines (ls1 ++ ls2) = unlines ls1 ++ unlines ls2.
Proof. unfold unlines. rewrite map_app, concat_app. reflexivity. Qed.

(** Joining the lines of a text gives the text back, with its last line
    closed. *)
Lemma unlines_split_lines s :
  unlines (split_lines s) = s \/ unlines (split_lines s) = s ++ [LF].
Proof.
  induction s as [|c s IH]; [left; reflexivity|]. simpl.
  destruct (c =? LF) eqn:Hc.
  - apply N.eqb_eq in Hc as ->. rewrite unlines_cons. simpl.
    destruct IH as [-> | ->]; auto.
  - destruct (split_lines s) as [|l ls] eqn:E.
    + apply split_lines_nil in E as ->. right. reflexivity.
    + rewrite unlines_cons in *. simpl.
      destruct IH as [-> | ->]; auto.
Qed.

Lemma unlines_end ls : unlines ls = [] \/ exists u, unlines ls = u ++ [LF].
Proof.
  induction ls as [|l ls IH] using rev_ind; [left; reflexivity|].
  right. rewrite unlines_app. exists (unlines ls ++ l).
  rewrite unlines_cons. simpl. rewrite <- app_assoc. reflexivity.
Qed.

(** A line of a text stands between two line boundaries. *)
Lemma in_split_lines l s :
  In l (split_lines s) ->
  exists pre post, s = pre ++ l ++ post /\
    (pre = [] \/ exists pre', pre = pre' ++ [LF]) /\
    (post = [] \/ exists post', post = LF :: post').
Proof.
  intros Hin. apply in_split in Hin as (ls1 & ls2 & Hs).
  pose proof (unlines_split_lines s) as Hu.
  rewrite Hs, unlines_app, unlines_cons in Hu.
  assert (unlines ls1 = [] \/ exists pre', unlines ls1 = pre' ++ [LF]) as Hpre
    by apply unlines_end.
  destruct Hu as [Hu | Hu].
  - exists (unlines ls1), (LF :: unlines ls2). rewrite Hu. eauto.
  - destruct (unlines_end ls2) as [E | (u & E)]; rewrite E in Hu.
    + exists (unlines ls1), []. rewrite app_nil_r. split; [|auto].
      rewrite !app_assoc in Hu. apply app_inv_tail in Hu.
      symmetry. exact Hu.
    + exists (unlines ls1), (LF :: u). split; [|eauto].
      change (LF :: u ++ [LF]) with ((LF :: u) ++ [LF]) in Hu.
      rewrite !app_assoc in Hu. apply app_inv_tail in Hu.
      rewrite <- !app_assoc in Hu. symmetry. exact Hu.
Qed.

Lemma split_lines_line l rest :
  ~ In LF l -> split_lines (l ++ LF :: rest) = l :: split_lines rest.
Proof.
  induction l as [|c l IH]; intros Hl; simpl; [reflexivity|].
  destruct (c =? LF) eqn:Hc.
  - apply N.eqb_eq in Hc. exfalso. apply Hl. left. auto.
  - rewrite IH; [reflexivity|]. intros H. apply Hl. right. exact H.
Qed.

(** Lines without line feeds are read back as they were written. *)
Lemma split_lines_unlines ls :
  Forall (fun l => ~ In LF l) ls -> split_lines (unlines ls) = ls.
Proof.
  induction 1 as [|l ls Hl _ IH]; [reflexivity|].
  rewrite unlines_cons, split_lines_line by exact Hl. congruence.
Qed.

(** After a closed line, the lines of what follows are added. *)
Lemma split_lines_app_closed a b :
  split_lines ((a ++ [LF]) ++ b) = split_lines (a ++ [LF]) ++ split_lines b.
Proof.
  induction a as [|c a IH]; simpl; [reflexivity|].
  destruct (c =? LF); [rewrite IH; reflexivity|].
  rewrite IH. destruct (split_lines (a ++ [LF])) as [|l ls] eqn:E.
  - apply split_lines_nil in E. destruct a; discriminate.
  - reflexivity.
Qed.

Lemma ends_with_LF_snoc a c : ends_with_LF (a ++ [c]) = (c =? LF).
Proof. unfold ends_with_LF. rewrite rev_app_distr. reflexivity. Qed.

Lemma ends_with_LF_true s :
  ends_with_LF s = true -> exists a, s = a ++ [LF].
Proof.
  destruct s as [|c s] using rev_ind; [discriminate|].
  rewrite ends_with_LF_snoc. intros H. apply N.eqb_eq in H as ->. eauto.
Qed.

Lemma nonempty_true s : nonempty s = true <-> s <> [].
Proof. destruct s; simpl; split; congruence. Qed.

(** ** Universal newlines *)

Lemma universal_newlines_nil raw : universal_newlines raw = [] <-> raw = [].
Proof.
  split; [|intros ->; reflexivity].
  destruct raw as [|c rest]; [reflexivity|]. unfold universal_newlines.
  simpl. rewrite andb_false_r. destruct (c =? CR); discriminate.
Qed.

Lemma universal_newlines_plain raw :
  ~ In CR raw -> universal_newlines raw = raw.
Proof.
  unfold universal_newlines.
  induction raw as [|c rest IH]; intros H; [reflexivity|].
  simpl. rewrite andb_false_r. destruct (c =? CR) eqn:Hc.
  - apply N.eqb_eq in Hc. exfalso. apply H. left. auto.
  - rewrite IH; [reflexivity|]. intros Hin. apply H. right. exact Hin.
Qed.

Lemma newline_decode_app a : forall f b,
  newline_decode f (a ++ b) =
  newline_decode f a ++ newline_decode (pending_after f a) b.
Proof.
  induction a as [|c a IH]; intros f b; [reflexivity|]. simpl.
  destruct (c =? CR) eqn:Hc.
  - rewrite IH. reflexivity.
  - destruct ((c =? LF) && f); rewrite IH; reflexivity.
Qed.

Lemma newline_decode_plain f b :
  ~ In CR b -> hd_error b <> Some LF -> newline_decode f b = b.
Proof.
  intros Hcr Hhd. destruct b as [|c b]; [reflexivity|]. simpl.
  assert ((c =? CR) = false) as ->
    by (apply N.eqb_neq; intros ->; apply Hcr; left; reflexivity).
  assert ((c =? LF) = false) as ->
    by (apply N.eqb_neq; intros ->; apply Hhd; reflexivity).
  simpl. f_equal. apply universal_newlines_plain.
  intros H. apply Hcr. right. exact H.
Qed.

(** Text without CR that does not begin with a line feed is read as it
    is, whatever comes before it. *)
Lemma universal_newlines_app_plain a b :
  ~ In CR b -> hd_error b <> Some LF ->
  universal_newlines (a ++ b) = universal_newlines a ++ b.
Proof.
  intros Hcr Hhd. unfold universal_newlines.
  rewrite newline_decode_app, (newline_decode_plain _ b Hcr Hhd).
  reflexivity.
Qed.

Lemma pending_after_snoc f a c : pending_after f (a ++ [c]) = (c =? CR).
Proof. unfold pending_after. rewrite fold_left_app. reflexivity. Qed.

(** A text that ends with a line feed is read as one that does. *)
Lemma universal_newlines_closed a :
  exists u, universal_newlines (a ++ [LF]) = u ++ [LF].
Proof.
  unfold universal_newlines. rewrite newline_decode_app.
  destruct a as [|c a _] using rev_ind.
  - exists []. reflexivity.
  - rewrite pending_after_snoc. destruct (c =? CR) eqn:Hc.
    + apply N.eqb_eq in Hc as ->. rewrite newline_decode_app.
      exists (newline_decode false a). simpl. rewrite app_nil_r. reflexivity.
    + exists (newline_decode false (a ++ [c])). reflexivity.
Qed.

(** ** Searching for a header *)

Lemma at_bol_last_of pre :
  at_bol (last_of None pre) = true <->
  pre = [] \/ exists pre', pre = pre' ++ [LF].
Proof.
  destruct pre as [|c pre _] using rev_ind.
  - simpl. split; auto.
  - rewrite last_of_snoc. simpl. rewrite N.eqb_eq. split.
    + intros ->. eauto.
    + intros [H | (pre' & H)].
      * destruct pre; discriminate.
      * apply app_inj_tail in H as [_ H]. exact H.
Qed.

Lemma at_eol_spec post :
  at_eol post = true <-> post = [] \/ exists post', post = LF :: post'.
Proof.
  destruct post as [|c post]; simpl.
  - split; auto.
  - rewrite N.eqb_eq. split.
    + intros ->. eauto.
    + intros [H | (post' & H)]; congruence.
Qed.

(** The search of [ensure_date_header] succeeds exactly on the texts that
    hold a header in the tolerant form. *)
Lemma header_search_spec d content :
  re_search (header_re d) content = true <-> header_match d content.
Proof.
  unfold re_search, header_match. rewrite search_from_spec. split.
  - intros (pre & rest & -> & H). unfold header_re in H.
    cbn [app match_here] in H.
    apply andb_true_iff in H as [Hbol H].
    destruct rest as [|x rest]; [discriminate|].
    apply andb_true_iff in H as [Hx H]. apply N.eqb_eq in Hx as ->.
    apply rep_spec in H as (ws1 & r1 & -> & Hws1 & Hn & H).
    apply match_lits in H as (r2 & -> & H). cbn [match_here] in H.
    apply rep_spec in H as (ws2 & post & -> & Hws2 & _ & H).
    cbn [match_here] in H. rewrite andb_true_r in H.
    exists pre, ws1, ws2, post. repeat split; try assumption.
    + apply at_bol_last_of, Hbol.
    + intros ->. simpl in Hn. lia.
    + apply at_eol_spec, H.
  - intros (pre & ws1 & ws2 & post & -> & Hpre & Hne & Hws1 & Hws2 & Hpost).
    exists pre, ([HASH] ++ ws1 ++ d ++ ws2 ++ post). split; [reflexivity|].
    unfold header_re. cbn [app match_here].
    apply andb_true_iff. split; [apply at_bol_last_of, Hpre|].
    rewrite N.eqb_refl. cbn [andb]. apply rep_spec.
    exists ws1, (d ++ ws2 ++ post). repeat split; try assumption.
    + destruct ws1; [congruence | simpl; lia].
    + apply match_lits. exists (ws2 ++ post). split; [reflexivity|].
      cbn [match_here]. apply rep_spec.
      exists ws2, post. repeat split; try assumption; [lia|].
      cbn [match_here]. rewrite andb_true_r. apply at_eol_spec, Hpost.
Qed.

(** A line that is exactly the header line is such a header. *)
Lemma header_line_match dt content :
  In (header_line dt) (split_lines content) ->
  header_match (strftime_mdY dt) content.
Proof.
  intros Hin. apply in_split_lines in Hin as (pre & post & -> & Hpre & Hpost).
  exists pre, [SP], [], post. repeat split; auto; discriminate.
Qed.

Lemma header_search_nil d : re_search (header_re d) [] = false.
Proof. reflexivity. Qed.

(** The formatted date: two digits, a slash, two digits, a slash and the
    year in decimal; the digits are those of the month and the day. *)
Lemma mod10_le9 a : a mod 10 <= 9.
Proof.
  assert (a mod 10 < 10) as H by (apply N.mod_upper_bound; discriminate).
  revert H. generalize (a mod 10). intros; lia.
Qed.

Lemma digit_range n : 48 <= digit n <= 57.
Proof.
  unfold digit. pose proof (mod10_le9 n) as H.
  revert H. generalize (n mod 10). intros; lia.
Qed.

Lemma two_digits n : n < 100 -> n = 10 * ((n / 10) mod 10) + n mod 10.
Proof.
  intros Hn. rewrite (N.mod_small (n / 10) 10).
  - apply N.Div0.div_mod.
  - apply N.Div0.div_lt_upper_bound. exact Hn.
Qed.

Lemma uint_str_digits d : Forall (fun c => 48 <= c <= 57) (uint_str d).
Proof. induction d; simpl; constructor; (lia || assumption). Qed.

Lemma str_of_N_digits n : Forall (fun c => 48 <= c <= 57) (str_of_N n).
Proof. apply uint_str_digits. Qed.

Lemma strftime_mdY_format dt :
  exists m1 m2 d1 d2 : N,
    strftime_mdY dt =
      [48 + m1; 48 + m2; SLASH; 48 + d1; 48 + d2; SLASH] ++
      str_of_N (year dt) /\
    Forall (fun x => x <= 9) [m1; m2; d1; d2] /\
    (valid_datetime dt ->
     month dt = 10 * m1 + m2 /\ day dt = 10 * d1 + d2).
Proof.
  exists ((month dt / 10) mod 10), (month dt mod 10),
         ((day dt / 10) mod 10), (day dt mod 10).
  split; [reflexivity|]. split.
  - repeat constructor; apply mod10_le9.
  - intros ((Hy1 & Hy2) & (Hm1 & Hm2) & (Hd1 & Hd2)).
    split; apply two_digits; lia.
Qed.

(** The formatted date is made of digits and slashes. *)
Lemma strftime_mdY_chars dt : Forall (fun c => 47 <= c <= 57) (strftime_mdY dt).
Proof.
  destruct (strftime_mdY_format dt) as (m1 & m2 & d1 & d2 & E & Hd & _).
  rewrite E. apply Forall_app. split.
  - unfold SLASH. inversion Hd as [|? ? H1 Hd1]; subst.
    inversion Hd1 as [|? ? H2 Hd2]; subst.
    inversion Hd2 as [|? ? H3 Hd3]; subst.
    inversion Hd3 as [|? ? H4 _]; subst.
    repeat constructor; lia.
  - eapply Forall_impl; [apply str_of_N_digits|].
    simpl. intros c Hc. lia.
Qed.

Lemma strftime_mdY_nonempty dt : strftime_mdY dt <> [].
Proof. discriminate. Qed.

(** ** Text that can be encoded *)

Lemma utf8_ok_app a b : utf8_ok (a ++ b) = utf8_ok a && utf8_ok b.
Proof. apply forallb_app. Qed.

Lemma utf8_ok_below s : Forall (fun c => c < 55296) s -> utf8_ok s = true.
Proof.
  intros H. apply List.forallb_forall. intros c Hin.
  rewrite List.Forall_forall in H. apply H in Hin.
  unfold is_surrogate. apply negb_true_iff, andb_false_iff. left.
  apply N.leb_gt, Hin.
Qed.

Lemma utf8_ok_line l : utf8_ok (l ++ [LF]) = utf8_ok l.
Proof. rewrite utf8_ok_app. change (utf8_ok [LF]) with true. apply andb_true_r. Qed.

Lemma utf8_ok_unlines ls : utf8_ok (unlines ls) = forallb utf8_ok ls.
Proof.
  induction ls as [|l ls IH]; [reflexivity|].
  rewrite unlines_cons. change (LF :: unlines ls) with ([LF] ++ unlines ls).
  rewrite !utf8_ok_app, IH. reflexivity.
Qed.

Lemma utf8_ok_strftime dt : utf8_ok (strftime_mdY dt) = true.
Proof.
  apply utf8_ok_below. eapply Forall_impl; [apply strftime_mdY_chars|].
  simpl. intros c Hc. lia.
Qed.

(** ** File operations *)

Lemma node_at_file fs p raw :
  node_at fs p = Some (File raw) ->
  fs !! p = Some (File raw) /\ exists name parent, p = name :: parent.
Proof. destruct p as [|name parent]; simpl; [discriminate | eauto]. Qed.

Lemma open_append_file fs p raw :
  node_at fs p = Some (File raw) -> open_append p fs = Ok fs.
Proof.
  intros H. apply node_at_file in H as (H & name & parent & ->).
  unfold open_append. rewrite H. reflexivity.
Qed.

Lemma open_append_absent (fs : fsys) name parent :
  fs !! (name :: parent) = None -> node_at fs parent = Some Dir ->
  open_append (name :: parent) fs = Ok (<[name :: parent := File []]> fs).
Proof. intros H1 H2. unfold open_append. rewrite H1, H2. reflexivity. Qed.

Lemma append_text_insert (fs : fsys) p raw w :
  append_text p w (<[p := File raw]> fs) = <[p := File (raw ++ w)]> fs.
Proof.
  unfold append_text. rewrite lookup_insert_eq, insert_insert_eq. reflexivity.
Qed.

Lemma write_insert (fs : fsys) p raw w :
  utf8_ok w = true ->
  write p w (<[p := File raw]> fs) = Ok (<[p := File (raw ++ w)]> fs).
Proof. intros H. unfold write. rewrite H, append_text_insert. reflexivity. Qed.

(** The loop writes every line when all of them can be encoded, and
    otherwise ends with the error of the first that cannot. *)
Lemma write_lines_insert p ls : forall (fs : fsys) raw,
  write_lines p ls (<[p := File raw]> fs)
  = if forallb utf8_ok ls
    then Ok (<[p := File (raw ++ unlines ls)]> fs)
    else Raise UnicodeEncodeError.
Proof.
  induction ls as [|l ls IH]; intros fs raw; simpl.
  - unfold unlines. simpl. rewrite app_nil_r. reflexivity.
  - unfold write. rewrite utf8_ok_line. destruct (utf8_ok l); [|reflexivity].
    cbn [mbind result_bind andb]. rewrite append_text_insert, IH.
    rewrite unlines_cons, <- !app_assoc. reflexivity.
Qed.

(** Opening for appending gives a file that holds [raw]. *)
Lemma open_append_spec fs p raw :
  file_or_absent fs p raw -> open_append p fs = Ok (<[p := File raw]> fs).
Proof.
  intros [H | (-> & name & parent & -> & H1 & H2)].
  - rewrite (open_append_file _ _ _ H). apply node_at_file in H as [H _].
    rewrite insert_id by exact H. reflexivity.
  - apply open_append_absent; assumption.
Qed.

Lemma append_lines_spec fs p dt ls raw :
  file_or_absent fs p raw ->
  append_lines_under_today p dt ls fs
  = if forallb utf8_ok ls
    then Ok (<[p := File (raw ++ unlines ls)]> fs)
    else Raise UnicodeEncodeError.
Proof.
  intros H. unfold append_lines_under_today.
  rewrite (open_append_spec _ _ _ H). cbn [mbind result_bind].
  apply write_lines_insert.
Qed.

Lemma header_block_nil dt : header_block [] dt = header_line dt ++ [LF; LF].
Proof. reflexivity. Qed.

Lemma read_content_spec fs p raw :
  file_or_absent fs p raw ->
  (if path_exists fs p then read_text p fs else Ok [])
  = if utf8_ok raw then Ok (universal_newlines raw)
    else Raise UnicodeDecodeError.
Proof.
  intros [H | (-> & name & parent & -> & H1 & H2)].
  - unfold path_exists, read_text. rewrite H. reflexivity.
  - unfold path_exists. simpl. rewrite H1. reflexivity.
Qed.

Lemma utf8_ok_header_text dt : utf8_ok (lit "# " ++ strftime_mdY dt ++ [LF; LF]) = true.
Proof. rewrite !utf8_ok_app, utf8_ok_strftime. reflexivity. Qed.

Lemma utf8_ok_header_block content dt : utf8_ok (header_block content dt) = true.
Proof.
  unfold header_block, header_line. rewrite !utf8_ok_app, utf8_ok_strftime.
  destruct (nonempty content && negb (ends_with_LF content));
    destruct (nonempty content); reflexivity.
Qed.

(** A file that is not valid UTF-8 cannot be searched. *)
Lemma ensure_date_header_undecodable fs p dt raw :
  node_at fs p = Some (File raw) -> utf8_ok raw = false ->
  ensure_date_header p dt fs = Raise UnicodeDecodeError.
Proof.
  intros H Hu. unfold ensure_date_header.
  rewrite (read_content_spec _ _ _ (or_introl H)), Hu. reflexivity.
Qed.

(** What [ensure_date_header] does to the file system. *)
Lemma ensure_date_header_spec fs p dt raw :
  file_or_absent fs p raw -> utf8_ok raw = true ->
  ensure_date_header p dt fs =
  Ok (if re_search (header_re (strftime_mdY dt)) (universal_newlines raw)
      then fs
      else <[p := File (raw ++ header_block (universal_newlines raw) dt)]> fs).
Proof.
  intros H Hu. unfold ensure_date_header.
  rewrite (read_content_spec _ _ _ H), Hu. cbn [mbind result_bind].
  destruct (re_search _ _); [reflexivity|].
  rewrite (open_append_spec _ _ _ H). cbn [mbind result_bind].
  pose proof (utf8_ok_header_text dt) as Hh.
  unfold header_block, header_line.
  destruct (nonempty (universal_newlines raw));
    destruct (ends_with_LF (universal_newlines raw)); cbn [andb negb];
    rewrite ?(write_insert _ _ _ [LF] eq_refl); cbn [mbind result_bind];
    rewrite ?(write_insert _ _ _ [LF] eq_refl); cbn [mbind result_bind];
    rewrite (write_insert _ _ _ _ Hh);
    do 3 f_equal; simpl; rewrite <- ?app_assoc; reflexivity.
Qed.

Lemma header_block_nonempty content dt : header_block content dt <> [].
Proof.
  unfold header_block. intros H.
  apply app_eq_nil in H as [_ H]. apply app_eq_nil in H as [_ H].
  apply app_eq_nil in H as [_ H]. discriminate.
Qed.

Lemma app_nonempty_neq {A} (a b : list A) : b <> [] -> a ++ b <> a.
Proof.
  intros Hb H. apply Hb. apply (app_inv_head a). rewrite app_nil_r. exact H.
Qed.

Lemma insert_file_neq (fs : fsys) p raw block :
  file_or_absent fs p raw -> block <> [] ->
  <[p := File (raw ++ block)]> fs <> fs.
Proof.
  intros H Hb E. apply (f_equal (fun m : fsys => m !! p)) in E.
  rewrite lookup_insert_eq in E.
  destruct H as [H | (-> & name & parent & -> & H1 & H2)].
  - apply node_at_file in H as [H _]. rewrite H in E.
    injection E as E. exact (app_nonempty_neq raw block Hb E).
  - rewrite H1 in E. discriminate.
Qed.

(** C7, amended: appending opens the file for appending (creating it when
    it is missing) and, when every line can be encoded as UTF-8, writes
    each line followed by exactly one line feed, in the order given, after
    the content the file had; the earlier content is a prefix of the new
    content, what follows it is exactly the lines written, lines without
    line feeds are read back as the same list, and no other file changes.
    So the rendered lines of a note are in the file exactly as rendered,
    indentation included.  When some line holds a lone surrogate, which
    UTF-8 cannot encode, the call ends with [UnicodeEncodeError]. *)
Theorem C7_append_lines_roundtrip (fs : fsys) (p : path) (dt : datetime)
    (ls : list str) (raw : str) :
  file_or_absent fs p raw ->
  (forallb utf8_ok ls = true ->
   exists fs' : fsys,
     append_lines_under_today p dt ls fs = Ok fs' /\
     raw_at fs' p = raw ++ concat (map (fun l => l ++ [LF]) ls) /\
     take (length raw) (raw_at fs' p) = raw /\
     drop (length raw) (raw_at fs' p) =
       concat (map (fun l => l ++ [LF]) ls) /\
     (Forall (fun l => ~ In LF l) ls ->
      split_lines (drop (length raw) (raw_at fs' p)) = ls) /\
     (forall q, q <> p -> fs' !! q = fs !! q)) /\
  (forallb utf8_ok ls = false ->
   append_lines_under_today p dt ls fs = Raise UnicodeEncodeError).
Proof.
  intros H. rewrite (append_lines_spec _ _ dt ls _ H).
  split; intros Hu; rewrite Hu; [|reflexivity].
  exists (<[p := File (raw ++ unlines ls)]> fs).
  assert (raw_at (<[p := File (raw ++ unlines ls)]> fs) p = raw ++ unlines ls)
    as Hraw.
  { unfold raw_at.
    assert (exists name parent, p = name :: parent) as (name & parent & ->).
    { destruct H as [H | (_ & name & parent & -> & _)]; [|eauto].
      apply node_at_file in H as [_ H]. exact H. }
    simpl. rewrite lookup_insert_eq. reflexivity. }
  rewrite Hraw. fold (unlines ls).
  split; [reflexivity|].
  split; [reflexivity|].
  split; [apply take_app_length|].
  split; [apply drop_app_length|].
  split.
  - intros Hls. rewrite drop_app_length. apply split_lines_unlines, Hls.
  - intros q Hq. apply lookup_insert_ne. congruence.
Qed.

Lemma C7_append_lines_roundtrip_witness :
  file_or_absent (example_fs (lit "# 08/14/2025" ++ [LF; LF])) example_year_file
    (lit "# 08/14/2025" ++ [LF; LF]) /\
  forallb utf8_ok (lines (render_note_lines (lit "fix bug") [lit "DT-1234"]))
    = true /\
  exists fs' : fsys,
    append_lines_under_today example_year_file example_date
      (lines (render_note_lines (lit "fix bug") [lit "DT-1234"]))
      (example_fs (lit "# 08/14/2025" ++ [LF; LF])) = Ok fs' /\
    raw_at fs' example_year_file =
      lit "# 08/14/2025" ++ [LF; LF] ++
      lit "* DT-1234" ++ [LF] ++ lit "    * fix bug" ++ [LF].
Proof.
  assert (file_or_absent (example_fs (lit "# 08/14/2025" ++ [LF; LF]))
            example_year_file (lit "# 08/14/2025" ++ [LF; LF])) as H
    by (left; reflexivity).
  split; [exact H|]. split; [reflexivity|].
  destruct (proj1 (C7_append_lines_roundtrip _ _ example_date
              (lines (render_note_lines (lit "fix bug") [lit "DT-1234"])) _ H)
              eq_refl)
    as (fs' & H1 & H2 & _).
  exists fs'. split; [exact H1 | exact H2].
Defined.

(** C7 as stated fails: of the lines ["ok"] and a lone surrogate U+DC80,
    which is how a byte 0x80 of a command-line argument arrives, the
    second cannot be encoded, and appending them to an empty year file
    ends with [UnicodeEncodeError] instead of writing every line. *)
Lemma C7_unencodable_line_fail : ~ appends_every_line.
Proof.
  intros H.
  assert (file_or_absent (example_fs []) example_year_file []) as Hf
    by (left; reflexivity).
  destruct (H _ _ example_date [lit "ok"; [56448]] _ Hf) as (fs' & E & _).
  rewrite (append_lines_spec _ _ _ _ _ Hf) in E.
  discriminate E.
Qed.

(** C6: when no header for the date is found, [ensure_date_header] appends
    at the end of the file, in this order: a line feed exactly when the
    file is not empty and its text does not end with one, a blank
    separator line exactly when the file is not empty, the header line
    ["# MM/DD/YYYY"] with the date as [strftime] formats it, and one blank
    line; on an empty or missing file the header is written with nothing
    before it.  The file is one that can be read: its content is valid
    UTF-8. *)
Theorem C6_header_block_appended (fs : fsys) (p : path) (dt : datetime)
    (raw : str) :
  file_or_absent fs p raw ->
  utf8_ok raw = true ->
  re_search (header_re (strftime_mdY dt)) (universal_newlines raw) = false ->
  exists nl1 nl2 : str,
    ensure_date_header p dt fs =
      Ok (<[p := File (raw ++ nl1 ++ nl2 ++ header_line dt ++ [LF] ++ [LF])]> fs) /\
    (nl1 = [LF] \/ nl1 = []) /\
    (nl1 = [LF] <->
     raw <> [] /\ ends_with_LF (universal_newlines raw) = false) /\
    (nl2 = [LF] \/ nl2 = []) /\
    (nl2 = [LF] <-> raw <> []) /\
    (raw = [] ->
     ensure_date_header p dt fs =
       Ok (<[p := File (header_line dt ++ [LF] ++ [LF])]> fs)) /\
    (~ In CR raw -> universal_newlines raw = raw).
Proof.
  intros H Hu Hs. rewrite (ensure_date_header_spec _ _ _ _ H Hu), Hs.
  unfold header_block.
  assert (nonempty (universal_newlines raw) = true <-> raw <> []) as Hne.
  { rewrite nonempty_true, universal_newlines_nil. reflexivity. }
  exists (if nonempty (universal_newlines raw) &&
             negb (ends_with_LF (universal_newlines raw))
          then [LF] else []),
         (if nonempty (universal_newlines raw) then [LF] else []).
  split; [reflexivity|].
  split; [destruct (_ && _); auto|].
  split.
  { destruct (nonempty (universal_newlines raw)) eqn:E1;
      destruct (ends_with_LF (universal_newlines raw)) eqn:E2; simpl;
      (split; [intros Hx | intros [Hr He]]); try discriminate;
      try reflexivity; try (apply Hne in Hr; discriminate).
    split; [apply Hne|]; reflexivity. }
  split; [destruct (nonempty _); auto|].
  split.
  { destruct (nonempty (universal_newlines raw)) eqn:E1;
      (split; [intros Hx | intros Hr]); try discriminate; try reflexivity.
    - apply Hne. reflexivity.
    - apply Hne in Hr. discriminate. }
  split.
  - intros ->. reflexivity.
  - apply universal_newlines_plain.
Qed.

Lemma C6_header_block_appended_witness :
  file_or_absent (example_fs (lit "* old")) example_year_file (lit "* old") /\
  utf8_ok (lit "* old") = true /\
  re_search (header_re (strftime_mdY example_date))
    (universal_newlines (lit "* old")) = false /\
  ensure_date_header example_year_file example_date (example_fs (lit "* old"))
  = Ok (example_fs (lit "* old" ++ [LF] ++ [LF] ++ lit "# 08/14/2025" ++ [LF; LF])).
Proof.
  assert (file_or_absent (example_fs (lit "* old")) example_year_file
            (lit "* old")) as H by (left; reflexivity).
  split; [exact H|]. split; [reflexivity|]. split; [reflexivity|].
  destruct (C6_header_block_appended _ _ example_date _ H eq_refl eq_refl)
    as (nl1 & nl2 & H1 & _ & [_ H2] & _ & [_ H3] & _).
  rewrite H1. rewrite H2 by (split; [discriminate | reflexivity]).
  rewrite H3 by discriminate.
  unfold example_fs. rewrite insert_insert_eq. reflexivity.
Defined.

(** C5, amended: [ensure_date_header] searches the text of the file for a
    header of the date ["MM/DD/YYYY"] in a tolerant form: a [#] that
    begins a line, one or more whitespace characters, the date, then only
    whitespace up to the end of a line; it never matches inside a line.
    It leaves the file system as it is exactly when such a header exists,
    so in particular whenever a line is exactly ["# MM/DD/YYYY"];
    otherwise it appends a non-empty block to the file.  The date is
    written as [strftime] formats it, and the file is one that can be
    read: its content is valid UTF-8. *)
Theorem C5_noop_iff_header_found (fs : fsys) (p : path) (dt : datetime)
    (raw : str) :
  file_or_absent fs p raw ->
  utf8_ok raw = true ->
  exists fs' : fsys,
    ensure_date_header p dt fs = Ok fs' /\
    (fs' = fs <-> header_match (strftime_mdY dt) (universal_newlines raw)) /\
    (In (header_line dt) (split_lines (universal_newlines raw)) -> fs' = fs) /\
    (fs' <> fs ->
     exists block, block <> [] /\ fs' = <[p := File (raw ++ block)]> fs).
Proof.
  intros H Hu. rewrite (ensure_date_header_spec _ _ _ _ H Hu).
  pose proof (header_search_spec (strftime_mdY dt) (universal_newlines raw))
    as Hs.
  pose proof (header_block_nonempty (universal_newlines raw) dt) as Hb.
  destruct (re_search _ _) eqn:E.
  - exists fs. split; [reflexivity|]. split; [|split].
    + split; [intros _; apply Hs; reflexivity | reflexivity].
    + reflexivity.
    + congruence.
  - eexists. split; [reflexivity|]. split; [|split].
    + split.
      * intros Heq. exfalso. exact (insert_file_neq _ _ _ _ H Hb Heq).
      * intros Hm. apply Hs in Hm. discriminate.
    + intros Hin. apply header_line_match, Hs in Hin. discriminate.
    + intros _. eauto.
Qed.

Lemma C5_noop_iff_header_found_witness :
  file_or_absent (example_fs (lit "* a" ++ [LF] ++ lit "# 08/14/2025" ++ [LF]))
    example_year_file (lit "* a" ++ [LF] ++ lit "# 08/14/2025" ++ [LF]) /\
  utf8_ok (lit "* a" ++ [LF] ++ lit "# 08/14/2025" ++ [LF]) = true /\
  ensure_date_header example_year_file example_date
    (example_fs (lit "* a" ++ [LF] ++ lit "# 08/14/2025" ++ [LF]))
  = Ok (example_fs (lit "* a" ++ [LF] ++ lit "# 08/14/2025" ++ [LF])).
Proof.
  assert (file_or_absent
            (example_fs (lit "* a" ++ [LF] ++ lit "# 08/14/2025" ++ [LF]))
            example_year_file
            (lit "* a" ++ [LF] ++ lit "# 08/14/2025" ++ [LF])) as H
    by (left; reflexivity).
  split; [exact H|]. split; [reflexivity|].
  destruct (C5_noop_iff_header_found _ _ example_date _ H eq_refl)
    as (fs' & H1 & _ & H2 & _).
  rewrite H1. f_equal. apply H2. right. left. reflexivity.
Defined.

(** C5 as stated fails: the file ["#  08/14/2025\n"], with two spaces
    after the [#], has no line equal to ["# 08/14/2025"], and yet
    [ensure_date_header] appends nothing to it. *)
Lemma C5_exact_line_fail : ~ noop_iff_exact_line.
Proof.
  intros H.
  specialize (H (example_fs (lit "#  08/14/2025" ++ [LF]))
                (example_fs (lit "#  08/14/2025" ++ [LF]))
                example_year_file example_date
                (lit "#  08/14/2025" ++ [LF]) eq_refl).
  destruct H as [H _].
  - rewrite (ensure_date_header_spec _ _ _ (lit "#  08/14/2025" ++ [LF]))
      by (reflexivity || (left; reflexivity)).
    reflexivity.
  - specialize (H eq_refl). vm_compute in H.
    destruct H as [H | []]. discriminate.
Qed.

(** ** Directories *)

Lemma above_refl p : above p p.
Proof. exists []. reflexivity. Qed.

Lemma above_cons q n par : above q par -> above q (n :: par).
Proof. intros [b ->]. exists (n :: b). reflexivity. Qed.

Lemma above_inv q n par : above q (n :: par) -> q = n :: par \/ above q par.
Proof.
  intros [b H]. destruct b as [|x b]; simpl in H.
  - left. congruence.
  - right. injection H as _ ->. exists b. reflexivity.
Qed.

Lemma above_length q p : above q p -> (length q <= length p)%nat.
Proof. intros [b ->]. rewrite length_app. lia. Qed.

Lemma above_nil q : above q [] -> q = [].
Proof. intros [b H]. symmetry in H. apply app_eq_nil in H. tauto. Qed.

Lemma not_above_child n p : ~ above (n :: p) p.
Proof. intros H. apply above_length in H. simpl in H. lia. Qed.

Lemma child_neq (n : str) (p : path) : n :: p <> p.
Proof. intros H. apply (f_equal (@length str)) in H. simpl in H. lia. Qed.

Lemma is_dir_node fs p : is_dir fs p = true <-> node_at fs p = Some Dir.
Proof.
  unfold is_dir. destruct (node_at fs p) as [[|raw]|]; split; congruence.
Qed.

Lemma node_at_insert_ne (fs : fsys) p x q :
  p <> q -> node_at (<[p := x]> fs) q = node_at fs q.
Proof.
  intros H. destruct q as [|n q]; simpl; [reflexivity|].
  apply lookup_insert_ne. exact H.
Qed.

Lemma node_at_insert_eq (fs : fsys) n p x :
  node_at (<[n :: p := x]> fs) (n :: p) = Some x.
Proof. simpl. apply lookup_insert_eq. Qed.

(** In a well-formed file system everything above a directory is a
    directory. *)
Lemma wf_dir_above fs p q :
  wf_fs fs -> is_dir fs p = true -> above q p -> is_dir fs q = true.
Proof.
  intros Hwf Hp [b ->]. induction b as [|x b IH]; simpl in *; [exact Hp|].
  apply IH, is_dir_node. apply (Hwf x (b ++ q)).
  apply is_dir_node in Hp. simpl in Hp. rewrite Hp. eauto.
Qed.

(** A new node in an existing directory keeps the file system
    well-formed. *)
Lemma wf_insert (fs : fsys) n par x :
  wf_fs fs -> node_at fs par = Some Dir -> fs !! (n :: par) = None ->
  wf_fs (<[n :: par := x]> fs).
Proof.
  intros Hwf Hpar Hnone name parent Hs.
  destruct (decide (n :: par = name :: parent)) as [E | E].
  - injection E as _ <-.
    rewrite node_at_insert_ne by apply child_neq. exact Hpar.
  - rewrite lookup_insert_ne in Hs by exact E.
    pose proof (Hwf _ _ Hs) as Hd.
    rewrite node_at_insert_ne; [exact Hd|].
    intros <-. simpl in Hd. congruence.
Qed.

Lemma mkdir_step (fs : fsys) n par :
  wf_fs fs -> fs !! (n :: par) = None -> node_at fs par = Some Dir ->
  dirs_ensured (n :: par) fs (<[n :: par := Dir]> fs).
Proof.
  intros Hwf Hnone Hpar. split; [|split].
  - intros q Hq. apply is_dir_node.
    apply above_inv in Hq as [-> | Hq]; [apply node_at_insert_eq|].
    rewrite node_at_insert_ne.
    + apply is_dir_node. apply (wf_dir_above fs par q Hwf); [|exact Hq].
      apply is_dir_node, Hpar.
    + intros <-. exact (not_above_child _ _ Hq).
  - intros q. destruct (decide (n :: par = q)) as [<- | E].
    + right. rewrite lookup_insert_eq.
      repeat split; [exact Hnone | apply above_refl | discriminate].
    + left. apply lookup_insert_ne. exact E.
  - apply wf_insert; assumption.
Qed.

Lemma mkdir_next (fs fs1 : fsys) n par :
  dirs_ensured par fs fs1 -> fs !! (n :: par) = None ->
  fs1 !! (n :: par) = None /\ node_at fs1 par = Some Dir /\
  dirs_ensured (n :: par) fs (<[n :: par := Dir]> fs1).
Proof.
  intros (H1 & H2 & H3) Hnone.
  assert (fs1 !! (n :: par) = None) as Hnone1.
  { destruct (H2 (n :: par)) as [E | (_ & _ & Ha & _)]; [congruence|].
    exfalso. exact (not_above_child _ _ Ha). }
  assert (node_at fs1 par = Some Dir) as Hpar
    by (apply is_dir_node, H1, above_refl).
  split; [exact Hnone1|]. split; [exact Hpar|].
  destruct (mkdir_step fs1 n par H3 Hnone1 Hpar) as (S1 & S2 & S3).
  split; [exact S1|]. split; [|exact S3].
  intros q. destruct (S2 q) as [E | (E1 & E2 & E3 & E4)].
  - rewrite E. destruct (H2 q) as [E' | (E1 & E2 & E3 & E4)]; [auto|].
    right. repeat split; try assumption. apply above_cons, E3.
  - right. repeat split; try assumption.
    destruct (H2 q) as [E' | (_ & E' & _)]; congruence.
Qed.

Lemma mkdir_parents_cons n par fs :
  mkdir_parents (n :: par) fs =
  match os_mkdir (n :: par) fs with
  | Ok fs' => Ok fs'
  | Raise FileNotFoundError =>
      fs1 ← mkdir_parents par fs;
      match os_mkdir (n :: par) fs1 with
      | Ok fs2 => Ok fs2
      | Raise FileNotFoundError => Raise FileNotFoundError
      | Raise e => if is_dir fs1 (n :: par) then Ok fs1 else Raise e
      end
  | Raise e => if is_dir fs (n :: par) then Ok fs else Raise e
  end.
Proof. reflexivity. Qed.

Lemma no_file_above_parent fs n par :
  no_file_above fs (n :: par) -> no_file_above fs par.
Proof. intros H q raw Hq. apply H, above_cons, Hq. Qed.

(** [mkdir(parents=True, exist_ok=True)] succeeds when no regular file is
    in the way, and makes exactly the missing directories. *)
Lemma mkdir_parents_spec p : forall fs : fsys,
  wf_fs fs -> no_file_above fs p ->
  exists fs1, mkdir_parents p fs = Ok fs1 /\ dirs_ensured p fs fs1.
Proof.
  induction p as [|n par IH]; intros fs Hwf Hnf.
  - exists fs. split; [reflexivity|]. split; [|split; [auto | exact Hwf]].
    intros q Hq. apply above_nil in Hq as ->. reflexivity.
  - rewrite mkdir_parents_cons. unfold os_mkdir.
    destruct (fs !! (n :: par)) as [nd|] eqn:E.
    + assert (nd = Dir) as ->.
      { destruct nd as [|raw]; [reflexivity|]. exfalso.
        apply (Hnf (n :: par) raw (above_refl _)). exact E. }
      assert (is_dir fs (n :: par) = true) as Hd
        by (apply is_dir_node; exact E).
      rewrite Hd. exists fs. split; [reflexivity|].
      split; [|split; [auto | exact Hwf]].
      intros q Hq. exact (wf_dir_above fs _ q Hwf Hd Hq).
    + destruct (node_at fs par) as [[|raw]|] eqn:Ep.
      * exists (<[n :: par := Dir]> fs). split; [reflexivity|].
        apply mkdir_step; assumption.
      * exfalso. apply (Hnf par raw); [|exact Ep].
        apply above_cons, above_refl.
      * destruct (IH fs Hwf (no_file_above_parent _ _ _ Hnf))
          as (fs1 & Hmk & Hens).
        rewrite Hmk. cbn [mbind result_bind].
        destruct (mkdir_next fs fs1 n par Hens E) as (E1 & E2 & E3).
        rewrite E1, E2. eauto.
Qed.

(** Making directories that are there already changes nothing. *)
Lemma dirs_ensured_id (fs fs1 : fsys) p :
  wf_fs fs -> is_dir fs p = true -> dirs_ensured p fs fs1 -> fs1 = fs.
Proof.
  intros Hwf Hd (_ & H2 & _). apply map_eq. intros q.
  destruct (H2 q) as [E | (E1 & _ & E3 & E4)]; [exact E|].
  exfalso. pose proof (wf_dir_above fs p q Hwf Hd E3) as Hq.
  apply is_dir_node in Hq. destruct q as [|x q]; [congruence|].
  simpl in Hq. congruence.
Qed.

Lemma dirs_no_file_above fs p :
  (forall q, above q p -> is_dir fs q = true) -> no_file_above fs p.
Proof.
  intros H q raw Hq E. apply H, is_dir_node in Hq. congruence.
Qed.

(** ** The year file *)

Lemma str_of_N_pad4_check :
  forallb (fun k => bool_decide (str_of_N (N.of_nat k) = pad4 (N.of_nat k)))
    (seq (N.to_nat 1000) (N.to_nat 9000)) = true.
Proof. vm_compute. reflexivity. Qed.

(** A year of four digits is written with its four digits, as in the
    header. *)
Lemma str_of_N_four_digits y :
  1000 <= y <= 9999 -> str_of_N y = pad4 y.
Proof.
  intros Hy. pose proof str_of_N_pad4_check as H.
  rewrite List.forallb_forall in H. specialize (H (N.to_nat y)).
  rewrite N2Nat.id in H. apply bool_decide_eq_true in H; [exact H|].
  apply in_seq. lia.
Qed.

Lemma year_path_not_above nd dt : ~ above (year_path nd dt) nd.
Proof. apply not_above_child. Qed.

Lemma ensure_year_file_spec (nd : path) (dt : datetime) (fs : fsys) :
  wf_fs fs -> no_file_above fs nd ->
  exists fs1,
    dirs_ensured nd fs fs1 /\
    fs1 !! year_path nd dt = fs !! year_path nd dt /\
    ensure_year_file nd dt fs =
      Ok (year_path nd dt,
          match fs1 !! year_path nd dt with
          | Some _ => fs1
          | None => <[year_path nd dt := File []]> fs1
          end).
Proof.
  intros Hwf Hnf.
  destruct (mkdir_parents_spec nd fs Hwf Hnf) as (fs1 & Hmk & Hens).
  exists fs1. split; [exact Hens|].
  assert (fs1 !! year_path nd dt = fs !! year_path nd dt) as E0.
  { destruct Hens as (_ & H2 & _).
    destruct (H2 (year_path nd dt)) as [E | (_ & _ & Ha & _)]; [exact E|].
    exfalso. exact (year_path_not_above _ _ Ha). }
  split; [exact E0|].
  unfold ensure_year_file. rewrite Hmk. cbn [mbind result_bind].
  fold (year_path nd dt). unfold path_exists, touch.
  change (node_at fs1 (year_path nd dt)) with (fs1 !! year_path nd dt).
  unfold year_path at 3.
  fold (year_path nd dt).
  destruct (fs1 !! year_path nd dt) as [x|] eqn:E; cbn [negb].
  - reflexivity.
  - destruct Hens as (H1 & _ & _).
    pose proof (H1 nd (above_refl nd)) as Hd. apply is_dir_node in Hd.
    rewrite Hd. reflexivity.
Qed.

(** When the directory and the file are there, nothing changes. *)
Lemma ensure_year_file_fixed (nd : path) (dt : datetime) (fs : fsys) :
  wf_fs fs -> is_dir fs nd = true -> is_Some (fs !! year_path nd dt) ->
  ensure_year_file nd dt fs = Ok (year_path nd dt, fs).
Proof.
  intros Hwf Hd [x Hx].
  assert (no_file_above fs nd) as Hnf.
  { apply dirs_no_file_above. intros q Hq.
    exact (wf_dir_above fs nd q Hwf Hd Hq). }
  destruct (ensure_year_file_spec nd dt fs Hwf Hnf) as (fs1 & Hens & E0 & ->).
  rewrite (dirs_ensured_id fs fs1 nd Hwf Hd Hens), Hx. reflexivity.
Qed.

(** C8, amended: for every notes directory in a well-formed file system
    where no regular file is in the way, and every date,
    [ensure_year_file] returns the path [notes_dir/<year>.md], the year
    written in decimal without padding (four digits for the years 1000 to
    9999); afterwards the notes directory and all its ancestors are
    directories, nothing that existed before has changed, the year file
    is a new empty file when it was missing, and the only new nodes are
    the year file and missing directories; a second call changes
    nothing. *)
Theorem C8_ensure_year_file (notes_dir : path) (dt : datetime) (fs : fsys) :
  wf_fs fs -> no_file_above fs notes_dir ->
  exists fs' : fsys,
    ensure_year_file notes_dir dt fs =
      Ok ((str_of_N (year dt) ++ lit ".md") :: notes_dir, fs') /\
    (1000 <= year dt <= 9999 ->
     str_of_N (year dt) = pad4 (year dt) /\
     length (str_of_N (year dt)) = 4%nat) /\
    (forall q, above q notes_dir -> is_dir fs' q = true) /\
    (forall q : path, is_Some (fs !! q) -> fs' !! q = fs !! q) /\
    (fs !! year_path notes_dir dt = None ->
     fs' !! year_path notes_dir dt = Some (File [])) /\
    (forall q : path, fs !! q = None -> is_Some (fs' !! q) ->
       q = year_path notes_dir dt \/ above q notes_dir) /\
    (is_dir fs notes_dir = true -> is_Some (fs !! year_path notes_dir dt) ->
     fs' = fs) /\
    ensure_year_file notes_dir dt fs' = Ok (year_path notes_dir dt, fs') /\
    wf_fs fs'.
Proof.
  intros Hwf Hnf.
  destruct (ensure_year_file_spec notes_dir dt fs Hwf Hnf)
    as (fs1 & Hens & E0 & ->).
  fold (year_path notes_dir dt). set (yp := year_path notes_dir dt) in *.
  pose proof Hens as (H1 & H2 & H3).
  assert (forall q : path, is_Some (fs !! q) -> fs1 !! q = fs !! q) as Hkeep.
  { intros q [x Hx]. destruct (H2 q) as [E | (E & _)]; congruence. }
  assert (forall q : path, fs !! q = None -> is_Some (fs1 !! q) ->
            above q notes_dir) as Hnew.
  { intros q Hq [x Hx]. destruct (H2 q) as [E | (_ & _ & E & _)];
      [congruence | exact E]. }
  assert (1000 <= year dt <= 9999 ->
          str_of_N (year dt) = pad4 (year dt) /\
          length (str_of_N (year dt)) = 4%nat) as Hyear.
  { intros Hy. rewrite (str_of_N_four_digits _ Hy). auto. }
  destruct (fs1 !! yp) as [x|] eqn:E.
  - exists fs1. split; [reflexivity|]. split; [exact Hyear|].
    split; [exact H1|]. split; [exact Hkeep|].
    split; [intros Hn; congruence|].
    split; [intros q Hq Hs; right; exact (Hnew q Hq Hs)|].
    split.
    { intros Hd _. exact (dirs_ensured_id fs fs1 notes_dir Hwf Hd Hens). }
    split; [|exact H3].
    apply ensure_year_file_fixed;
      [exact H3 | apply H1, above_refl | exists x; exact E].
  - assert (node_at fs1 notes_dir = Some Dir) as Hnd
      by (apply is_dir_node, H1, above_refl).
    assert (wf_fs (<[yp := File []]> fs1)) as Hwf'
      by (apply wf_insert; assumption).
    assert (forall q, above q notes_dir ->
              is_dir (<[yp := File []]> fs1) q = true) as Hdirs.
    { intros q Hq. apply is_dir_node. rewrite node_at_insert_ne.
      - apply is_dir_node, H1, Hq.
      - intros <-. exact (year_path_not_above _ _ Hq). }
    exists (<[yp := File []]> fs1).
    split; [reflexivity|]. split; [exact Hyear|].
    split; [exact Hdirs|].
    split.
    { intros q Hs. rewrite lookup_insert_ne; [exact (Hkeep q Hs)|].
      intros <-. destruct Hs as [x Hx]. congruence. }
    split; [intros _; apply lookup_insert_eq|].
    split.
    { intros q Hq Hs. destruct (decide (yp = q)) as [<- | Hne]; [auto|].
      right. rewrite lookup_insert_ne in Hs by exact Hne.
      exact (Hnew q Hq Hs). }
    split.
    { intros _ [x Hx]. congruence. }
    split; [|exact Hwf'].
    apply ensure_year_file_fixed;
      [exact Hwf' | apply Hdirs, above_refl |].
    exists (File []). apply lookup_insert_eq.
Qed.

Lemma wf_fs_empty : wf_fs ∅.
Proof. intros name parent [x Hx]. rewrite lookup_empty in Hx. discriminate. Qed.

Lemma no_file_above_empty nd : no_file_above ∅ nd.
Proof.
  intros [|n q] raw _; simpl; [discriminate|].
  rewrite lookup_empty. discriminate.
Qed.

Lemma C8_ensure_year_file_witness :
  wf_fs ∅ /\ no_file_above ∅ example_notes_dir /\
  exists fs' : fsys,
    ensure_year_file example_notes_dir example_date ∅ =
      Ok (example_year_file, fs') /\
    fs' !! example_year_file = Some (File []).
Proof.
  split; [apply wf_fs_empty|]. split; [apply no_file_above_empty|].
  destruct (C8_ensure_year_file example_notes_dir example_date ∅
              wf_fs_empty (no_file_above_empty _))
    as (fs' & H1 & _ & _ & _ & H2 & _).
  exists fs'. split; [exact H1|]. apply H2. reflexivity.
Defined.

(** C8 as stated fails: for the valid date 01/01/0999 the year file is
    ["999.md"], with three digits. *)
Lemma C8_four_digit_year_fail : ~ year_file_has_four_digits.
Proof.
  intros H.
  destruct (ensure_year_file_spec example_notes_dir
              {| year := 999; month := 1; day := 1 |} ∅
              wf_fs_empty (no_file_above_empty _)) as (fs1 & _ & _ & E).
  apply H in E as (y & Hy & Hlen & _).
  - injection Hy as Hy. apply (f_equal (@length N)) in Hy.
    rewrite length_app, Hlen in Hy. vm_compute in Hy. discriminate.
  - unfold valid_datetime. simpl. lia.
Qed.

(** ** Journals *)

Lemma header_line_chars dt : Forall (fun c => 32 <= c) (header_line dt).
Proof.
  unfold header_line. apply Forall_app. split.
  - repeat constructor; simpl; lia.
  - eapply Forall_impl; [apply strftime_mdY_chars|].
    simpl. intros c Hc. lia.
Qed.

Lemma header_line_no_LF dt : ~ In LF (header_line dt).
Proof.
  intros H. pose proof (header_line_chars dt) as Hc.
  rewrite List.Forall_forall in Hc. apply Hc in H. unfold LF in H. lia.
Qed.

Lemma header_line_no_CR dt : ~ In CR (header_line dt).
Proof.
  intros H. pose proof (header_line_chars dt) as Hc.
  rewrite List.Forall_forall in Hc. apply Hc in H. unfold CR in H. lia.
Qed.

Lemma split_lines_LF rest : split_lines (LF :: rest) = [] :: split_lines rest.
Proof. reflexivity. Qed.

(** The lines of the header block: blank lines, the header line, a blank
    line. *)
Lemma split_lines_header_block content dt :
  exists blanks,
    split_lines (header_block content dt) = blanks ++ [header_line dt; []] /\
    Forall (fun l => l = []) blanks.
Proof.
  assert (split_lines (header_line dt ++ [LF; LF]) = [header_line dt; []])
    as E by (apply (split_lines_line _ [LF]), header_line_no_LF).
  unfold header_block.
  destruct (nonempty content && negb (ends_with_LF content));
    destruct (nonempty content); cbn [app]; rewrite ?split_lines_LF, E.
  - exists [[]; []]. auto.
  - exists [[]]. auto.
  - exists [[]]. auto.
  - exists []. auto.
Qed.

Lemma count_occ_blanks blanks l :
  Forall (fun b : str => b = []) blanks -> l <> [] ->
  count_occ str_eq_dec blanks l = 0%nat.
Proof.
  intros Hb Hl. apply count_occ_not_In. intros Hin.
  rewrite List.Forall_forall in Hb. apply Hb in Hin. congruence.
Qed.

(** The header block holds its header line once, and no other line that
    begins with [#]. *)
Lemma count_occ_header_block content dt l :
  hd_error l = Some HASH ->
  count_occ str_eq_dec (split_lines (header_block content dt)) l =
  if str_eq_dec (header_line dt) l then 1%nat else 0%nat.
Proof.
  intros Hl. assert (l <> []) as Hne by (intros ->; discriminate).
  destruct (split_lines_header_block content dt) as (blanks & -> & Hb).
  rewrite count_occ_app, (count_occ_blanks _ _ Hb Hne).
  destruct (str_eq_dec (header_line dt) l) as [E | E].
  - rewrite (count_occ_cons_eq str_eq_dec _ E).
    rewrite count_occ_cons_neq by congruence. reflexivity.
  - rewrite (count_occ_cons_neq str_eq_dec _ E).
    rewrite count_occ_cons_neq by congruence. reflexivity.
Qed.

Lemma closed_app a b : closed a -> closed b -> closed (a ++ b).
Proof.
  intros Ha [-> | (b' & ->)].
  - rewrite app_nil_r. exact Ha.
  - right. exists (a ++ b'). rewrite app_assoc. reflexivity.
Qed.

Lemma closed_nil : closed [].
Proof. left. reflexivity. Qed.

Lemma closed_unlines ls : closed (unlines ls).
Proof. apply unlines_end. Qed.

Lemma closed_header_block content dt : closed (header_block content dt).
Proof.
  right. unfold header_block.
  exists ((if nonempty content && negb (ends_with_LF content)
           then [LF] else []) ++
          (if nonempty content then [LF] else []) ++ header_line dt ++ [LF]).
  rewrite <- !app_assoc. reflexivity.
Qed.

Lemma closed_journal_after raw dt m tags :
  closed raw -> closed (journal_after raw dt m tags).
Proof.
  intros H. unfold journal_after.
  apply closed_app; [exact H|]. apply closed_app; [|apply closed_unlines].
  destruct (re_search _ _); [apply closed_nil | apply closed_header_block].
Qed.

Lemma split_lines_app a b :
  closed a -> split_lines (a ++ b) = split_lines a ++ split_lines b.
Proof.
  intros [-> | (a' & ->)]; [reflexivity | apply split_lines_app_closed].
Qed.

Lemma closed_ends_with_LF s : closed s -> s <> [] -> ends_with_LF s = true.
Proof.
  intros [-> | (a & ->)] Hne; [congruence|].
  rewrite ends_with_LF_snoc. reflexivity.
Qed.

(** Appending to a closed text keeps its lines, so the header lines it
    has stay. *)
Lemma header_count_app dt raw ext :
  closed raw -> (header_count dt raw <= header_count dt (raw ++ ext))%nat.
Proof.
  intros H. unfold header_count.
  rewrite (split_lines_app _ _ H), count_occ_app. lia.
Qed.

(** ** What a successful [cmd_add] has done *)

Lemma mkdir_parents_ok p : forall (fs fs1 : fsys),
  mkdir_parents p fs = Ok fs1 ->
  is_dir fs1 p = true /\ forall q : path, ~ above q p -> fs1 !! q = fs !! q.
Proof.
  induction p as [|n par IH]; intros fs fs1 H.
  - injection H as <-. auto.
  - rewrite mkdir_parents_cons in H. unfold os_mkdir in H.
    destruct (fs !! (n :: par)) as [x|] eqn:E.
    + destruct (is_dir fs (n :: par)) eqn:Hd; [|discriminate].
      injection H as <-. auto.
    + assert (is_dir fs (n :: par) = false) as Hnd
        by (unfold is_dir; simpl; rewrite E; reflexivity).
      destruct (node_at fs par) as [[|raw]|] eqn:Ep.
      * injection H as <-. split.
        -- apply is_dir_node, node_at_insert_eq.
        -- intros q Hq. apply lookup_insert_ne. intros <-.
           apply Hq, above_refl.
      * rewrite Hnd in H. discriminate.
      * destruct (mkdir_parents par fs) as [fs0|] eqn:Hmk;
          cbn [mbind result_bind] in H; [|discriminate].
        apply IH in Hmk as [Hd Hsame].
        rewrite (Hsame (n :: par) (not_above_child n par)), E in H.
        apply is_dir_node in Hd. rewrite Hd in H. injection H as <-.
        split.
        -- apply is_dir_node, node_at_insert_eq.
        -- intros q Hq. rewrite lookup_insert_ne.
           ++ apply Hsame. intros Ha. apply Hq, above_cons, Ha.
           ++ intros <-. apply Hq, above_refl.
Qed.

Lemma touch_absent (fs : fsys) n par :
  fs !! (n :: par) = None -> node_at fs par = Some Dir ->
  touch (n :: par) fs = Ok (<[n :: par := File []]> fs).
Proof. intros H1 H2. unfold touch. rewrite H1, H2. reflexivity. Qed.

Lemma ensure_year_file_ok (nd : path) (dt : datetime) (fs fs1 : fsys)
    (p : path) :
  ensure_year_file nd dt fs = Ok (p, fs1) ->
  p = year_path nd dt /\ is_Some (fs1 !! p) /\
  (fs1 !! p = fs !! p \/ (fs !! p = None /\ fs1 !! p = Some (File []))) /\
  forall name, name :: nd <> p -> fs1 !! (name :: nd) = fs !! (name :: nd).
Proof.
  unfold ensure_year_file.
  destruct (mkdir_parents nd fs) as [fs0|] eqn:Hmk;
    cbn [mbind result_bind]; [|discriminate].
  apply mkdir_parents_ok in Hmk as [Hd Hsame].
  fold (year_path nd dt). unfold path_exists.
  change (node_at fs0 (year_path nd dt)) with (fs0 !! year_path nd dt).
  pose proof (Hsame _ (year_path_not_above nd dt)) as E0.
  assert (forall name : str, fs0 !! (name :: nd) = fs !! (name :: nd)) as Hn
    by (intros name; apply Hsame, not_above_child).
  destruct (fs0 !! year_path nd dt) as [x|] eqn:E; cbn [negb].
  - intros H. injection H as <- <-. rewrite E. repeat split; eauto.
  - apply is_dir_node in Hd.
    assert (touch (year_path nd dt) fs0
            = Ok (<[year_path nd dt := File []]> fs0)) as Ht
      by (apply touch_absent; assumption).
    rewrite Ht. cbn [mbind result_bind].
    intros H. injection H as <- <-. rewrite lookup_insert_eq.
    repeat split; eauto.
    intros name Hne. rewrite lookup_insert_ne by congruence. apply Hn.
Qed.

Lemma ensure_date_header_ok (p : path) (dt : datetime) (fs fs2 : fsys) :
  ensure_date_header p dt fs = Ok fs2 ->
  exists raw, file_or_absent fs p raw /\ utf8_ok raw = true.
Proof.
  unfold ensure_date_header, path_exists, read_text.
  destruct p as [|n par]; [discriminate|]. simpl node_at.
  destruct (fs !! (n :: par)) as [[|raw]|] eqn:E.
  - discriminate.
  - destruct (utf8_ok raw) eqn:Hu; [|discriminate].
    intros _. exists raw. split; [left; exact E | exact Hu].
  - cbn [mbind result_bind]. rewrite header_search_nil. unfold open_append.
    rewrite E. destruct (node_at fs par) as [[|raw]|] eqn:Ep;
      try discriminate.
    intros _. exists []. split; [|reflexivity].
    right. split; [reflexivity|]. exists n, par. auto.
Qed.

(** Appending succeeds only when every line can be encoded. *)
Lemma append_lines_ok (p : path) (dt : datetime) (ls : list str)
    (fs fs1 : fsys) raw :
  file_or_absent fs p raw ->
  append_lines_under_today p dt ls fs = Ok fs1 ->
  forallb utf8_ok ls = true /\ fs1 = <[p := File (raw ++ unlines ls)]> fs.
Proof.
  intros Hf H. rewrite (append_lines_spec _ _ _ _ _ Hf) in H.
  destruct (forallb utf8_ok ls); [|discriminate].
  injection H as <-. auto.
Qed.

(** A successful [cmd_add] rewrites the year file of its date from [raw]
    to [journal_after raw], and leaves the other entries of the notes
    directory as they are. *)
Lemma cmd_add_journal (nd : path) (dt : datetime) (m : str)
    (tags : list str) (fs fs' : fsys) :
  cmd_add nd dt m tags fs = Ok fs' ->
  exists raw,
    (fs !! year_path nd dt = Some (File raw) \/
     (fs !! year_path nd dt = None /\ raw = [])) /\
    fs' !! year_path nd dt = Some (File (journal_after raw dt m tags)) /\
    forall name, name :: nd <> year_path nd dt ->
      fs' !! (name :: nd) = fs !! (name :: nd).
Proof.
  unfold cmd_add.
  destruct (ensure_year_file nd dt fs) as [[p fs1]|] eqn:H1;
    cbn [mbind result_bind]; [|discriminate].
  apply ensure_year_file_ok in H1 as (-> & Hs & Hyp & Hoth).
  destruct (ensure_date_header (year_path nd dt) dt fs1) as [fs2|] eqn:H2;
    cbn [mbind result_bind]; [|discriminate].
  destruct (ensure_date_header_ok _ _ _ _ H2) as (raw & Hf & Hu).
  assert (fs1 !! year_path nd dt = Some (File raw)) as Hraw.
  { destruct Hf as [Hf | (_ & n & par & _ & Hn & _)].
    - apply node_at_file in Hf. tauto.
    - destruct Hs as [x Hx]. congruence. }
  rewrite (ensure_date_header_spec _ _ _ _ Hf Hu) in H2. injection H2 as <-.
  set (hdr := if re_search (header_re (strftime_mdY dt))
                   (universal_newlines raw)
              then [] else header_block (universal_newlines raw) dt).
  set (fs2 := if re_search (header_re (strftime_mdY dt))
                   (universal_newlines raw)
              then fs1
              else <[year_path nd dt :=
                       File (raw ++ header_block (universal_newlines raw) dt)]>
                     fs1).
  assert (fs2 !! year_path nd dt = Some (File (raw ++ hdr))) as Hraw2.
  { unfold fs2, hdr. destruct (re_search _ _).
    - rewrite app_nil_r. exact Hraw.
    - apply lookup_insert_eq. }
  assert (forall name, name :: nd <> year_path nd dt ->
            fs2 !! (name :: nd) = fs !! (name :: nd)) as Hoth2.
  { intros name Hne. unfold fs2. destruct (re_search _ _).
    - apply Hoth, Hne.
    - rewrite lookup_insert_ne by congruence. apply Hoth, Hne. }
  intros H.
  apply (append_lines_ok _ _ _ _ _ (raw ++ hdr)) in H as [_ ->];
    [|left; exact Hraw2].
  exists raw. split; [|split].
  - destruct Hyp as [E | (E1 & E2)].
    + left. congruence.
    + right. split; [exact E1 | congruence].
  - rewrite lookup_insert_eq. unfold journal_after. fold hdr.
    rewrite <- app_assoc. reflexivity.
  - intros name Hne. rewrite lookup_insert_ne by congruence.
    apply Hoth2, Hne.
Qed.

(** ** Notes without line breaks *)

Lemma in_lstrip c s : In c (lstrip s) -> In c s.
Proof.
  induction s as [|x s IH]; simpl; [auto|].
  destruct (isspace x); [right; auto | auto].
Qed.

Lemma in_rstrip c s : In c (rstrip s) -> In c s.
Proof.
  unfold rstrip. intros H. apply in_rev in H. apply in_lstrip in H.
  apply in_rev. exact H.
Qed.

Lemma in_strip c s : In c (strip s) -> In c s.
Proof. unfold strip. intros H. apply in_lstrip, in_rstrip, H. Qed.

Lemma plain_strip s : plain s -> plain (strip s).
Proof. intros [H1 H2]. split; intros H; [apply H1 | apply H2]; apply in_strip, H. Qed.

Lemma plain_rstrip s : plain s -> plain (rstrip s).
Proof. intros [H1 H2]. split; intros H; [apply H1 | apply H2]; apply in_rstrip, H. Qed.

Lemma plain_app a b : plain a -> plain b -> plain (a ++ b).
Proof.
  intros [H1 H2] [H3 H4]. split; intros H; apply in_app_or in H; tauto.
Qed.

Lemma plain_lit_bullet : plain (lit "* ").
Proof. split; intros [H | [H | []]]; discriminate. Qed.

Lemma plain_lit_colon : plain (lit ": ").
Proof. split; intros [H | [H | []]]; discriminate. Qed.

Lemma plain_lit_sub_bullet : plain (lit "    * ").
Proof.
  split; intros H; repeat (destruct H as [H | H]; [discriminate|]);
    exact H.
Qed.

Lemma clean_tags_plain tags : Forall plain tags -> Forall plain (clean_tags tags).
Proof.
  intros H. apply List.Forall_forall. intros t Hin.
  unfold clean_tags in Hin. apply in_map_iff in Hin as (t0 & <- & Hin).
  apply filter_In in Hin as [Hin _].
  rewrite List.Forall_forall in H. apply plain_strip, H, Hin.
Qed.

Lemma bullet_line_shape m :
  rstrip (lit "* " ++ m) = STAR :: rstrip (SP :: m).
Proof. apply rstrip_cons_nonspace. reflexivity. Qed.

(** The rendered lines of a note without line breaks have no line breaks
    and do not begin with [#]. *)
Lemma render_lines_plain m tags :
  plain m -> Forall plain tags ->
  Forall (fun l => plain l /\ hd_error l <> Some HASH)
    (lines (render_note_lines m tags)).
Proof.
  intros Hm Htags. apply clean_tags_plain in Htags.
  destruct (clean_tags tags) as [|t0 ts] eqn:E.
  - rewrite (render_lines_untagged m tags E).
    constructor; [|constructor]. split.
    + apply plain_rstrip, plain_app; [apply plain_lit_bullet | exact Hm].
    + rewrite bullet_line_shape. discriminate.
  - assert (clean_tags tags <> []) as Hne by congruence.
    rewrite (render_lines_tagged m tags Hne), E.
    rewrite List.Forall_forall in Htags.
    apply List.Forall_forall. intros l Hin.
    apply in_app_or in Hin as [Hin | Hin].
    + apply in_map_iff in Hin as (t & <- & Hin).
      assert (plain t) as Ht.
      { apply Htags. apply (Permutation_in _ (sorted_perm _)) in Hin.
        apply filter_In in Hin. tauto. }
      split.
      * unfold person_line. apply plain_rstrip.
        repeat apply plain_app; auto using plain_lit_bullet, plain_lit_colon.
      * rewrite person_line_shape. discriminate.
    + apply in_flat_map in Hin as (t & Hin & [<- | [<- | []]]).
      * assert (plain t) as Ht.
        { apply Htags. apply (Permutation_in _ (sorted_perm _)) in Hin.
          apply filter_In in Hin. tauto. }
        split; [apply plain_app; auto using plain_lit_bullet | discriminate].
      * split.
        -- apply plain_rstrip, plain_app;
             [apply plain_lit_sub_bullet | exact Hm].
        -- rewrite sub_bullet_shape. discriminate.
Qed.

Lemma in_unlines c ls :
  In c (unlines ls) -> c = LF \/ exists l, In l ls /\ In c l.
Proof.
  induction ls as [|l ls IH]; [intros []|].
  rewrite unlines_cons. intros H. apply in_app_or in H as [H | [H | H]].
  - right. exists l. split; [left; reflexivity | exact H].
  - left. congruence.
  - destruct (IH H) as [-> | (l' & H1 & H2)]; [auto|].
    right. exists l'. split; [right; exact H1 | exact H2].
Qed.

Lemma header_block_no_CR content dt : ~ In CR (header_block content dt).
Proof.
  unfold header_block. intros H.
  apply in_app_or in H as [H | H].
  { destruct (_ && _); [destruct H as [H | []]; discriminate | exact H]. }
  apply in_app_or in H as [H | H].
  { destruct (nonempty content);
      [destruct H as [H | []]; discriminate | exact H]. }
  apply in_app_or in H as [H | H].
  { exact (header_line_no_CR dt H). }
  destruct H as [H | [H | []]]; discriminate.
Qed.

Lemma tidy_nil : tidy [].
Proof.
  split; [intros []|]. split; [apply closed_nil|].
  intros l _. simpl. lia.
Qed.

(** Adding a note without line breaks keeps the journal tidy. *)
Lemma tidy_step raw dt m tags :
  plain_note m tags -> tidy raw -> tidy (journal_after raw dt m tags).
Proof.
  intros [Hm Htags] (Hcr & Hcl & Huniq).
  pose proof (render_lines_plain (strip m) tags (plain_strip m Hm) Htags)
    as Hls.
  rewrite List.Forall_forall in Hls.
  split; [|split].
  - unfold journal_after. intros H.
    apply in_app_or in H as [H | H]; [exact (Hcr H)|].
    apply in_app_or in H as [H | H].
    + destruct (re_search _ _); [exact H|].
      exact (header_block_no_CR _ _ H).
    + apply in_unlines in H as [H | (l & Hl & H)]; [discriminate|].
      apply Hls in Hl as [[_ Hl] _]. exact (Hl H).
  - apply closed_journal_after, Hcl.
  - intros l Hl. unfold journal_after.
    rewrite (universal_newlines_plain raw Hcr).
    set (ls := lines (render_note_lines (strip m) tags)) in *.
    assert (count_occ str_eq_dec (split_lines (unlines ls)) l = 0%nat) as E0.
    { rewrite split_lines_unlines.
      - apply count_occ_not_In. intros Hin. apply Hls in Hin as [_ Hin].
        congruence.
      - apply List.Forall_forall. intros l' Hin.
        apply Hls in Hin as [[Hin _] _]. exact Hin. }
    rewrite (split_lines_app _ _ Hcl), count_occ_app.
    destruct (re_search (header_re (strftime_mdY dt)) raw) eqn:Es.
    + simpl app. rewrite E0. specialize (Huniq l Hl). lia.
    + rewrite (split_lines_app _ _ (closed_header_block raw dt)),
        count_occ_app, E0, (count_occ_header_block raw dt l Hl).
      destruct (str_eq_dec (header_line dt) l) as [<- | Hne].
      * assert (count_occ str_eq_dec (split_lines raw) (header_line dt)
                = 0%nat) as ->; [|lia].
        apply count_occ_not_In. intros Hin.
        apply header_line_match, header_search_spec in Hin. congruence.
      * specialize (Huniq l Hl). lia.
Qed.

(** ** Reachable journals *)

(** A property of journals that holds of the empty journal and is kept by
    adding a note holds of every journal file that is reached. *)
Lemma reachable_journals (ok : str -> list str -> Prop) (P : str -> Prop) :
  P [] ->
  (forall raw dt m tags, ok m tags -> P raw -> P (journal_after raw dt m tags)) ->
  forall (nd : path) (fs : fsys), reachable ok nd fs ->
  forall (name : str) (x : node), fs !! (name :: nd) = Some x ->
  exists raw, x = File raw /\ P raw.
Proof.
  intros Hnil Hstep nd fs Hr.
  induction Hr as [fs0 Hfresh | fs fs' dt m tags Hr IH Hok Hadd];
    intros name x Hx.
  - rewrite Hfresh in Hx. discriminate.
  - destruct (cmd_add_journal _ _ _ _ _ _ Hadd) as (raw & Hraw & Hyp & Hoth).
    destruct (decide (name :: nd = year_path nd dt)) as [E | E].
    + rewrite E, Hyp in Hx. injection Hx as <-.
      exists (journal_after raw dt m tags). split; [reflexivity|].
      apply Hstep; [exact Hok|].
      destruct Hraw as [Hraw | [_ ->]]; [|exact Hnil].
      destruct (IH _ _ Hraw) as (raw' & Heq & HP). congruence.
    + rewrite (Hoth name E) in Hx. exact (IH name x Hx).
Qed.

Lemma reachable_closed nd fs name raw :
  reachable any_note nd fs -> fs !! (name :: nd) = Some (File raw) ->
  closed raw.
Proof.
  intros Hr Hx.
  destruct (reachable_journals any_note closed closed_nil
              (fun raw dt m tags _ => closed_journal_after raw dt m tags)
              nd fs Hr name _ Hx) as (raw' & Heq & H).
  congruence.
Qed.

Lemma reachable_tidy nd fs name raw :
  reachable plain_note nd fs -> fs !! (name :: nd) = Some (File raw) ->
  tidy raw.
Proof.
  intros Hr Hx.
  destruct (reachable_journals plain_note tidy tidy_nil
              (fun raw dt m tags Hok => tidy_step raw dt m tags Hok)
              nd fs Hr name _ Hx) as (raw' & Heq & H).
  congruence.
Qed.

(** No operation removes a header line: a note only adds lines after the
    lines a journal file has. *)
Lemma cmd_add_keeps_headers nd fs fs' dt m tags name raw :
  reachable any_note nd fs ->
  cmd_add nd dt m tags fs = Ok fs' ->
  fs !! (name :: nd) = Some (File raw) ->
  exists ext,
    fs' !! (name :: nd) = Some (File (raw ++ ext)) /\
    forall dt', (header_count dt' raw <= header_count dt' (raw ++ ext))%nat.
Proof.
  intros Hr Hadd Hx. pose proof (reachable_closed _ _ _ _ Hr Hx) as Hcl.
  destruct (cmd_add_journal _ _ _ _ _ _ Hadd) as (raw0 & Hraw & Hyp & Hoth).
  destruct (decide (name :: nd = year_path nd dt)) as [E | E].
  - rewrite E in *. assert (raw0 = raw) as ->.
    { destruct Hraw as [Hraw | [Hraw _]]; congruence. }
    eexists. split; [exact Hyp|].
    intros dt'. apply header_count_app, Hcl.
  - exists []. rewrite app_nil_r. split; [|auto].
    rewrite (Hoth name E). exact Hx.
Qed.

Lemma raw_at_file_or_absent fs p raw :
  file_or_absent fs p raw -> raw_at fs p = raw.
Proof.
  unfold raw_at. intros [H | (-> & n & par & -> & H & _)].
  - rewrite H. reflexivity.
  - simpl. rewrite H. reflexivity.
Qed.

(** Right after the header block has been written, the header is found. *)
Lemma header_found_after_block raw dt :
  header_match (strftime_mdY dt)
    (universal_newlines (raw ++ header_block (universal_newlines raw) dt)).
Proof.
  set (c := universal_newlines raw).
  assert (exists pre,
            universal_newlines (raw ++ header_block c dt)
            = pre ++ header_line dt ++ [LF; LF] /\
            (pre = [] \/ exists pre', pre = pre' ++ [LF]))
    as (pre & E & Hpre).
  { set (nl1 := if nonempty c && negb (ends_with_LF c) then [LF] else []).
    set (nl2 := if nonempty c then [LF] else []).
    assert (raw ++ header_block c dt
            = (raw ++ nl1 ++ nl2) ++ header_line dt ++ [LF; LF]) as ->
      by (unfold header_block; rewrite <- !app_assoc; reflexivity).
    rewrite universal_newlines_app_plain.
    - eexists. split; [reflexivity|].
      destruct raw as [|x raw']; [left; reflexivity|].
      right. assert (nonempty c = true) as Hc.
      { apply nonempty_true. unfold c. rewrite universal_newlines_nil.
        discriminate. }
      unfold nl2. rewrite Hc, !app_assoc. apply universal_newlines_closed.
    - intros H. apply in_app_or in H as [H | [H | [H | []]]];
        [exact (header_line_no_CR dt H) | discriminate | discriminate].
    - discriminate. }
  rewrite E. exists pre, [SP], [], [LF; LF].
  repeat split; eauto; discriminate.
Qed.

Lemma ensure_date_header_twice (fs fs1 : fsys) (p : path) (dt : datetime) :
  ensure_date_header p dt fs = Ok fs1 ->
  ensure_date_header p dt fs1 = Ok fs1 /\
  exists ext,
    raw_at fs1 p = raw_at fs p ++ ext /\
    (ext = [] \/
     (ext = header_block (universal_newlines (raw_at fs p)) dt /\
      header_count dt ext = 1%nat)) /\
    header_match (strftime_mdY dt) (universal_newlines (raw_at fs1 p)).
Proof.
  intros H. destruct (ensure_date_header_ok _ _ _ _ H) as (raw & Hf & Hu).
  rewrite (ensure_date_header_spec _ _ _ _ Hf Hu) in H.
  rewrite (raw_at_file_or_absent _ _ _ Hf).
  destruct (re_search (header_re (strftime_mdY dt)) (universal_newlines raw))
    eqn:Es; injection H as <-.
  - split.
    + rewrite (ensure_date_header_spec _ _ _ _ Hf Hu), Es. reflexivity.
    + exists []. rewrite (raw_at_file_or_absent _ _ _ Hf), app_nil_r.
      split; [reflexivity|]. split; [auto|].
      apply header_search_spec, Es.
  - set (block := header_block (universal_newlines raw) dt).
    assert (file_or_absent (<[p := File (raw ++ block)]> fs) p (raw ++ block))
      as Hf1.
    { left. assert (exists n par, p = n :: par) as (n & par & ->).
      { destruct Hf as [Hf | (_ & n & par & -> & _)]; [|eauto].
        apply node_at_file in Hf. tauto. }
      apply node_at_insert_eq. }
    pose proof (header_found_after_block raw dt) as Hm. fold block in Hm.
    assert (utf8_ok (raw ++ block) = true) as Hu1.
    { rewrite utf8_ok_app, Hu. apply utf8_ok_header_block. }
    split.
    + rewrite (ensure_date_header_spec _ _ _ _ Hf1 Hu1).
      apply header_search_spec in Hm. rewrite Hm. reflexivity.
    + exists block. rewrite (raw_at_file_or_absent _ _ _ Hf1).
      split; [reflexivity|]. split; [|exact Hm].
      right. split; [reflexivity|].
      unfold header_count, block.
      rewrite count_occ_header_block by reflexivity.
      destruct (str_eq_dec (header_line dt) (header_line dt)); congruence.
Qed.

(** C2, amended: [ensure_date_header] is idempotent: a second call for the
    same date changes nothing, the two calls together append at most one
    header block, which holds the header line once, and afterwards the
    header is found.  In every journal file reached from an empty notes
    directory by adding notes whose message and tags contain no line break
    (LF or CR) there is at most one header line per date.  No operation
    removes a header line, whatever the notes are: a note leaves the lines
    of every journal file in place and only adds lines after them. *)
Theorem C2_header_idempotent_and_unique :
  (forall (fs fs1 : fsys) (p : path) (dt : datetime),
     ensure_date_header p dt fs = Ok fs1 ->
     ensure_date_header p dt fs1 = Ok fs1 /\
     exists ext,
       raw_at fs1 p = raw_at fs p ++ ext /\
       (ext = [] \/
        (ext = header_block (universal_newlines (raw_at fs p)) dt /\
         header_count dt ext = 1%nat)) /\
       header_match (strftime_mdY dt) (universal_newlines (raw_at fs1 p))) /\
  one_header_per_date plain_note /\
  (forall (nd : path) (fs fs' : fsys) (dt : datetime) (m : str)
          (tags : list str) (name raw : str),
     reachable any_note nd fs ->
     cmd_add nd dt m tags fs = Ok fs' ->
     fs !! (name :: nd) = Some (File raw) ->
     exists ext,
       fs' !! (name :: nd) = Some (File (raw ++ ext)) /\
       forall dt', (header_count dt' raw <= header_count dt' (raw ++ ext))%nat).
Proof.
  split; [|split].
  - apply ensure_date_header_twice.
  - intros nd fs name raw dt Hr Hx.
    destruct (reachable_tidy _ _ _ _ Hr Hx) as (_ & _ & Huniq).
    apply Huniq. reflexivity.
  - intros nd fs fs' dt m tags name raw.
    apply cmd_add_keeps_headers.
Qed.

Lemma C2_header_idempotent_and_unique_witness :
  ensure_date_header example_year_file example_date (example_fs (lit "* old"))
  = Ok (example_fs (lit "* old" ++ [LF; LF] ++ lit "# 08/14/2025" ++ [LF; LF])) /\
  ensure_date_header example_year_file example_date
    (example_fs (lit "* old" ++ [LF; LF] ++ lit "# 08/14/2025" ++ [LF; LF]))
  = Ok (example_fs (lit "* old" ++ [LF; LF] ++ lit "# 08/14/2025" ++ [LF; LF])).
Proof.
  assert (ensure_date_header example_year_file example_date
            (example_fs (lit "* old"))
          = Ok (example_fs (lit "* old" ++ [LF; LF] ++ lit "# 08/14/2025"
                              ++ [LF; LF]))) as H1.
  { rewrite (ensure_date_header_spec _ _ _ (lit "* old"))
      by (reflexivity || (left; reflexivity)).
    unfold example_fs. cbn [re_search]. rewrite insert_insert_eq.
    reflexivity. }
  split; [exact H1|].
  exact (proj1 (proj1 C2_header_idempotent_and_unique _ _ _ _ H1)).
Defined.

(** C2 as stated fails: the note with the message ["x\n# 08/14/2025"] for
    08/14/2025, added to an empty notes directory, leaves a year file with
    two lines ["# 08/14/2025"]. *)
Lemma C2_one_header_fail : ~ one_header_per_date any_note.
Proof.
  intros H.
  assert (cmd_add example_notes_dir example_date
            (lit "x" ++ [LF] ++ lit "# 08/14/2025") [] ∅
          = Ok (example_fs (lit "# 08/14/2025" ++ [LF; LF] ++ lit "* x" ++ [LF]
                              ++ lit "# 08/14/2025" ++ [LF]))) as Hadd
    by (vm_compute; reflexivity).
  specialize (H example_notes_dir _ (lit "2025.md")
                (lit "# 08/14/2025" ++ [LF; LF] ++ lit "* x" ++ [LF]
                   ++ lit "# 08/14/2025" ++ [LF])
                example_date
                (reach_add any_note example_notes_dir ∅ _ example_date _ []
                   (reach_fresh any_note example_notes_dir ∅
                      (fun name => lookup_empty _))
                   I Hadd)
                eq_refl).
  vm_compute in H. lia.
Qed.

(** ** Examples *)

Example render_person_tag :
  lines (render_note_lines (lit "buy milk") [lit "Chris"])
  = [lit "* Chris: buy milk"].
Proof. reflexivity. Qed.

Example render_ticket_tag :
  lines (render_note_lines (lit "fix bug") [lit "DT-1234"])
  = [lit "* DT-1234"; lit "    * fix bug"].
Proof. reflexivity. Qed.

Example render_empty_message :
  lines (render_note_lines [] [lit "Chris"; lit "DT-1"])
  = [lit "* Chris:"; lit "* DT-1"; lit "    *"].
Proof. reflexivity. Qed.

Example is_ticket_examples :
  is_ticket (lit "AB-12") = true /\ is_ticket (lit "A-12") = false /\
  is_ticket (lit "AB-") = false /\ is_ticket (lit "ab-12") = false /\
  is_ticket (lit "AB-12" ++ [LF]) = false /\
  is_ticket (lit "AB-" ++ [1633; 1634]) = true.
Proof. repeat split; reflexivity. Qed.

Example header_search_examples :
  re_search (header_re (lit "08/14/2025")) (lit "# 08/14/2025") = true /\
  re_search (header_re (lit "08/14/2025")) (lit "x# 08/14/2025") = false /\
  re_search (header_re (lit "08/14/2025")) (lit "# 08/14/2025x") = false /\
  re_search (header_re (lit "08/14/2025"))
    ([HASH; LF] ++ lit "08/14/2025" ++ [SP; LF] ++ lit "* a") = true.
Proof. repeat split; reflexivity. Qed.

Example cmd_add_twice :
  (fs1 ← cmd_add example_notes_dir example_date (lit " first ") [] ∅;
   cmd_add example_notes_dir example_date (lit "second") [lit "DT-7"] fs1)
  = Ok (example_fs
          (lit "# 08/14/2025" ++ [LF; LF] ++ lit "* first" ++ [LF] ++
           lit "* DT-7" ++ [LF] ++ lit "    * second" ++ [LF])).
Proof. vm_compute. reflexivity. Qed.

Example strftime_year_below_1000 :
  strftime_mdY {| year := 999; month := 1; day := 1 |} = lit "01/01/999" /\
  strftime_mdY {| year := 5; month := 12; day := 31 |} = lit "12/31/5" /\
  strftime_mdY {| year := 1000; month := 1; day := 1 |} = lit "01/01/1000".
Proof. repeat split; reflexivity. Qed.

(** For the year 999 the header that is looked for is ["# 01/01/999"]: a
    file with that line is left as it is, and a file with the line
    ["# 01/01/0999"] gets the header appended. *)
Example header_year_below_1000 :
  ensure_date_header example_year_file {| year := 999; month := 1; day := 1 |}
    (example_fs (lit "# 01/01/999" ++ [LF]))
  = Ok (example_fs (lit "# 01/01/999" ++ [LF])) /\
  ensure_date_header example_year_file {| year := 999; month := 1; day := 1 |}
    (example_fs (lit "# 01/01/0999" ++ [LF]))
  = Ok (example_fs (lit "# 01/01/0999" ++ [LF; LF] ++ lit "# 01/01/999"
                      ++ [LF; LF])).
Proof. split; vm_compute; reflexivity. Qed.

(** A tag with a lone surrogate cannot be written: the note fails with
    [UnicodeEncodeError]; a year file that is not valid UTF-8 cannot be
    read: the note fails with [UnicodeDecodeError]. *)
Example cmd_add_unicode_errors :
  cmd_add example_notes_dir example_date (lit "ok") [[56448]] ∅
  = Raise UnicodeEncodeError /\
  cmd_add example_notes_dir example_date (lit "ok") [] (example_fs [56515])
  = Raise UnicodeDecodeError.
Proof. split; vm_compute; reflexivity. Qed.

(** * Further properties of the renderer *)

Lemma filter_split_length {A} (f : A -> bool) (l : list A) :
  (length (List.filter f l) + length (List.filter (fun x => negb (f x)) l)
   = length l)%nat.
Proof.
  induction l as [|x l IH]; simpl; [reflexivity|].
  destruct (f x); simpl; lia.
Qed.

Lemma flat_map_ticket_length m l :
  length (flat_map (ticket_lines m) l) = (2 * length l)%nat.
Proof. induction l as [|t l IH]; simpl; lia. Qed.

(** The number of lines of a note, which [cmd_add] reports: one line when
    no tag remains after trimming, otherwise one line per person-like tag
    and two per ticket-like tag; never zero. *)
Theorem render_line_count (m : str) (tags : list str) :
  length (lines (render_note_lines m tags)) =
    match clean_tags tags with
    | [] => 1%nat
    | _ :: _ =>
        (length (List.filter is_person (clean_tags tags)) +
         2 * length (List.filter is_ticket (clean_tags tags)))%nat
    end /\
  (1 <= length (lines (render_note_lines m tags)))%nat.
Proof.
  destruct (clean_tags tags) as [|t ts] eqn:E.
  - rewrite (render_lines_untagged m tags E). simpl. auto.
  - assert (clean_tags tags <> []) as Hne by congruence.
    rewrite (render_lines_tagged m tags Hne), E.
    rewrite length_app, length_map, flat_map_ticket_length.
    rewrite !(Permutation_length (sorted_perm _)).
    split; [reflexivity|].
    pose proof (filter_split_length is_ticket (t :: ts)) as H.
    fold is_person in H. simpl length in H at 3. lia.
Qed.

Lemma clean_tags_elem t tags :
  In t (clean_tags tags) -> t <> [] /\ strip t = t /\ rstrip t = t.
Proof.
  unfold clean_tags. intros H. apply in_map_iff in H as (t0 & <- & Hin).
  apply filter_In in Hin as [_ Hne]. apply andb_true_iff in Hne as [_ Hne].
  apply nonempty_true in Hne. split; [exact Hne|].
  split; [apply strip_idem|]. unfold strip. apply rstrip_idem.
Qed.

(** Every rendered line is a bullet: it begins with [*] or with four
    spaces and [*], and it has no trailing whitespace, whatever the message
    and the tags are. *)
Theorem render_lines_are_bullets (m : str) (tags : list str) :
  Forall (fun l =>
            rstrip l = l /\
            ((exists r, l = STAR :: r) \/ (exists r, l = lit "    *" ++ r)))
    (lines (render_note_lines m tags)).
Proof.
  destruct (clean_tags tags) as [|t0 ts] eqn:E.
  - rewrite (render_lines_untagged m tags E).
    constructor; [|constructor]. split; [apply rstrip_idem|].
    left. rewrite bullet_line_shape. eauto.
  - assert (clean_tags tags <> []) as Hne by congruence.
    rewrite (render_lines_tagged m tags Hne).
    apply List.Forall_forall. intros l Hin.
    apply in_app_or in Hin as [Hin | Hin].
    + apply in_map_iff in Hin as (t & <- & _).
      split; [apply rstrip_idem|]. left.
      rewrite person_line_shape. simpl. eauto.
    + apply in_flat_map in Hin as (t & Hin & [<- | [<- | []]]).
      * apply (Permutation_in _ (sorted_perm _)) in Hin.
        apply filter_In in Hin as [Hin _].
        apply clean_tags_elem in Hin as (H1 & _ & H3).
        split; [apply rstrip_app_fixed; assumption|].
        left. simpl. eauto.
      * split; [apply rstrip_idem|]. right.
        rewrite sub_bullet_shape. eauto.
Qed.

Lemma rstrip_app_spaces a ws :
  Forall (fun c => isspace c = true) ws -> rstrip (a ++ ws) = rstrip a.
Proof.
  intros H. unfold rstrip. rewrite rev_app_distr. f_equal.
  apply Forall_rev in H. induction H as [|c l Hc _ IH]; simpl;
    [reflexivity | rewrite Hc; exact IH].
Qed.

Lemma rstrip_app_rstrip a m : rstrip (a ++ rstrip m) = rstrip (a ++ m).
Proof.
  destruct (rstrip_decomp m) as (ws & Hm & Hws).
  rewrite Hm at 2. rewrite app_assoc. symmetry.
  apply rstrip_app_spaces, Hws.
Qed.

(** Whitespace at the end of the message does not show in the output. *)
Theorem render_ignores_trailing_whitespace (m : str) (tags : list str) :
  render_note_lines (rstrip m) tags = render_note_lines m tags.
Proof.
  unfold render_note_lines, person_line, ticket_lines.
  destruct (clean_tags tags) as [|t ts].
  - rewrite rstrip_app_rstrip. reflexivity.
  - f_equal. f_equal.
    + apply flat_map_ext. intros t'.
      rewrite !app_assoc, rstrip_app_rstrip. reflexivity.
    + apply flat_map_ext. intros t'. rewrite rstrip_app_rstrip. reflexivity.
Qed.

(** * Further properties of the tag classifier *)

Lemma isspace_cases c :
  isspace c = true ->
  In c [9; 10; 11; 12; 13; 28; 29; 30; 31; 32; 133; 160; 5760; 8192; 8193;
        8194; 8195; 8196; 8197; 8198; 8199; 8200; 8201; 8202; 8232; 8233;
        8239; 8287; 12288].
Proof.
  unfold isspace, in_ranges, unicode_space. simpl existsb.
  rewrite !orb_true_iff, !andb_true_iff, !N.leb_le. simpl. lia.
Qed.

Lemma space_not_decimal c : isspace c = true -> isdecimal c = false.
Proof.
  intros H. apply isspace_cases in H.
  repeat (destruct H as [<- | H]; [vm_compute; reflexivity|]).
  destruct H.
Qed.

Lemma space_not_AZ c : isspace c = true -> is_AZ c = false.
Proof.
  intros H. apply isspace_cases in H.
  repeat (destruct H as [<- | H]; [vm_compute; reflexivity|]).
  destruct H.
Qed.

Lemma strip_no_space t :
  Forall (fun c => isspace c = false) t -> strip t = t.
Proof.
  intros H. unfold strip.
  assert (forall s, Forall (fun c => isspace c = false) s -> lstrip s = s)
    as Hl.
  { intros s Hs. destruct Hs as [|c s Hc _]; simpl; [|rewrite Hc];
      reflexivity. }
  rewrite (Hl t H). unfold rstrip.
  rewrite (Hl (rev t)) by (apply Forall_rev, H). apply rev_involutive.
Qed.

(** A ticket-like tag has at least four characters and holds no
    whitespace, so trimming leaves it as it is: a tag with whitespace
    around it is ticket-like only after it has been trimmed. *)
Theorem is_ticket_no_whitespace (t : str) :
  is_ticket t = true ->
  (4 <= length t)%nat /\ Forall (fun c => isspace c = false) t /\ strip t = t.
Proof.
  intros H. apply is_ticket_shape in H as (ls & ds & -> & Hl & Hls & Hd & Hds).
  assert (Forall (fun c => isspace c = false) (ls ++ [HYPHEN] ++ ds)) as Hns.
  { apply Forall_app. split; [|constructor; [reflexivity|]].
    - eapply Forall_impl; [exact Hls|]. intros c Hc. simpl in Hc.
      destruct (isspace c) eqn:E; [|reflexivity].
      apply space_not_AZ in E. congruence.
    - eapply Forall_impl; [exact Hds|]. intros c Hc. simpl in Hc.
      destruct (isspace c) eqn:E; [|reflexivity].
      apply space_not_decimal in E. congruence. }
  split; [|split; [exact Hns | apply strip_no_space, Hns]].
  rewrite !length_app. simpl. lia.
Qed.

Lemma is_ticket_no_whitespace_witness :
  is_ticket (lit "DT-1234") = true /\ strip (lit "DT-1234") = lit "DT-1234".
Proof.
  split; [reflexivity|].
  apply (is_ticket_no_whitespace (lit "DT-1234")). reflexivity.
Defined.

(** * Further properties of dates and year files *)

Lemma uint_str_inj d1 : forall d2, uint_str d1 = uint_str d2 -> d1 = d2.
Proof.
  induction d1 as [|d1 IH|d1 IH|d1 IH|d1 IH|d1 IH|d1 IH|d1 IH|d1 IH|d1 IH
                   |d1 IH];
    intros [|d2|d2|d2|d2|d2|d2|d2|d2|d2|d2] H; simpl in H;
    try discriminate; try reflexivity;
    injection H as H; f_equal; apply IH; exact H.
Qed.

Lemma str_of_N_inj n1 n2 : str_of_N n1 = str_of_N n2 -> n1 = n2.
Proof.
  unfold str_of_N. intros H. apply uint_str_inj in H.
  apply DecimalN.Unsigned.to_uint_inj, H.
Qed.

(** The month and the day are read off their two digits, the year off the
    digits after the second slash, however many they are. *)
Lemma strftime_mdY_inj (dt1 dt2 : datetime) :
  valid_datetime dt1 -> valid_datetime dt2 ->
  strftime_mdY dt1 = strftime_mdY dt2 -> dt1 = dt2.
Proof.
  intros V1 V2 H.
  destruct (strftime_mdY_format dt1) as (a1 & a2 & a3 & a4 & E1 & _ & F1).
  destruct (strftime_mdY_format dt2) as (b1 & b2 & b3 & b4 & E2 & _ & F2).
  rewrite E1, E2 in H. specialize (F1 V1). specialize (F2 V2).
  cbn [app] in H. injection H as H1 H2 H3 H4 H5.
  apply str_of_N_inj in H5.
  destruct dt1 as [y1 m1 d1], dt2 as [y2 m2 d2]. simpl in *.
  f_equal; lia.
Qed.

(** Two valid dates with the same formatted header are the same day: the
    header lines of different days differ, also for the years below 1000,
    whose headers are shorter. *)
Theorem strftime_mdY_injective (dt1 dt2 : datetime) :
  valid_datetime dt1 -> valid_datetime dt2 ->
  (strftime_mdY dt1 = strftime_mdY dt2 -> dt1 = dt2) /\
  (header_line dt1 = header_line dt2 -> dt1 = dt2).
Proof.
  intros V1 V2. split.
  - apply strftime_mdY_inj; assumption.
  - intros H. apply (app_inv_head (lit "# ")) in H.
    apply strftime_mdY_inj; assumption.
Qed.

Lemma strftime_mdY_injective_witness :
  strftime_mdY {| year := 2025; month := 8; day := 14 |} <>
  strftime_mdY {| year := 2025; month := 8; day := 15 |}.
Proof.
  intros H.
  assert (valid_datetime {| year := 2025; month := 8; day := 14 |}) as V1
    by (unfold valid_datetime; simpl; lia).
  assert (valid_datetime {| year := 2025; month := 8; day := 15 |}) as V2
    by (unfold valid_datetime; simpl; lia).
  pose proof (proj1 (strftime_mdY_injective _ _ V1 V2) H) as E.
  discriminate E.
Defined.

(** Notes go to the same year file exactly when their dates are of the
    same year: the files of different years never coincide. *)
Theorem year_path_same_year (notes_dir : path) (dt1 dt2 : datetime) :
  year_path notes_dir dt1 = year_path notes_dir dt2 <-> year dt1 = year dt2.
Proof.
  unfold year_path. split.
  - intros H. injection H as H. apply app_inv_tail in H.
    apply str_of_N_inj, H.
  - intros ->. reflexivity.
Qed.

Lemma year_path_same_year_witness :
  year_path example_notes_dir {| year := 999; month := 1; day := 1 |} <>
  year_path example_notes_dir {| year := 9990; month := 1; day := 1 |}.
Proof.
  intros H. apply (proj1 (year_path_same_year _ _ _)) in H. discriminate H.
Defined.

(** * Further properties of the file operations *)

Lemma mkdir_parents_no_file p : forall (fs fs1 : fsys),
  wf_fs fs -> mkdir_parents p fs = Ok fs1 -> no_file_above fs p.
Proof.
  induction p as [|n par IH]; intros fs fs1 Hwf H q raw Hq Hfile.
  - apply above_nil in Hq as ->. discriminate.
  - rewrite mkdir_parents_cons in H. unfold os_mkdir in H.
    destruct (fs !! (n :: par)) as [x|] eqn:E.
    + destruct (is_dir fs (n :: par)) eqn:Hd; [|discriminate].
      pose proof (wf_dir_above fs _ q Hwf Hd Hq) as Hqd.
      apply is_dir_node in Hqd. congruence.
    + apply above_inv in Hq as [-> | Hq]; [simpl in Hfile; congruence|].
      assert (is_dir fs (n :: par) = false) as Hnd
        by (unfold is_dir; simpl; rewrite E; reflexivity).
      destruct (node_at fs par) as [[|raw']|] eqn:Ep.
      * assert (is_dir fs par = true) as Hd by (apply is_dir_node, Ep).
        pose proof (wf_dir_above fs _ q Hwf Hd Hq) as Hqd.
        apply is_dir_node in Hqd. congruence.
      * rewrite Hnd in H. discriminate.
      * destruct (mkdir_parents par fs) as [fs0|] eqn:Hmk;
          cbn [mbind result_bind] in H; [|discriminate].
        exact (IH fs fs0 Hwf Hmk q raw Hq Hfile).
Qed.

(** [ensure_year_file] succeeds exactly when no regular file stands where
    the notes directory or one of its ancestors should be, and then
    returns the year path; when the notes directory itself is a regular
    file it raises [FileExistsError]. *)
Theorem ensure_year_file_succeeds_iff (notes_dir : path) (dt : datetime)
    (fs : fsys) :
  wf_fs fs ->
  ((exists fs', ensure_year_file notes_dir dt fs
                = Ok (year_path notes_dir dt, fs')) <->
   no_file_above fs notes_dir) /\
  ((exists p fs', ensure_year_file notes_dir dt fs = Ok (p, fs')) ->
   no_file_above fs notes_dir) /\
  (forall raw, node_at fs notes_dir = Some (File raw) ->
     ensure_year_file notes_dir dt fs = Raise FileExistsError).
Proof.
  intros Hwf.
  assert ((exists p fs', ensure_year_file notes_dir dt fs = Ok (p, fs')) ->
          no_file_above fs notes_dir) as Hok.
  { intros (p & fs' & H). unfold ensure_year_file in H.
    destruct (mkdir_parents notes_dir fs) as [fs1|] eqn:Hmk;
      [|discriminate].
    exact (mkdir_parents_no_file _ _ _ Hwf Hmk). }
  split; [|split; [exact Hok|]].
  - split.
    + intros (fs' & H). apply Hok. eauto.
    + intros Hnf.
      destruct (ensure_year_file_spec notes_dir dt fs Hwf Hnf)
        as (fs1 & _ & _ & H). eauto.
  - intros raw Hfile. apply node_at_file in Hfile as (Hfile & n & par & ->).
    unfold ensure_year_file. rewrite mkdir_parents_cons. unfold os_mkdir.
    rewrite Hfile. unfold is_dir. simpl node_at. rewrite Hfile. reflexivity.
Qed.

Lemma ensure_year_file_succeeds_iff_witness :
  wf_fs (example_fs []) /\
  ensure_year_file example_year_file example_date (example_fs [])
  = Raise FileExistsError.
Proof.
  assert (wf_fs (example_fs [])) as Hwf.
  { unfold example_fs. apply wf_insert.
    - apply (wf_insert ∅ (lit "notes") []);
        [apply wf_fs_empty | reflexivity | reflexivity].
    - reflexivity.
    - reflexivity. }
  split; [exact Hwf|].
  apply (ensure_year_file_succeeds_iff example_year_file example_date
           (example_fs []) Hwf) with (raw := []).
  reflexivity.
Defined.

Lemma ensure_date_header_on_dir (p : path) (dt : datetime) (fs : fsys) :
  node_at fs p = Some Dir ->
  ensure_date_header p dt fs = Raise IsADirectoryError.
Proof.
  intros H. unfold ensure_date_header, path_exists, read_text.
  rewrite H. reflexivity.
Qed.

(** [ensure_date_header] succeeds exactly when the path is a regular file
    whose content is valid UTF-8, or is missing in an existing directory;
    on a directory it raises [IsADirectoryError], on a file that is not
    valid UTF-8 [UnicodeDecodeError], on a missing file in a missing
    directory [FileNotFoundError]; when it succeeds no other path has
    changed. *)
Theorem ensure_date_header_outcome (p : path) (dt : datetime) (fs : fsys) :
  ((exists fs1, ensure_date_header p dt fs = Ok fs1) <->
   (exists raw, file_or_absent fs p raw /\ utf8_ok raw = true)) /\
  (node_at fs p = Some Dir ->
   ensure_date_header p dt fs = Raise IsADirectoryError) /\
  (forall raw, node_at fs p = Some (File raw) -> utf8_ok raw = false ->
     ensure_date_header p dt fs = Raise UnicodeDecodeError) /\
  (forall n par, p = n :: par -> fs !! p = None -> node_at fs par = None ->
     ensure_date_header p dt fs = Raise FileNotFoundError) /\
  (forall fs1, ensure_date_header p dt fs = Ok fs1 ->
     forall q : path, q <> p -> fs1 !! q = fs !! q).
Proof.
  split; [|split; [|split; [|split]]].
  - split.
    + intros (fs1 & H). exact (ensure_date_header_ok _ _ _ _ H).
    + intros (raw & H & Hu).
      rewrite (ensure_date_header_spec _ _ _ _ H Hu). eauto.
  - apply ensure_date_header_on_dir.
  - apply ensure_date_header_undecodable.
  - intros n par -> H1 H2. unfold ensure_date_header, path_exists.
    simpl node_at. rewrite H1. cbn [mbind result_bind].
    rewrite header_search_nil. unfold open_append. rewrite H1, H2.
    reflexivity.
  - intros fs1 H q Hq.
    destruct (ensure_date_header_ok _ _ _ _ H) as (raw & Hf & Hu).
    rewrite (ensure_date_header_spec _ _ _ _ Hf Hu) in H.
    destruct (re_search _ _); injection H as <-; [reflexivity|].
    apply lookup_insert_ne. congruence.
Qed.

Lemma ensure_date_header_outcome_witness :
  node_at (example_fs [56515]) example_year_file = Some (File [56515]) /\
  utf8_ok [56515] = false /\
  ensure_date_header example_year_file example_date (example_fs [56515])
  = Raise UnicodeDecodeError.
Proof.
  split; [reflexivity|]. split; [reflexivity|].
  exact (proj1 (proj2 (proj2
           (ensure_date_header_outcome example_year_file example_date
              (example_fs [56515]))))
           [56515] eq_refl eq_refl).
Defined.

Lemma open_append_ok (p : path) (fs fs1 : fsys) :
  open_append p fs = Ok fs1 -> exists raw, file_or_absent fs p raw.
Proof.
  unfold open_append. destruct p as [|n par]; [discriminate|].
  destruct (fs !! (n :: par)) as [[|raw]|] eqn:E; try discriminate.
  - intros _. exists raw. left. exact E.
  - destruct (node_at fs par) as [[|raw]|] eqn:Ep; try discriminate.
    intros _. exists []. right. split; [reflexivity|]. exists n, par. auto.
Qed.

Lemma file_after_insert (fs : fsys) p raw x :
  file_or_absent fs p raw -> file_or_absent (<[p := File x]> fs) p x.
Proof.
  intros H. left.
  assert (exists n par, p = n :: par) as (n & par & ->).
  { destruct H as [H | (_ & n & par & -> & _)]; [|eauto].
    apply node_at_file in H. tauto. }
  apply node_at_insert_eq.
Qed.

(** Appending two batches of lines one after the other is appending them
    all at once; the outcome is the same also when the file cannot be
    opened. *)
Theorem append_lines_compose (p : path) (dt1 dt2 : datetime)
    (ls1 ls2 : list str) (fs : fsys) :
  (fs1 ← append_lines_under_today p dt1 ls1 fs;
   append_lines_under_today p dt2 ls2 fs1)
  = append_lines_under_today p dt1 (ls1 ++ ls2) fs.
Proof.
  destruct (open_append p fs) as [fs0|e] eqn:Ho.
  - destruct (open_append_ok _ _ _ Ho) as (raw & Hf).
    rewrite (append_lines_spec _ _ dt1 ls1 _ Hf).
    rewrite (append_lines_spec _ _ dt1 (ls1 ++ ls2) _ Hf), forallb_app.
    destruct (forallb utf8_ok ls1); cbn [mbind result_bind andb];
      [|reflexivity].
    rewrite (append_lines_spec _ _ dt2 ls2 _ (file_after_insert _ _ _ _ Hf)).
    destruct (forallb utf8_ok ls2); [|reflexivity].
    rewrite insert_insert_eq, unlines_app, <- app_assoc. reflexivity.
  - unfold append_lines_under_today. rewrite Ho. reflexivity.
Qed.

(** [append_lines_under_today] succeeds exactly when the path is a regular
    file, or is missing in an existing directory (then the file is
    created), and every line can be encoded as UTF-8; on a directory it
    raises [IsADirectoryError], on a line with a lone surrogate
    [UnicodeEncodeError].  Appending no line to an existing file changes
    nothing, and no call changes another path. *)
Theorem append_lines_outcome (p : path) (dt : datetime) (ls : list str)
    (fs : fsys) :
  ((exists fs1, append_lines_under_today p dt ls fs = Ok fs1) <->
   (exists raw, file_or_absent fs p raw) /\ forallb utf8_ok ls = true) /\
  (node_at fs p = Some Dir ->
   append_lines_under_today p dt ls fs = Raise IsADirectoryError) /\
  (forall raw, file_or_absent fs p raw -> forallb utf8_ok ls = false ->
     append_lines_under_today p dt ls fs = Raise UnicodeEncodeError) /\
  (forall raw, node_at fs p = Some (File raw) ->
     append_lines_under_today p dt [] fs = Ok fs) /\
  (forall fs1, append_lines_under_today p dt ls fs = Ok fs1 ->
     forall q : path, q <> p -> fs1 !! q = fs !! q).
Proof.
  split; [|split; [|split; [|split]]].
  - split.
    + intros (fs1 & H).
      assert (exists raw, file_or_absent fs p raw) as (raw & Hf).
      { unfold append_lines_under_today in H.
        destruct (open_append p fs) as [fs0|] eqn:Ho; [|discriminate].
        exact (open_append_ok _ _ _ Ho). }
      split; [eauto|]. exact (proj1 (append_lines_ok _ _ _ _ _ _ Hf H)).
    + intros ((raw & H) & Hu).
      rewrite (append_lines_spec _ _ _ _ _ H), Hu. eauto.
  - intros H. unfold append_lines_under_today, open_append.
    destruct p as [|n par]; [reflexivity|]. simpl in H. rewrite H.
    reflexivity.
  - intros raw H Hu. rewrite (append_lines_spec _ _ _ _ _ H), Hu.
    reflexivity.
  - intros raw H. unfold append_lines_under_today.
    rewrite (open_append_file _ _ _ H). reflexivity.
  - intros fs1 H q Hq.
    assert (exists raw, file_or_absent fs p raw) as (raw & Hf).
    { unfold append_lines_under_today in H.
      destruct (open_append p fs) as [fs0|] eqn:Ho; [|discriminate].
      exact (open_append_ok _ _ _ Ho). }
    apply (append_lines_ok _ _ _ _ _ _ Hf) in H as [_ ->].
    apply lookup_insert_ne. congruence.
Qed.

Lemma append_lines_outcome_witness :
  file_or_absent (example_fs (lit "* a" ++ [LF])) example_year_file
    (lit "* a" ++ [LF]) /\
  forallb utf8_ok [lit "* b"; [56448]] = false /\
  append_lines_under_today example_year_file example_date
    [lit "* b"; [56448]] (example_fs (lit "* a" ++ [LF]))
  = Raise UnicodeEncodeError.
Proof.
  assert (file_or_absent (example_fs (lit "* a" ++ [LF])) example_year_file
            (lit "* a" ++ [LF])) as Hf by (left; reflexivity).
  split; [exact Hf|]. split; [reflexivity|].
  exact (proj1 (proj2 (proj2
           (append_lines_outcome example_year_file example_date
              [lit "* b"; [56448]] (example_fs (lit "* a" ++ [LF])))))
           (lit "* a" ++ [LF]) Hf eq_refl).
Defined.

(** * Further properties of [cmd_add] *)

Lemma wf_insert_file (fs : fsys) n par x :
  wf_fs fs -> node_at fs par = Some Dir -> fs !! (n :: par) <> Some Dir ->
  wf_fs (<[n :: par := File x]> fs).
Proof.
  intros Hwf Hpar Hnd name parent Hs.
  destruct (decide (n :: par = name :: parent)) as [E | E].
  - injection E as _ <-.
    rewrite node_at_insert_ne by apply child_neq. exact Hpar.
  - rewrite lookup_insert_ne in Hs by exact E.
    pose proof (Hwf _ _ Hs) as Hd.
    rewrite node_at_insert_ne; [exact Hd|].
    intros <-. simpl in Hd. congruence.
Qed.

Lemma utf8_ok_spec s :
  utf8_ok s = true <-> forall c, In c s -> is_surrogate c = false.
Proof.
  unfold utf8_ok. rewrite List.forallb_forall.
  split; intros H c Hc; specialize (H c Hc);
    [apply negb_true_iff in H | apply negb_true_iff]; exact H.
Qed.

Lemma utf8_ok_sub a b :
  (forall c, In c a -> In c b) -> utf8_ok b = true -> utf8_ok a = true.
Proof. rewrite !utf8_ok_spec. auto. Qed.

Lemma utf8_ok_strip s : utf8_ok s = true -> utf8_ok (strip s) = true.
Proof. apply utf8_ok_sub. intros c. apply in_strip. Qed.

Lemma utf8_ok_rstrip s : utf8_ok s = true -> utf8_ok (rstrip s) = true.
Proof. apply utf8_ok_sub. intros c. apply in_rstrip. Qed.

Lemma clean_tags_utf8 tags t :
  forallb utf8_ok tags = true -> In t (clean_tags tags) -> utf8_ok t = true.
Proof.
  intros H Hin. unfold clean_tags in Hin.
  apply in_map_iff in Hin as (t0 & <- & Hin). apply filter_In in Hin as [Hin _].
  rewrite List.forallb_forall in H. apply utf8_ok_strip, H, Hin.
Qed.

(** The rendered lines of a note can be encoded when its message and its
    tags can. *)
Lemma render_lines_utf8 m tags :
  utf8_ok m = true -> forallb utf8_ok tags = true ->
  forallb utf8_ok (lines (render_note_lines m tags)) = true.
Proof.
  intros Hm Htags. apply List.forallb_forall. intros l Hin.
  destruct (clean_tags tags) as [|t0 ts] eqn:E.
  - rewrite (render_lines_untagged m tags E) in Hin.
    destruct Hin as [<- | []]. apply utf8_ok_rstrip.
    rewrite utf8_ok_app, Hm. reflexivity.
  - assert (clean_tags tags <> []) as Hne by congruence.
    rewrite (render_lines_tagged m tags Hne) in Hin.
    assert (forall (f : str -> bool) t,
              In t (sorted (List.filter f (clean_tags tags))) ->
              utf8_ok t = true) as Ht.
    { intros f t Ht. apply (Permutation_in _ (sorted_perm _)) in Ht.
      apply filter_In in Ht as [Ht _]. exact (clean_tags_utf8 _ _ Htags Ht). }
    apply in_app_or in Hin as [Hin | Hin].
    + apply in_map_iff in Hin as (t & <- & Hin). apply Ht in Hin.
      unfold person_line. apply utf8_ok_rstrip.
      rewrite !utf8_ok_app, Hin, Hm. reflexivity.
    + apply in_flat_map in Hin as (t & Hin & [<- | [<- | []]]).
      * apply Ht in Hin. rewrite utf8_ok_app, Hin. reflexivity.
      * apply utf8_ok_rstrip. rewrite utf8_ok_app, Hm. reflexivity.
Qed.

Lemma utf8_ok_journal_after raw dt m tags :
  utf8_ok raw = true -> utf8_ok m = true -> forallb utf8_ok tags = true ->
  utf8_ok (journal_after raw dt m tags) = true.
Proof.
  intros Hr Hm Ht. unfold journal_after.
  rewrite !utf8_ok_app, Hr, utf8_ok_unlines.
  rewrite (render_lines_utf8 _ _ (utf8_ok_strip _ Hm) Ht), andb_true_r.
  destruct (re_search _ _); [reflexivity | apply utf8_ok_header_block].
Qed.

(** The file operations of [cmd_add] succeed on a well-formed file system
    whenever no regular file stands where the notes directory or an
    ancestor should be, the year path is not a directory, the year file
    (when there is one) is valid UTF-8, and the message and the tags can
    be encoded as UTF-8.  The year file then holds its earlier content
    followed by the header block (when the date had no header) and the
    rendered lines; every other node that existed is unchanged, and the
    file system is again one on which they succeed. *)
Theorem cmd_add_succeeds (notes_dir : path) (dt : datetime) (m : str)
    (tags : list str) (fs : fsys) :
  wf_fs fs -> no_file_above fs notes_dir ->
  node_at fs (year_path notes_dir dt) <> Some Dir ->
  utf8_ok (raw_at fs (year_path notes_dir dt)) = true ->
  utf8_ok m = true -> forallb utf8_ok tags = true ->
  exists fs' : fsys,
    cmd_add notes_dir dt m tags fs = Ok fs' /\
    fs' !! year_path notes_dir dt =
      Some (File (journal_after (raw_at fs (year_path notes_dir dt)) dt m tags)) /\
    (forall q : path, is_Some (fs !! q) -> q <> year_path notes_dir dt ->
       fs' !! q = fs !! q) /\
    wf_fs fs' /\ no_file_above fs' notes_dir /\
    node_at fs' (year_path notes_dir dt) <> Some Dir /\
    utf8_ok (raw_at fs' (year_path notes_dir dt)) = true.
Proof.
  intros Hwf Hnf Hnd Hu Hm Htags.
  destruct (ensure_year_file_spec notes_dir dt fs Hwf Hnf)
    as (fs1 & Hens & E0 & Hey).
  pose proof Hens as (H1 & H2 & H3).
  set (yp := year_path notes_dir dt) in *.
  set (raw := raw_at fs yp) in *.
  set (J := journal_after raw dt m tags).
  pose proof (render_lines_utf8 _ _ (utf8_ok_strip _ Hm) Htags) as Hl.
  assert (node_at fs1 notes_dir = Some Dir) as Hdir
    by (apply is_dir_node, H1, above_refl).
  assert (fs1 !! yp <> Some Dir) as Hnd1.
  { rewrite E0. exact Hnd. }
  (* the file system after [ensure_year_file] *)
  set (fs1' := match fs1 !! yp with
               | Some _ => fs1
               | None => <[yp := File []]> fs1
               end) in *.
  assert (node_at fs1' yp = Some (File raw) /\
          <[yp := File J]> fs1' = <[yp := File J]> fs1) as [Hfile Hins].
  { unfold fs1', raw, raw_at. change (node_at fs yp) with (fs !! yp).
    rewrite <- E0. destruct (fs1 !! yp) as [[|r]|] eqn:E.
    - congruence.
    - split; [exact E | reflexivity].
    - split; [apply node_at_insert_eq | apply insert_insert_eq]. }
  exists (<[yp := File J]> fs1).
  split; [|split; [|split; [|split; [|split; [|split]]]]].
  - unfold cmd_add. rewrite Hey. cbn [mbind result_bind].
    rewrite (ensure_date_header_spec _ _ _ raw (or_introl Hfile) Hu).
    cbn [mbind result_bind]. rewrite <- Hins.
    destruct (re_search (header_re (strftime_mdY dt)) (universal_newlines raw))
      eqn:Es.
    + rewrite (append_lines_spec _ _ _ _ raw (or_introl Hfile)), Hl.
      unfold J, journal_after. rewrite Es. reflexivity.
    + rewrite (append_lines_spec _ _ _ _
                 (raw ++ header_block (universal_newlines raw) dt)
                 (file_after_insert _ _ _ _ (or_introl Hfile))), Hl.
      rewrite insert_insert_eq. unfold J, journal_after.
      rewrite Es, <- app_assoc. reflexivity.
  - apply lookup_insert_eq.
  - intros q [x Hx] Hq. rewrite lookup_insert_ne by congruence.
    destruct (H2 q) as [E | (E & _)]; congruence.
  - apply wf_insert_file; assumption.
  - apply dirs_no_file_above. intros q Hq. apply is_dir_node.
    rewrite node_at_insert_ne.
    + apply is_dir_node, H1, Hq.
    + intros <-. exact (year_path_not_above _ _ Hq).
  - unfold yp, year_path. rewrite node_at_insert_eq. discriminate.
  - unfold raw_at at 1. unfold yp at 1, year_path.
    rewrite node_at_insert_eq. apply utf8_ok_journal_after; assumption.
Qed.

Lemma cmd_add_succeeds_witness :
  exists fs' : fsys,
    cmd_add example_notes_dir example_date (lit "hello") [lit "Chris"] ∅
    = Ok fs' /\
    fs' !! example_year_file =
      Some (File (lit "# 08/14/2025" ++ [LF; LF] ++ lit "* Chris: hello" ++ [LF])).
Proof.
  destruct (cmd_add_succeeds example_notes_dir example_date (lit "hello")
              [lit "Chris"] ∅ wf_fs_empty (no_file_above_empty _))
    as (fs' & H1 & H2 & _).
  - discriminate.
  - reflexivity.
  - reflexivity.
  - reflexivity.
  - exists fs'. split; [exact H1 | exact H2].
Defined.

(** When the year path is a directory, [cmd_add] raises
    [IsADirectoryError]: the header is never written into a directory. *)
Theorem cmd_add_year_path_is_directory (notes_dir : path) (dt : datetime)
    (m : str) (tags : list str) (fs : fsys) :
  wf_fs fs -> fs !! year_path notes_dir dt = Some Dir ->
  cmd_add notes_dir dt m tags fs = Raise IsADirectoryError.
Proof.
  intros Hwf Hd.
  assert (is_dir fs notes_dir = true) as Hnd.
  { apply is_dir_node. apply (Hwf (str_of_N (year dt) ++ lit ".md") notes_dir).
    exists Dir. exact Hd. }
  unfold cmd_add.
  rewrite (ensure_year_file_fixed notes_dir dt fs Hwf Hnd)
    by (exists Dir; exact Hd).
  cbn [mbind result_bind].
  assert (ensure_date_header (year_path notes_dir dt) dt fs
          = Raise IsADirectoryError) as ->; [|reflexivity].
  apply ensure_date_header_on_dir. exact Hd.
Qed.

Lemma cmd_add_year_path_is_directory_witness :
  cmd_add example_notes_dir example_date (lit "x") []
    (<[example_year_file := Dir]> (<[example_notes_dir := Dir]> ∅))
  = Raise IsADirectoryError.
Proof.
  apply cmd_add_year_path_is_directory.
  - apply wf_insert.
    + apply (wf_insert ∅ (lit "notes") []);
        [apply wf_fs_empty | reflexivity | reflexivity].
    + reflexivity.
    + reflexivity.
  - reflexivity.
Defined.

(** The first note of a year: when the year file does not exist, a
    successful [cmd_add] leaves it holding the header line, a blank line
    and the rendered lines, with nothing before the header. *)
Theorem cmd_add_first_note (notes_dir : path) (dt : datetime) (m : str)
    (tags : list str) (fs fs' : fsys) :
  cmd_add notes_dir dt m tags fs = Ok fs' ->
  fs !! year_path notes_dir dt = None ->
  fs' !! year_path notes_dir dt =
    Some (File (header_line dt ++ [LF; LF] ++
                concat (map (fun l => l ++ [LF])
                          (lines (render_note_lines (strip m) tags))))).
Proof.
  intros Hadd Hnone.
  destruct (cmd_add_journal _ _ _ _ _ _ Hadd) as (raw & Hraw & Hyp & _).
  assert (raw = []) as -> by (destruct Hraw as [H | [_ H]]; congruence).
  rewrite Hyp. unfold journal_after.
  change (universal_newlines []) with (@nil N).
  rewrite header_search_nil, header_block_nil, app_nil_l, <- app_assoc.
  reflexivity.
Qed.

Lemma cmd_add_first_note_witness :
  cmd_add example_notes_dir example_date (lit " fix bug ") [lit "DT-1234"] ∅
  = Ok (example_fs (lit "# 08/14/2025" ++ [LF; LF] ++ lit "* DT-1234" ++ [LF]
                      ++ lit "    * fix bug" ++ [LF])) /\
  example_fs (lit "# 08/14/2025" ++ [LF; LF] ++ lit "* DT-1234" ++ [LF]
                ++ lit "    * fix bug" ++ [LF]) !! example_year_file
  = Some (File (lit "# 08/14/2025" ++ [LF; LF] ++ lit "* DT-1234" ++ [LF]
                  ++ lit "    * fix bug" ++ [LF])).
Proof.
  assert (cmd_add example_notes_dir example_date (lit " fix bug ")
            [lit "DT-1234"] ∅
          = Ok (example_fs (lit "# 08/14/2025" ++ [LF; LF] ++ lit "* DT-1234"
                              ++ [LF] ++ lit "    * fix bug" ++ [LF]))) as H
    by (vm_compute; reflexivity).
  split; [exact H|].
  exact (cmd_add_first_note _ _ _ _ _ _ H eq_refl).
Defined.

(** ** Headers stay found *)

Lemma strftime_mdY_no_space dt :
  Forall (fun c => isspace c = false) (strftime_mdY dt).
Proof.
  eapply Forall_impl; [apply strftime_mdY_chars|].
  simpl. intros c Hc. destruct (isspace c) eqn:Es; [|reflexivity].
  apply isspace_cases in Es. simpl in Es. lia.
Qed.

(** A header that is found in a closed text is still found when more text
    follows. *)
Lemma header_match_app d c e :
  d <> [] -> Forall (fun x => isspace x = false) d ->
  closed c -> header_match d c -> header_match d (c ++ e).
Proof.
  intros Hne Hd Hcl (pre & ws1 & ws2 & post & -> & Hpre & Hw1 & Hws1 & Hws2 & Hpost).
  destruct Hpost as [-> | (post' & ->)].
  - destruct (exists_last Hne) as (d' & x & ->).
    apply Forall_app in Hd as [_ Hx]. inversion_clear Hx as [|? ? Hx' _].
    destruct Hcl as [Hcl | (a & Hcl)].
    { exfalso. destruct pre; discriminate. }
    destruct ws2 as [|y ws2 _] using rev_ind.
    + exfalso. rewrite !app_nil_r in Hcl. rewrite !app_assoc in Hcl.
      apply app_inj_tail in Hcl as [_ ->]. discriminate.
    + rewrite app_nil_r, !app_assoc in Hcl.
      apply app_inj_tail in Hcl as [_ ->].
      apply Forall_app in Hws2 as [Hws2 _].
      exists pre, ws1, ws2, (LF :: e). repeat split; eauto.
      rewrite <- !app_assoc. reflexivity.
  - exists pre, ws1, ws2, (LF :: post' ++ e). repeat split; eauto.
    rewrite <- !app_assoc. reflexivity.
Qed.

Lemma universal_newlines_app_closed a b :
  closed a ->
  universal_newlines (a ++ b) = universal_newlines a ++ universal_newlines b.
Proof.
  intros [-> | (a' & ->)]; [reflexivity|]. unfold universal_newlines.
  rewrite newline_decode_app, pending_after_snoc. reflexivity.
Qed.

Lemma closed_universal_newlines a : closed a -> closed (universal_newlines a).
Proof.
  intros [-> | (a' & ->)]; [left; reflexivity|].
  right. apply universal_newlines_closed.
Qed.

(** After a note has been added for a date, the header of the date is
    found in the year file. *)
Lemma header_found_after_note raw dt m tags :
  closed raw ->
  re_search (header_re (strftime_mdY dt))
    (universal_newlines (journal_after raw dt m tags)) = true.
Proof.
  intros Hcl. apply header_search_spec. unfold journal_after.
  assert (strftime_mdY dt <> []) as Hne by discriminate.
  pose proof (strftime_mdY_no_space dt) as Hns.
  destruct (re_search (header_re (strftime_mdY dt)) (universal_newlines raw))
    eqn:Es.
  - rewrite app_nil_l, (universal_newlines_app_closed _ _ Hcl).
    apply header_match_app; try assumption.
    + apply closed_universal_newlines, Hcl.
    + apply header_search_spec, Es.
  - rewrite app_assoc.
    assert (closed (raw ++ header_block (universal_newlines raw) dt)) as Hcl'
      by (apply closed_app; [exact Hcl | apply closed_header_block]).
    rewrite (universal_newlines_app_closed _ _ Hcl').
    apply header_match_app; try assumption.
    + apply closed_universal_newlines, Hcl'.
    + apply header_found_after_block.
Qed.

(** A second note for the same date only adds its lines: the header is
    not written again. *)
Theorem cmd_add_same_date_again (notes_dir : path) (dt : datetime)
    (m1 m2 : str) (tags1 tags2 : list str) (fs fs1 fs2 : fsys) :
  reachable any_note notes_dir fs ->
  cmd_add notes_dir dt m1 tags1 fs = Ok fs1 ->
  cmd_add notes_dir dt m2 tags2 fs1 = Ok fs2 ->
  exists raw1,
    fs1 !! year_path notes_dir dt = Some (File raw1) /\
    fs2 !! year_path notes_dir dt =
      Some (File (raw1 ++ concat (map (fun l => l ++ [LF])
                                    (lines (render_note_lines (strip m2) tags2))))).
Proof.
  intros Hr H1 H2.
  destruct (cmd_add_journal _ _ _ _ _ _ H1) as (raw & Hraw & Hyp1 & _).
  destruct (cmd_add_journal _ _ _ _ _ _ H2) as (raw1 & Hraw1 & Hyp2 & _).
  assert (closed raw) as Hcl.
  { destruct Hraw as [Hraw | [_ ->]]; [|apply closed_nil].
    exact (reachable_closed _ _ _ _ Hr Hraw). }
  assert (raw1 = journal_after raw dt m1 tags1) as ->
    by (destruct Hraw1 as [E | [E _]]; congruence).
  eexists. split; [exact Hyp1|]. rewrite Hyp2.
  unfold journal_after at 1.
  rewrite (header_found_after_note raw dt m1 tags1 Hcl). reflexivity.
Qed.

Lemma cmd_add_same_date_again_witness :
  exists fs1 fs2 : fsys,
    cmd_add example_notes_dir example_date (lit "one") [] ∅ = Ok fs1 /\
    cmd_add example_notes_dir example_date (lit "two") [] fs1 = Ok fs2 /\
    fs2 !! example_year_file =
      Some (File (lit "# 08/14/2025" ++ [LF; LF] ++ lit "* one" ++ [LF]
                    ++ lit "* two" ++ [LF])).
Proof.
  assert (cmd_add example_notes_dir example_date (lit "one") [] ∅
          = Ok (example_fs (lit "# 08/14/2025" ++ [LF; LF] ++ lit "* one"
                              ++ [LF]))) as H1 by (vm_compute; reflexivity).
  assert (cmd_add example_notes_dir example_date (lit "two") []
            (example_fs (lit "# 08/14/2025" ++ [LF; LF] ++ lit "* one" ++ [LF]))
          = Ok (example_fs (lit "# 08/14/2025" ++ [LF; LF] ++ lit "* one"
                              ++ [LF] ++ lit "* two" ++ [LF]))) as H2
    by (vm_compute; reflexivity).
  destruct (cmd_add_same_date_again example_notes_dir example_date
              (lit "one") (lit "two") [] [] ∅ _ _
              (reach_fresh any_note example_notes_dir ∅
                 (fun name => lookup_empty _)) H1 H2)
    as (raw1 & E1 & E2).
  eexists. eexists. split; [exact H1|]. split; [exact H2|].
  change (Some (File (lit "# 08/14/2025" ++ [LF; LF] ++ lit "* one" ++ [LF]))
          = Some (File raw1)) in E1.
  injection E1 as <-. exact E2.
Defined.

(** ** The search in journals kept by the program *)

(** The lines of a journal after a note without line breaks: the lines it
    had, the lines of the header block if one is written, the rendered
    lines. *)
Lemma journal_after_lines raw dt m tags :
  plain_note m tags -> ~ In CR raw -> closed raw ->
  ~ In CR (journal_after raw dt m tags) /\
  split_lines (journal_after raw dt m tags) =
    split_lines raw ++
    (if re_search (header_re (strftime_mdY dt)) raw then []
     else split_lines (header_block raw dt)) ++
    lines (render_note_lines (strip m) tags).
Proof.
  intros [Hm Htags] Hcr Hcl.
  pose proof (render_lines_plain (strip m) tags (plain_strip m Hm) Htags)
    as Hls.
  rewrite List.Forall_forall in Hls.
  unfold journal_after. rewrite (universal_newlines_plain raw Hcr).
  set (ls := lines (render_note_lines (strip m) tags)) in *.
  split.
  - intros H. apply in_app_or in H as [H | H]; [exact (Hcr H)|].
    apply in_app_or in H as [H | H].
    + destruct (re_search _ _); [exact H|].
      exact (header_block_no_CR _ _ H).
    + apply in_unlines in H as [H | (l & Hl & H)]; [discriminate|].
      apply Hls in Hl as [[_ Hl] _]. exact (Hl H).
  - assert (split_lines (unlines ls) = ls) as E.
    { apply split_lines_unlines, List.Forall_forall. intros l' Hin.
      apply Hls in Hin as [[Hin _] _]. exact Hin. }
    rewrite (split_lines_app _ _ Hcl). f_equal.
    destruct (re_search _ _).
    + simpl. exact E.
    + rewrite (split_lines_app _ _ (closed_header_block raw dt)), E.
      reflexivity.
Qed.

Lemma journal_shaped_nil : journal_shaped [].
Proof.
  split; [intros []|]. split; [apply closed_nil|]. intros l [].
Qed.

Lemma journal_shaped_step raw dt m tags :
  plain_note m tags -> journal_shaped raw ->
  journal_shaped (journal_after raw dt m tags).
Proof.
  intros Hok (Hcr & Hcl & Hhash).
  destruct (journal_after_lines raw dt m tags Hok Hcr Hcl) as [Hcr' Hlines].
  split; [exact Hcr'|]. split; [apply closed_journal_after, Hcl|].
  intros l Hin Hhd. rewrite Hlines in Hin.
  apply in_app_or in Hin as [Hin | Hin]; [exact (Hhash l Hin Hhd)|].
  apply in_app_or in Hin as [Hin | Hin].
  - destruct (re_search _ _); [destruct Hin|].
    destruct (split_lines_header_block raw dt) as (blanks & E & Hb).
    rewrite E in Hin. apply in_app_or in Hin as [Hin | [Hin | [Hin | []]]].
    + rewrite List.Forall_forall in Hb. apply Hb in Hin. subst l.
      discriminate.
    + eauto.
    + subst l. discriminate.
  - destruct Hok as [Hm Htags].
    pose proof (render_lines_plain (strip m) tags (plain_strip m Hm) Htags)
      as Hls.
    rewrite List.Forall_forall in Hls. apply Hls in Hin as [_ Hin].
    congruence.
Qed.

Lemma split_lines_head s : forall l0 ls,
  split_lines s = l0 :: ls ->
  exists post, s = l0 ++ post /\ (post = [] \/ exists p', post = LF :: p').
Proof.
  induction s as [|c s IH]; intros l0 ls H; [discriminate|].
  simpl in H. destruct (c =? LF) eqn:Hc.
  - apply N.eqb_eq in Hc as ->. injection H as <- _.
    exists (LF :: s). eauto.
  - destruct (split_lines s) as [|l ls'] eqn:E.
    + apply split_lines_nil in E as ->. injection H as <- _.
      exists []. auto.
    + injection H as <- _.
      destruct (IH l ls' eq_refl) as (post & -> & Hpost).
      exists post. auto.
Qed.

Lemma split_lines_hash r :
  exists l ls, split_lines (HASH :: r) = (HASH :: l) :: ls.
Proof.
  simpl. destruct (split_lines r) as [|l ls]; eauto.
Qed.

(** Two texts without whitespace that begin the same text, each followed
    by whitespace up to the end of the line, are the same. *)
Lemma word_before_eol_eq (d : str) : forall d0 ws2 post post0 : str,
  Forall (fun c => isspace c = false) d ->
  Forall (fun c => isspace c = false) d0 ->
  Forall (fun c => isspace c = true) ws2 ->
  (post = [] \/ exists p', post = LF :: p') ->
  (post0 = [] \/ exists p', post0 = LF :: p') ->
  d ++ ws2 ++ post = d0 ++ post0 -> d = d0.
Proof.
  induction d as [|c d IH]; intros d0 ws2 post post0 Hd Hd0 Hws Hp Hp0 E.
  - destruct d0 as [|x d0]; [reflexivity|]. exfalso.
    inversion_clear Hd0 as [|? ? Hx _]. cbn [app] in E.
    destruct ws2 as [|y ws2].
    + destruct Hp as [-> | (p' & ->)]; [discriminate|].
      cbn [app] in E. injection E as <- _. discriminate.
    + inversion_clear Hws as [|? ? Hy _]. cbn [app] in E.
      injection E as -> _. congruence.
  - inversion_clear Hd as [|? ? Hc Hd']. destruct d0 as [|x d0].
    + exfalso. cbn [app] in E.
      destruct Hp0 as [-> | (p' & ->)]; [discriminate|].
      injection E as -> _. discriminate.
    + inversion_clear Hd0 as [|? ? _ Hd0']. cbn [app] in E.
      injection E as -> E. f_equal.
      exact (IH _ _ _ _ Hd' Hd0' Hws Hp Hp0 E).
Qed.

(** In such a journal the tolerant search finds a header of a date
    exactly when one of the lines is the header line of the date. *)
Lemma shaped_search_exact raw dt :
  journal_shaped raw ->
  (re_search (header_re (strftime_mdY dt)) raw = true <->
   In (header_line dt) (split_lines raw)).
Proof.
  intros (Hcr & Hcl & Hhash). split.
  - intros Hs. apply header_search_spec in Hs
      as (pre & ws1 & ws2 & post & E & Hpre & Hw1 & Hws1 & Hws2 & Hpost).
    destruct (split_lines_hash (ws1 ++ strftime_mdY dt ++ ws2 ++ post))
      as (l & ls & El).
    assert (In (HASH :: l) (split_lines raw)) as Hin.
    { rewrite E, (split_lines_app pre _ Hpre).
      apply in_or_app. right.
      change ([HASH] ++ ws1 ++ strftime_mdY dt ++ ws2 ++ post)
        with (HASH :: ws1 ++ strftime_mdY dt ++ ws2 ++ post).
      rewrite El. left. reflexivity. }
    destruct (Hhash _ Hin eq_refl) as (dt0 & E0).
    destruct (split_lines_head _ _ _ El) as (post0 & Er & Hpost0).
    pose proof (strftime_mdY_no_space dt) as Hnd.
    pose proof (strftime_mdY_no_space dt0) as Hns.
    pose proof (strftime_mdY_nonempty dt0) as Hne0.
    unfold header_line in *.
    remember (strftime_mdY dt) as d eqn:Hd.
    remember (strftime_mdY dt0) as d0 eqn:Hd0.
    rewrite E0 in Er, Hin.
    change (lit "# " ++ d0) with (HASH :: SP :: d0) in Er.
    cbn [app] in Er. injection Er as Er.
    destruct ws1 as [|w ws1]; [congruence|].
    cbn [app] in Er. injection Er as -> Er.
    destruct ws1 as [|w' ws1]; cbn [app] in Er.
    + rewrite (word_before_eol_eq _ _ _ _ _ Hnd Hns Hws2 Hpost Hpost0 Er).
      exact Hin.
    + exfalso. inversion_clear Hws1 as [|? ? _ Hw'].
      inversion_clear Hw' as [|? ? Hw'' _].
      destruct d0 as [|x d0]; [congruence|].
      cbn [app] in Er. injection Er as -> _.
      inversion_clear Hns as [|? ? Hx _]. congruence.
  - intros Hin. apply header_search_spec, header_line_match, Hin.
Qed.

(** In a journal file kept by the program from notes without line breaks,
    [ensure_date_header] leaves the file as it is exactly when one of its
    lines is ["# MM/DD/YYYY"] for the date: there the tolerant search and
    the exact reading agree. *)
Theorem ensure_date_header_exact_in_journals (notes_dir : path) (fs fs1 : fsys)
    (name raw : str) (dt : datetime) :
  reachable plain_note notes_dir fs ->
  fs !! (name :: notes_dir) = Some (File raw) ->
  ensure_date_header (name :: notes_dir) dt fs = Ok fs1 ->
  (fs1 = fs <-> In (header_line dt) (split_lines raw)).
Proof.
  intros Hr Hx H.
  destruct (reachable_journals plain_note journal_shaped journal_shaped_nil
              (fun raw dt m tags Hok => journal_shaped_step raw dt m tags Hok)
              notes_dir fs Hr name _ Hx) as (raw' & Heq & Hshape).
  injection Heq as <-.
  assert (file_or_absent fs (name :: notes_dir) raw) as Hf by (left; exact Hx).
  destruct (ensure_date_header_ok _ _ _ _ H) as (raw0 & Hf0 & Hu).
  assert (raw0 = raw) as ->.
  { rewrite <- (raw_at_file_or_absent _ _ _ Hf0).
    apply raw_at_file_or_absent, Hf. }
  rewrite (ensure_date_header_spec _ _ _ _ Hf Hu) in H.
  pose proof Hshape as (Hcr & _ & _).
  rewrite (universal_newlines_plain raw Hcr) in H.
  pose proof (shaped_search_exact raw dt Hshape) as Hex.
  destruct (re_search (header_re (strftime_mdY dt)) raw) eqn:Es;
    injection H as <-.
  - split; [intros _; apply Hex; reflexivity | reflexivity].
  - split.
    + intros Heq. exfalso.
      exact (insert_file_neq _ _ _ _ Hf (header_block_nonempty raw dt) Heq).
    + intros Hin. apply Hex in Hin. discriminate.
Qed.

Lemma plain_ascii_one : plain (lit "one").
Proof. split; intros [H | [H | [H | []]]]; discriminate. Qed.

Lemma ensure_date_header_exact_in_journals_witness :
  reachable plain_note example_notes_dir
    (example_fs (lit "# 08/14/2025" ++ [LF; LF] ++ lit "* one" ++ [LF])) /\
  In (header_line example_date)
    (split_lines (lit "# 08/14/2025" ++ [LF; LF] ++ lit "* one" ++ [LF])).
Proof.
  assert (cmd_add example_notes_dir example_date (lit "one") [] ∅
          = Ok (example_fs (lit "# 08/14/2025" ++ [LF; LF] ++ lit "* one"
                              ++ [LF]))) as H1 by (vm_compute; reflexivity).
  assert (reachable plain_note example_notes_dir
            (example_fs (lit "# 08/14/2025" ++ [LF; LF] ++ lit "* one" ++ [LF])))
    as Hr.
  { apply (reach_add plain_note example_notes_dir ∅ _ example_date
             (lit "one") []).
    - apply reach_fresh. intros name. apply lookup_empty.
    - split; [apply plain_ascii_one | constructor].
    - exact H1. }
  split; [exact Hr|].
  apply (ensure_date_header_exact_in_journals example_notes_dir _
           (example_fs (lit "# 08/14/2025" ++ [LF; LF] ++ lit "* one" ++ [LF]))
           (lit "2025.md") _ example_date Hr eq_refl).
  - vm_compute. reflexivity.
  - reflexivity.
Defined.

Lemma journal_after_nil dt m tags :
  journal_after [] dt m tags =
  header_line dt ++ [LF; LF] ++ unlines (lines (render_note_lines (strip m) tags)).
Proof.
  unfold journal_after. change (universal_newlines []) with (@nil N).
  rewrite header_search_nil, header_block_nil, app_nil_l, <- app_assoc.
  reflexivity.
Qed.

(** Notes for two different days of one year, the first added to a year
    file that did not exist: the file holds the first header and its
    lines, a blank line, then the second header and its lines, in the
    order in which the notes were added (also when the second day is the
    earlier one). *)
Theorem cmd_add_two_dates (notes_dir : path) (dt1 dt2 : datetime)
    (m1 m2 : str) (tags1 tags2 : list str) (fs fs1 fs2 : fsys) :
  valid_datetime dt1 -> valid_datetime dt2 -> dt1 <> dt2 ->
  year dt1 = year dt2 ->
  plain_note m1 tags1 ->
  fs !! year_path notes_dir dt1 = None ->
  cmd_add notes_dir dt1 m1 tags1 fs = Ok fs1 ->
  cmd_add notes_dir dt2 m2 tags2 fs1 = Ok fs2 ->
  fs2 !! year_path notes_dir dt1 =
    Some (File (header_line dt1 ++ [LF; LF] ++
                unlines (lines (render_note_lines (strip m1) tags1)) ++
                [LF] ++ header_line dt2 ++ [LF; LF] ++
                unlines (lines (render_note_lines (strip m2) tags2)))).
Proof.
  intros V1 V2 Hne Hyear Hok Hnone H1 H2.
  assert (year_path notes_dir dt2 = year_path notes_dir dt1) as Eyp
    by (unfold year_path; rewrite Hyear; reflexivity).
  destruct (cmd_add_journal _ _ _ _ _ _ H1) as (raw & Hraw & Hyp1 & _).
  assert (raw = []) as -> by (destruct Hraw as [H | [_ H]]; congruence).
  destruct (cmd_add_journal _ _ _ _ _ _ H2) as (raw1 & Hraw1 & Hyp2 & _).
  rewrite Eyp in Hraw1, Hyp2.
  assert (raw1 = journal_after [] dt1 m1 tags1) as ->
    by (destruct Hraw1 as [E | [E _]]; congruence).
  rewrite Hyp2. do 2 f_equal.
  set (r1 := journal_after [] dt1 m1 tags1).
  pose proof (journal_shaped_step [] dt1 m1 tags1 Hok journal_shaped_nil)
    as Hshape.
  fold r1 in Hshape. pose proof Hshape as (Hcr & Hcl & _).
  destruct (journal_after_lines [] dt1 m1 tags1 Hok (fun H => H) closed_nil)
    as [_ Hlines].
  fold r1 in Hlines. rewrite header_search_nil in Hlines.
  change (split_lines r1 =
          split_lines (header_block [] dt1) ++
          lines (render_note_lines (strip m1) tags1)) in Hlines.
  (* no header of the second day in the file *)
  assert (re_search (header_re (strftime_mdY dt2)) r1 = false) as Es.
  { destruct (re_search (header_re (strftime_mdY dt2)) r1) eqn:Es;
      [|reflexivity].
    exfalso. apply (shaped_search_exact r1 dt2 Hshape) in Es.
    rewrite Hlines in Es.
    apply in_app_or in Es as [Es | Es].
    - destruct (split_lines_header_block [] dt1) as (blanks & E & Hb).
      rewrite E in Es. apply in_app_or in Es as [Es | [Es | [Es | []]]].
      + rewrite List.Forall_forall in Hb. apply Hb in Es. discriminate.
      + apply Hne. apply (app_inv_head (lit "# ")) in Es.
        apply strftime_mdY_inj; assumption.
      + discriminate.
    - destruct Hok as [Hm Htags].
      pose proof (render_lines_plain (strip m1) tags1 (plain_strip m1 Hm)
                    Htags) as Hls.
      rewrite List.Forall_forall in Hls. apply Hls in Es as [_ Es].
      apply Es. reflexivity. }
  assert (r1 <> []) as Hr1.
  { unfold r1. rewrite journal_after_nil. discriminate. }
  unfold journal_after at 1. fold r1.
  rewrite (universal_newlines_plain r1 Hcr), Es.
  unfold header_block.
  assert (nonempty r1 = true) as -> by (apply nonempty_true, Hr1).
  rewrite (closed_ends_with_LF r1 Hcl Hr1). cbn [andb negb].
  unfold r1. rewrite journal_after_nil, <- !app_assoc. reflexivity.
Qed.

Lemma cmd_add_two_dates_witness :
  cmd_add example_notes_dir {| year := 2025; month := 8; day := 13 |}
    (lit "two") []
    (example_fs (lit "# 08/14/2025" ++ [LF; LF] ++ lit "* one" ++ [LF]))
  = Ok (example_fs (lit "# 08/14/2025" ++ [LF; LF] ++ lit "* one" ++ [LF] ++
                    [LF] ++ lit "# 08/13/2025" ++ [LF; LF] ++ lit "* two" ++ [LF])) /\
  example_fs (lit "# 08/14/2025" ++ [LF; LF] ++ lit "* one" ++ [LF] ++
              [LF] ++ lit "# 08/13/2025" ++ [LF; LF] ++ lit "* two" ++ [LF])
    !! example_year_file
  = Some (File (lit "# 08/14/2025" ++ [LF; LF] ++ lit "* one" ++ [LF] ++
                [LF] ++ lit "# 08/13/2025" ++ [LF; LF] ++ lit "* two" ++ [LF])).
Proof.
  assert (cmd_add example_notes_dir example_date (lit "one") [] ∅
          = Ok (example_fs (lit "# 08/14/2025" ++ [LF; LF] ++ lit "* one"
                              ++ [LF]))) as H1 by (vm_compute; reflexivity).
  assert (cmd_add example_notes_dir {| year := 2025; month := 8; day := 13 |}
            (lit "two") []
            (example_fs (lit "# 08/14/2025" ++ [LF; LF] ++ lit "* one" ++ [LF]))
          = Ok (example_fs (lit "# 08/14/2025" ++ [LF; LF] ++ lit "* one"
                              ++ [LF] ++ [LF] ++ lit "# 08/13/2025"
                              ++ [LF; LF] ++ lit "* two" ++ [LF]))) as H2
    by (vm_compute; reflexivity).
  split; [exact H2|].
  apply (cmd_add_two_dates example_notes_dir example_date
           {| year := 2025; month := 8; day := 13 |}
           (lit "one") (lit "two") [] [] ∅
           (example_fs (lit "# 08/14/2025" ++ [LF; LF] ++ lit "* one" ++ [LF]))
           (example_fs (lit "# 08/14/2025" ++ [LF; LF] ++ lit "* one" ++ [LF]
                          ++ [LF] ++ lit "# 08/13/2025" ++ [LF; LF]
                          ++ lit "* two" ++ [LF]))).
  - unfold valid_datetime. simpl. lia.
  - unfold valid_datetime. simpl. lia.
  - discriminate.
  - reflexivity.
  - split; [apply plain_ascii_one | constructor].
  - reflexivity.
  - exact H1.
  - exact H2.
Defined.

(** A header that [ensure_date_header] finds in a journal file of the
    program is found again after any further note, for any date and
    whatever the note holds: the program never hides a header from its own
    search. *)
Theorem cmd_add_keeps_header_found (notes_dir : path) (fs fs' : fsys)
    (dt dt' : datetime) (m : str) (tags : list str) (name raw : str) :
  reachable any_note notes_dir fs ->
  fs !! (name :: notes_dir) = Some (File raw) ->
  re_search (header_re (strftime_mdY dt)) (universal_newlines raw) = true ->
  cmd_add notes_dir dt' m tags fs = Ok fs' ->
  exists raw',
    fs' !! (name :: notes_dir) = Some (File raw') /\
    re_search (header_re (strftime_mdY dt)) (universal_newlines raw') = true.
Proof.
  intros Hr Hx Hs Hadd.
  pose proof (reachable_closed _ _ _ _ Hr Hx) as Hcl.
  destruct (cmd_add_keeps_headers _ _ _ _ _ _ _ _ Hr Hadd Hx) as (ext & E & _).
  exists (raw ++ ext). split; [exact E|].
  apply header_search_spec.
  rewrite (universal_newlines_app_closed _ _ Hcl).
  apply header_match_app.
  - discriminate.
  - apply strftime_mdY_no_space.
  - apply closed_universal_newlines, Hcl.
  - apply header_search_spec, Hs.
Qed.

Lemma cmd_add_keeps_header_found_witness :
  exists raw',
    example_fs (lit "# 08/14/2025" ++ [LF; LF] ++ lit "* one" ++ [LF] ++
                [LF] ++ lit "# 08/13/2025" ++ [LF; LF] ++ lit "* two" ++ [LF])
      !! example_year_file = Some (File raw') /\
    re_search (header_re (strftime_mdY example_date))
      (universal_newlines raw') = true.
Proof.
  assert (cmd_add example_notes_dir example_date (lit "one") [] ∅
          = Ok (example_fs (lit "# 08/14/2025" ++ [LF; LF] ++ lit "* one"
                              ++ [LF]))) as H1 by (vm_compute; reflexivity).
  assert (cmd_add example_notes_dir {| year := 2025; month := 8; day := 13 |}
            (lit "two") []
            (example_fs (lit "# 08/14/2025" ++ [LF; LF] ++ lit "* one" ++ [LF]))
          = Ok (example_fs (lit "# 08/14/2025" ++ [LF; LF] ++ lit "* one"
                              ++ [LF] ++ [LF] ++ lit "# 08/13/2025"
                              ++ [LF; LF] ++ lit "* two" ++ [LF]))) as H2
    by (vm_compute; reflexivity).
  apply (cmd_add_keeps_header_found example_notes_dir
           (example_fs (lit "# 08/14/2025" ++ [LF; LF] ++ lit "* one" ++ [LF]))
           _ example_date {| year := 2025; month := 8; day := 13 |}
           (lit "two") [] (lit "2025.md")
           (lit "# 08/14/2025" ++ [LF; LF] ++ lit "* one" ++ [LF])).
  - apply (reach_add any_note example_notes_dir ∅ _ example_date
             (lit "one") []).
    + apply reach_fresh. intros name. apply lookup_empty.
    + exact I.
    + exact H1.
  - reflexivity.
  - reflexivity.
  - exact H2.
Defined.
